(** * ddb-pitr: a shallow embedding of the restore engine

    The Go packages [itemimage], [writer], [checkpoint], [manifest] and
    [coordinator] are embedded as Rocq modules of the same names.  Go maps
    are [gmap]s wrapped in [option] ([None] is the nil map), [int64] is [Z]
    with its wrap-around written out, [[]byte] and [string] are [string],
    and an [error] is a value of the inductive type [error] below.  Calls to
    external services are answered by an explicit environment, and every
    call the code issues is recorded in a trace. *)

From stdpp Require Import gmap strings list.
From Stdlib Require Import ZArith Ascii.

Set Warnings "-register-all".

Open Scope Z_scope.

(** ** Go values shared by the packages *)

(** A Go map: [None] is nil.  Reading a nil map finds nothing. *)
Abbreviation GoMap V := (option (gmap string V)).

Definition golookup {V} (k : string) (m : GoMap V) : option V :=
  match m with
  | Some g => g !! k
  | None => None
  end.

Definition gohas {V} (k : string) (m : GoMap V) : bool :=
  bool_decide (is_Some (golookup k m)).

Definition golen {V} (m : GoMap V) : nat :=
  match m with
  | Some g => size g
  | None => 0%nat
  end.

(** The double quote character, which no literal below spells out. *)
Definition dquote : string := String "034"%char EmptyString.

(** ** Errors

    [ErrCorrupt] is the package-level sentinel of [itemimage]; [wrapError]
    is what [fmt.Errorf] builds when its format holds a [%w] verb, and
    [errorString] what it builds otherwise.  The service exceptions of the
    SDK and the errors of [os] and [context] have constructors of their
    own, and [OperationError] is the SDK's wrapper around them. *)
Inductive error : Type :=
  | ErrCorrupt
  | errorString (s : string)
  | wrapError (msg : string) (err : error)
  | NoSuchKey
  | NotFound
  | ProvisionedThroughputExceededException
  | RequestLimitExceeded
  | OperationError (operation : string) (err : error)
  | ErrNotExist
  | ErrPermission
  | PathError (op path : string) (err : error)
  | Canceled
  | DeadlineExceeded.

#[global] Instance error_eq_dec : EqDecision error.
Proof. solve_decision. Defined.

Fixpoint Error (e : error) : string :=
  match e with
  | ErrCorrupt => "corrupt line"
  | errorString s => s
  | wrapError msg _ => msg
  | NoSuchKey => "NoSuchKey"
  | NotFound => "NotFound"
  | ProvisionedThroughputExceededException => "ProvisionedThroughputExceededException"
  | RequestLimitExceeded => "RequestLimitExceeded"
  | OperationError operation err => "operation error " +:+ operation +:+ ": " +:+ Error err
  | ErrNotExist => "file does not exist"
  | ErrPermission => "permission denied"
  | PathError op path err => op +:+ " " +:+ path +:+ ": " +:+ Error err
  | Canceled => "context canceled"
  | DeadlineExceeded => "context deadline exceeded"
  end.

(** [errors.Unwrap]. *)
Definition Unwrap (e : error) : option error :=
  match e with
  | wrapError _ err | OperationError _ err | PathError _ _ err => Some err
  | _ => None
  end.

(** [errors.Is err target]: [err] or an error of its chain equals [target]. *)
Fixpoint errors_Is (err target : error) : bool :=
  bool_decide (err = target) ||
  match err with
  | wrapError _ inner | OperationError _ inner | PathError _ _ inner =>
      errors_Is inner target
  | _ => false
  end.

(** [errors.As] with a target of one exception type: some error of the
    chain has that type. *)
Fixpoint errors_As (isType : error -> bool) (err : error) : bool :=
  isType err ||
  match err with
  | wrapError _ inner | OperationError _ inner | PathError _ _ inner =>
      errors_As isType inner
  | _ => false
  end.

(** What a Go function with results [(T, error)] returns. *)
Inductive result (A : Type) : Type :=
  | Ok (a : A)
  | Err (e : error).
Arguments Ok {A} a.
Arguments Err {A} e.

#[global] Instance result_ret : MRet result := fun A a => Ok a.

#[global] Instance result_bind : MBind result := fun A B f r =>
  match r with
  | Ok a => f a
  | Err e => Err e
  end.

(** [fmt.Errorf] with the format [prefix ++ ": %w"]. *)
Definition Errorf_w (prefix : string) (err : error) : error :=
  wrapError (prefix +:+ ": " +:+ Error err) err.

(** ** DynamoDB attribute values (the SDK's [types.AttributeValue]) *)
Inductive AttributeValue : Type :=
  | AttributeValueMemberS (Value : string)
  | AttributeValueMemberN (Value : string)
  | AttributeValueMemberB (Value : string)
  | AttributeValueMemberBOOL (Value : bool)
  | AttributeValueMemberNULL (Value : bool)
  | AttributeValueMemberSS (Value : list string)
  | AttributeValueMemberNS (Value : list string)
  | AttributeValueMemberBS (Value : list string)
  | AttributeValueMemberM (Value : gmap string AttributeValue)
  | AttributeValueMemberL (Value : list AttributeValue).

(** ** Package itemimage *)
Module itemimage.

Inductive OperationType : Type := OpPut | OpDelete | OpUpdate.

#[global] Instance OperationType_eq_dec : EqDecision OperationType.
Proof. solve_decision. Defined.

Record Operation : Type := mkOperation {
  Type_ : OperationType;
  Keys : GoMap AttributeValue;
  NewImage : GoMap AttributeValue;
  OldImage : GoMap AttributeValue;
}.

(** [Operation{}] *)
Definition zeroOperation : Operation :=
  {| Type_ := OpPut; Keys := None; NewImage := None; OldImage := None |}.

Definition setKeys (m : GoMap AttributeValue) (op : Operation) : Operation :=
  {| Type_ := Type_ op; Keys := m; NewImage := NewImage op; OldImage := OldImage op |}.
Definition setNewImage (m : GoMap AttributeValue) (op : Operation) : Operation :=
  {| Type_ := Type_ op; Keys := Keys op; NewImage := m; OldImage := OldImage op |}.
Definition setOldImage (m : GoMap AttributeValue) (op : Operation) : Operation :=
  {| Type_ := Type_ op; Keys := Keys op; NewImage := NewImage op; OldImage := m |}.
Definition setType (t : OperationType) (op : Operation) : Operation :=
  {| Type_ := t; Keys := Keys op; NewImage := NewImage op; OldImage := OldImage op |}.

(** [json.RawMessage]: the bytes of one JSON value. *)
Definition RawMessage : Type := string.

Section JSONDecoder.
(** The two library calls of [Decode]: [json.Unmarshal] into a
    [map[string]json.RawMessage], and the SDK's
    [attributevalue.UnmarshalMapJSON]. *)
Variable json_Unmarshal : string -> result (GoMap RawMessage).
Variable UnmarshalMapJSON : RawMessage -> result (GoMap AttributeValue).

(** [fmt.Errorf("%w: " ++ what ++ "%v", ErrCorrupt, err)] *)
Definition corruptf (what : string) (err : error) : error :=
  wrapError (Error ErrCorrupt +:+ ": " +:+ what +:+ Error err) ErrCorrupt.

(** One of the three [if raw, ok := raw[field]; ok { ... }] blocks. *)
Definition decodeField (raw : GoMap RawMessage) (field : string)
    (set : GoMap AttributeValue -> Operation -> Operation)
    (op : Operation) : result Operation :=
  match golookup field raw with
  | Some fieldRaw =>
      match UnmarshalMapJSON fieldRaw with
      | Err err => Err (corruptf ("failed to parse " +:+ field +:+ ": ") err)
      | Ok m => Ok (set m op)
      end
  | None => Ok op
  end.

Definition Decode (line : string) : result Operation :=
  match json_Unmarshal line with
  | Err err => Err (corruptf EmptyString err)
  | Ok raw =>
      let op := zeroOperation in
      match golookup "Item" raw with
      | Some itemRaw =>
          match UnmarshalMapJSON itemRaw with
          | Err err => Err (corruptf "failed to parse Item: " err)
          | Ok item => Ok (setType OpPut (setNewImage item op))
          end
      | None =>
          op ← decodeField raw "Keys" setKeys op;
          op ← decodeField raw "NewImage" setNewImage op;
          op ← decodeField raw "OldImage" setOldImage op;
          match NewImage op, OldImage op with
          | Some _, Some _ => Ok (setType OpUpdate op)
          | Some _, None => Ok (setType OpPut op)
          | None, Some _ => Ok (setType OpDelete op)
          | None, None =>
              Err (wrapError (Error ErrCorrupt +:+ ": no image data found") ErrCorrupt)
          end
      end
  end.
End JSONDecoder.

End itemimage.

(** ** Machine integers *)

(** The value an [int64] holds after an operation whose exact result is [z]. *)
Definition int64_wrap (z : Z) : Z := (z + 2 ^ 63) mod 2 ^ 64 - 2 ^ 63.

(** [x << uint(k)] on [int64]: a count of 64 or more (and the huge count a
    negative [k] converts to) shifts every bit out. *)
Definition int64_shl (x k : Z) : Z :=
  if (0 <=? k) && (k <? 64) then int64_wrap (Z.shiftl x k) else 0.

(** ** Package checkpoint *)
Module checkpoint.

Record State : Type := mkState {
  ExportID : string;
  LastFile : string;
  LastByteOffset : Z;
}.

#[global] Instance State_eq_dec : EqDecision State.
Proof. solve_decision. Defined.

(** [State{}] *)
Definition zeroState : State :=
  {| ExportID := EmptyString; LastFile := EmptyString; LastByteOffset := 0 |}.

(** [MemoryStore]: the record itself is the store. *)
Definition MemoryStore_Load (s : State) : result State := Ok s.
Definition MemoryStore_Save (s state : State) : State * option error := (state, None).

(** The local file system as [os.ReadFile] sees it: what reading each
    existing path yields.  A path that is not there fails with a
    [PathError] around [ErrNotExist]. *)
Definition os_ReadFile (fs : gmap string (result string)) (path : string) : result string :=
  match fs !! path with
  | Some r => r
  | None => Err (PathError "open" path ErrNotExist)
  end.

(** [os.IsNotExist]: looks under a [PathError], not under [fmt] wrappers. *)
Definition os_IsNotExist (err : error) : bool :=
  match err with
  | PathError _ _ e => bool_decide (e = ErrNotExist)
  | e => bool_decide (e = ErrNotExist)
  end.

Definition isNoSuchKey (e : error) : bool := bool_decide (e = NoSuchKey).
Definition isNotFound (e : error) : bool := bool_decide (e = NotFound).

Section Stores.
(** [json.Unmarshal] / [json.NewDecoder(..).Decode] into a [State]. *)
Variable json_Decode_State : string -> result State.
(** [aws.S3Client.GetObject]: the body of the object, or the error. *)
Variable GetObject : string -> string -> result string.

Definition FileStore_Load (fs : gmap string (result string)) (path : string) : result State :=
  match os_ReadFile fs path with
  | Err err =>
      if os_IsNotExist err then Ok zeroState
      else Err (Errorf_w "failed to read checkpoint file" err)
  | Ok data =>
      match json_Decode_State data with
      | Err err => Err (Errorf_w "failed to decode checkpoint" err)
      | Ok state => Ok state
      end
  end.

Definition S3Store_Load (bucket key : string) : result State :=
  match GetObject bucket key with
  | Err err =>
      if errors_As isNoSuchKey err then Ok zeroState
      else if errors_As isNotFound err then Ok zeroState
      else Err (Errorf_w "failed to get checkpoint" err)
  | Ok body =>
      match json_Decode_State body with
      | Err err => Err (Errorf_w "failed to decode checkpoint" err)
      | Ok state => Ok state
      end
  end.
End Stores.

(** How the system answers an [os.WriteFile]: [None] when it writes the
    file, else the error together with the file system the failed call
    leaves behind. *)
Definition WriteReply : Type := option (error * gmap string (result string)).

Definition os_WriteFile (reply : WriteReply) (fs : gmap string (result string))
    (path data : string) : gmap string (result string) * option error :=
  match reply with
  | None => (<[path := Ok data]> fs, None)
  | Some (err, after) => (after, Some (PathError "open" path err))
  end.

Section Saving.
(** [json.Marshal] of a [State]. *)
Variable json_Marshal_State : State -> result string.
(** [aws.S3Client.PutObject] on a bucket, a key and a body, over the state
    [C] of the object store. *)
Context {C : Type}.
Variable PutObject : string -> string -> string -> C -> C * option error.

Definition FileStore_Save (reply : WriteReply) (fs : gmap string (result string))
    (path : string) (state : State) : gmap string (result string) * option error :=
  match json_Marshal_State state with
  | Err err => (fs, Some (Errorf_w "failed to encode checkpoint" err))
  | Ok data =>
      match os_WriteFile reply fs path data with
      | (fs, Some err) => (fs, Some (Errorf_w "failed to write checkpoint file" err))
      | (fs, None) => (fs, None)
      end
  end.

Definition S3Store_Save (bucket key : string) (state : State) (c : C) : C * option error :=
  match json_Marshal_State state with
  | Err err => (c, Some (Errorf_w "failed to encode checkpoint" err))
  | Ok data =>
      match PutObject bucket key data c with
      | (c, Some err) => (c, Some (Errorf_w "failed to save checkpoint" err))
      | (c, None) => (c, None)
      end
  end.
End Saving.

End checkpoint.

(** ** Package manifest *)
Module manifest.

Record FileMeta : Type := mkFileMeta {
  Key : string;
  ETag : string;
  MD5Base64 : string;
  ItemCount : Z;
}.

(** The fields of [Summary] that the verified functions read. *)
Record Summary : Type := mkSummary {
  S3Bucket : string;
  ManifestFilesS3Key : string;
  ExportType : string;
  OutputView : string;
  DataFiles : list FileMeta;
}.

(** *** [encoding/base64], [StdEncoding.DecodeString] *)

Definition b64_value (c : ascii) : option Z :=
  let n := Z.of_N (N_of_ascii c) in
  if (65 <=? n) && (n <=? 90) then Some (n - 65)
  else if (97 <=? n) && (n <=? 122) then Some (n - 71)
  else if (48 <=? n) && (n <=? 57) then Some (n + 4)
  else if n =? 43 then Some 62
  else if n =? 47 then Some 63
  else None.

Definition is_newline (c : ascii) : bool :=
  let n := N_of_ascii c in (n =? 10)%N || (n =? 13)%N.

Definition is_pad (c : ascii) : bool := (N_of_ascii c =? 61)%N.

Definition byte_of (z : Z) : ascii := ascii_of_N (Z.to_N (z mod 256)).

Definition CorruptInputError : error := errorString "illegal base64 data".

(** One quantum of four characters at a time; padding may only close the
    input.  Line breaks were dropped before. *)
Fixpoint b64_quanta (cs : list ascii) : result (list ascii) :=
  match cs with
  | [] => Ok []
  | a :: b :: c :: d :: rest =>
      match b64_value a, b64_value b with
      | Some va, Some vb =>
          match b64_value c, b64_value d with
          | Some vc, Some vd =>
              let n := va * 262144 + vb * 4096 + vc * 64 + vd in
              tl ← b64_quanta rest;
              Ok (byte_of (n / 65536) :: byte_of (n / 256) :: byte_of n :: tl)
          | Some vc, None =>
              if is_pad d && bool_decide (rest = []) then
                let n := va * 262144 + vb * 4096 + vc * 64 in
                Ok [byte_of (n / 65536); byte_of (n / 256)]
              else Err CorruptInputError
          | None, _ =>
              if is_pad c && is_pad d && bool_decide (rest = []) then
                let n := va * 262144 + vb * 4096 in
                Ok [byte_of (n / 65536)]
              else Err CorruptInputError
          end
      | _, _ => Err CorruptInputError
      end
  | _ => Err CorruptInputError
  end.

Definition base64_DecodeString (s : string) : result (list ascii) :=
  b64_quanta (filter (fun c => negb (is_newline c)) (String.list_ascii_of_string s)).

(** *** [fmt.Sprintf("%x", bytes)]: two lower-case digits a byte *)

Definition hex_digit (n : Z) : ascii :=
  if n <? 10 then ascii_of_N (Z.to_N (48 + n)) else ascii_of_N (Z.to_N (87 + n)).

Fixpoint hex_encode (bs : list ascii) : string :=
  match bs with
  | [] => EmptyString
  | b :: rest =>
      let n := Z.of_N (N_of_ascii b) in
      String (hex_digit (n / 16)) (String (hex_digit (n mod 16)) (hex_encode rest))
  end.

(** *** [strings.Trim(s, cutset)] with the one-character cutset [c] *)

Fixpoint TrimLeft (c : ascii) (s : string) : string :=
  match s with
  | String a rest => if bool_decide (a = c) then TrimLeft c rest else s
  | EmptyString => EmptyString
  end.

Fixpoint TrimRight (c : ascii) (s : string) : string :=
  match s with
  | String a rest =>
      match TrimRight c rest with
      | EmptyString => if bool_decide (a = c) then EmptyString else String a EmptyString
      | r => String a r
      end
  | EmptyString => EmptyString
  end.

Definition Trim (c : ascii) (s : string) : string := TrimRight c (TrimLeft c s).

Section S3Loader.
(** [aws.S3Client.HeadObject] on a bucket and a key: the [ETag] pointer of
    the response ([None] is nil), or the error. *)
Variable HeadObject : string -> string -> result (option string).

(** The body of the loop over [summary.DataFiles], for one file. *)
Definition verifyFile (bucket : string) (file : FileMeta) : option error :=
  match HeadObject bucket (Key file) with
  | Err err =>
      Some (Errorf_w ("failed to get metadata for data file " +:+ Key file) err)
  | Ok None => Some (errorString ("ETag is nil for data file " +:+ Key file))
  | Ok (Some respETag) =>
      let etag := Trim "034"%char respETag in
      match base64_DecodeString (MD5Base64 file) with
      | Err err =>
          Some (Errorf_w ("failed to decode MD5 Base64 for data file " +:+ Key file) err)
      | Ok md5Bytes =>
          let expectedMD5Hex := hex_encode md5Bytes in
          if bool_decide (etag ≠ expectedMD5Hex) then
            let quotedExpectedMD5 := dquote +:+ expectedMD5Hex +:+ dquote in
            if bool_decide (respETag ≠ quotedExpectedMD5) then
              Some (errorString ("checksum mismatch for data file " +:+ Key file +:+
                                 ": expected " +:+ expectedMD5Hex +:+ ", got " +:+ etag))
            else None
          else None
      end
  end.

(** The loop: the keys whose metadata was fetched, in order, and the
    error of the first file that fails. *)
Fixpoint verifyFiles (bucket : string) (files : list FileMeta) : list string * option error :=
  match files with
  | [] => ([], None)
  | file :: rest =>
      match verifyFile bucket file with
      | Some err => ([Key file], Some err)
      | None =>
          let '(fetched, r) := verifyFiles bucket rest in
          (Key file :: fetched, r)
      end
  end.

Definition VerifyChecksums (summary : Summary) : list string * option error :=
  if bool_decide (S3Bucket summary = EmptyString) then
    ([], Some (errorString "no S3 bucket specified in summary"))
  else verifyFiles (S3Bucket summary) (DataFiles summary).
End S3Loader.

(** *** [s3URIPattern], the expression [^s3://([^/]+)/(.+)$]

    Both ends are anchored, so a match is the whole URI.  The class
    [[^/]] takes any character but the slash, the line feed too; the dot
    takes any character but the line feed; [$] is the end of the text. *)

(** The literal at the head of the pattern: what follows it in [s]. *)
Fixpoint literal (lit s : string) : option string :=
  match lit, s with
  | EmptyString, _ => Some s
  | String a lit, String b s => if bool_decide (a = b) then literal lit s else None
  | String _ _, EmptyString => None
  end.

(** A run of [[^/]] and the slash after it: what stands before the first
    slash of [s], and what follows it. *)
Fixpoint cutSlash (s : string) : option (string * string) :=
  match s with
  | EmptyString => None
  | String a rest =>
      if bool_decide (a = "/"%char) then Some (EmptyString, rest)
      else
        match cutSlash rest with
        | Some (before, after) => Some (String a before, after)
        | None => None
        end
  end.

(** A run of dots up to [$]: no line feed to the end of [s]. *)
Fixpoint dots (s : string) : bool :=
  match s with
  | EmptyString => true
  | String a rest => negb (bool_decide (a = "010"%char)) && dots rest
  end.

(** [s3URIPattern.FindStringSubmatch]: nil when the URI does not match,
    else the match and the two groups. *)
Definition FindStringSubmatch (uri : string) : list string :=
  match literal "s3://" uri with
  | Some rest =>
      match cutSlash rest with
      | Some (bucket, key) =>
          if negb (bool_decide (bucket = EmptyString))
             && negb (bool_decide (key = EmptyString)) && dots key
          then [uri; bucket; key]
          else []
      | None => []
      end
  | None => []
  end.

Definition invalidURI (uri : string) : error :=
  errorString ("invalid S3 URI format: " +:+ uri +:+ " (must be s3://bucket/key)").

Definition extractBucketFromS3URI (uri : string) : result string :=
  match FindStringSubmatch uri with
  | [_; bucket; _] => Ok bucket
  | _ => Err (invalidURI uri)
  end.

Definition extractKeyFromS3URI (uri : string) : result string :=
  match FindStringSubmatch uri with
  | [_; _; key] => Ok key
  | _ => Err (invalidURI uri)
  end.

Definition setDataFiles (files : list FileMeta) (summary : Summary) : Summary :=
  {| S3Bucket := S3Bucket summary; ManifestFilesS3Key := ManifestFilesS3Key summary;
     ExportType := ExportType summary; OutputView := OutputView summary;
     DataFiles := files |}.

Section S3LoaderLoad.
(** [aws.S3Client.GetObject] on a bucket and a key: the bytes of the
    response's [Body] ([None] is a nil body), or the error. *)
Variable GetObject : string -> string -> result (option string).
(** [json.NewDecoder(body).Decode(&summary)]. *)
Variable json_Decode_Summary : string -> result Summary.
(** What the calls [decoder.Decode(&file)] on a body return one after the
    other, before the one that returns [io.EOF]. *)
Variable json_Decoder_FileMeta : string -> list (result FileMeta).

(** The loop over the entries of manifest-files.json. *)
Fixpoint decodeFiles (entries : list (result FileMeta)) (files : list FileMeta)
    : result (list FileMeta) :=
  match entries with
  | [] => Ok files
  | Ok file :: rest => decodeFiles rest (files ++ [file])
  | Err err :: _ => Err (Errorf_w "failed to decode manifest file entry" err)
  end.

(** [Load]: the objects it fetched, each as bucket and key, and its
    result. *)
Definition Load (manifestS3URI : string) : list (string * string) * result Summary :=
  match extractBucketFromS3URI manifestS3URI with
  | Err err => ([], Err err)
  | Ok bucket =>
      match extractKeyFromS3URI manifestS3URI with
      | Err err => ([], Err err)
      | Ok s3Key =>
          match GetObject bucket s3Key with
          | Err err => ([(bucket, s3Key)], Err (Errorf_w "failed to get manifest summary" err))
          | Ok None =>
              ([(bucket, s3Key)], Err (errorString "manifest summary response body is nil"))
          | Ok (Some body) =>
              match json_Decode_Summary body with
              | Err err =>
                  ([(bucket, s3Key)], Err (Errorf_w "failed to decode manifest summary" err))
              | Ok summary =>
                  let fetched := [(bucket, s3Key); (bucket, ManifestFilesS3Key summary)] in
                  match GetObject bucket (ManifestFilesS3Key summary) with
                  | Err err => (fetched, Err (Errorf_w "failed to get manifest files" err))
                  | Ok None =>
                      (fetched, Err (errorString "manifest files response body is nil"))
                  | Ok (Some filesBody) =>
                      match decodeFiles (json_Decoder_FileMeta filesBody) [] with
                      | Err err => (fetched, Err err)
                      | Ok files => (fetched, Ok (setDataFiles files summary))
                      end
                  end
              end
          end
      end
  end.
End S3LoaderLoad.

(** The comparison as the specification words it: the hex of the checksum
    against the ETag without its quotes, whatever the case of the letters
    ([strings.EqualFold] on ASCII). *)
Definition to_lower (c : ascii) : ascii :=
  let n := N_of_ascii c in
  if (65 <=? n)%N && (n <=? 90)%N then ascii_of_N (n + 32) else c.

Fixpoint EqualFold (s t : string) : bool :=
  match s, t with
  | EmptyString, EmptyString => true
  | String a s', String b t' => bool_decide (to_lower a = to_lower b) && EqualFold s' t'
  | _, _ => false
  end.

Definition spec_checksum_matches (respETag md5Base64 : string) : bool :=
  match base64_DecodeString md5Base64 with
  | Ok md5Bytes => EqualFold (Trim "034"%char respETag) (hex_encode md5Bytes)
  | Err _ => false
  end.

End manifest.

(** ** Package writer *)
Module writer.
Import itemimage.

(** [types.WriteRequest]: exactly one of the two pointers is set. *)
Inductive WriteRequest : Type :=
  | PutRequest (Item : GoMap AttributeValue)
  | DeleteRequest (Key : GoMap AttributeValue).

Record BatchWriteItemInput : Type := mkBatchWriteItemInput {
  RequestItems : GoMap (list WriteRequest);
}.

Record BatchWriteItemOutput : Type := mkBatchWriteItemOutput {
  UnprocessedItems : GoMap (list WriteRequest);
}.

Record UpdateItemInput : Type := mkUpdateItemInput {
  TableName : string;
  Key : GoMap AttributeValue;
  UpdateExpression : string;
  ExpressionAttributeNames : GoMap string;
  ExpressionAttributeValues : GoMap AttributeValue;
}.

(** The number of write requests a batched call carries, over all tables. *)
Definition requestCount (items : GoMap (list WriteRequest)) : nat :=
  match items with
  | Some g => map_fold (fun _ reqs n => (length reqs + n)%nat) 0%nat g
  | None => 0%nat
  end.

(** What the writer does to the outside, in the order it does it.
    [EvSubBatch] marks the slice [ops[i:end]] the outer loop has cut. *)
Inductive Event : Type :=
  | EvSubBatch (batch : list Operation)
  | EvBatchWriteItem (input : BatchWriteItemInput)
  | EvUpdateItem (input : UpdateItemInput)
  | EvBackoff (attempt delay : Z).

(** One answer of the environment to a [backoffWait]: the number the
    random source hands to [rand.Int64N], and which case of the [select]
    wins: [None] when the timer fires, [Some e] when the context is done
    first, [e] being [ctx.Err()]. *)
Record WaitReply : Type := mkWaitReply {
  rnd : Z;
  ctxErr : option error;
}.

(** How a call ends: it returns, it panics, it waits for an answer the
    environment never gives, or it loops without end. *)
Inductive outcome : Type :=
  | Returns (err : option error)
  | Panics (msg : string)
  | Blocks
  | Diverges.

(** The part of the environment every call shares: the answers to the
    waits still to come, and the trace so far. *)
Record World : Type := mkWorld {
  waits : list WaitReply;
  trace : list Event;
}.

Definition emit (ev : Event) (w : World) : World :=
  {| waits := waits w; trace := trace w ++ [ev] |}.

Definition isThrottlingError (err : error) : bool :=
  errors_As (fun e => bool_decide (e = ProvisionedThroughputExceededException)) err
  || errors_As (fun e => bool_decide (e = RequestLimitExceeded)) err.

Definition Millisecond : Z := 1000000.
Definition Second : Z := 1000000000.

(** [delay] of [backoffWait] before the jitter is added. *)
Definition backoffDelay (attempt : Z) : Z :=
  let base := 100 * Millisecond in
  let maxDelay := 30 * Second in
  let delay := int64_wrap (base * int64_shl 1 attempt) in
  if maxDelay <? delay then maxDelay else delay.

(** [rand.Int64N n], which panics unless [n] is positive. *)
Definition rand_Int64N (n r : Z) : option Z :=
  if n <=? 0 then None else Some (r mod n).

(** The result of [backoffWait]: [Some true] and [Some false] are its two
    returns, [None] with an outcome is a wait that does not return. *)
Definition backoffWait (attempt : Z) (w : World) : World * (outcome + option error) :=
  let delay := backoffDelay attempt in
  match waits w with
  | [] =>
      if delay <=? 0 then (w, inl (Panics "invalid argument to Int64N")) else (w, inl Blocks)
  | reply :: rest =>
      match rand_Int64N delay (rnd reply) with
      | None => (w, inl (Panics "invalid argument to Int64N"))
      | Some jitter =>
          let delay := int64_wrap (delay + jitter) in
          (emit (EvBackoff attempt delay) {| waits := rest; trace := trace w |},
           inr (ctxErr reply))
      end
  end.

Definition maxRetries : Z := 5.

Section DynamoDBWriter.
(** The order in which a [for k, v := range m] visits a map: any order. *)
Variable rangeOrder : forall V, gmap string V -> list (string * V).

Variable tableName : string.
Variable batchSize : Z.

Definition gorange {V} (m : GoMap V) : list (string * V) :=
  match m with
  | Some g => rangeOrder V g
  | None => []
  end.

(** *** updateItem *)

Record UpdateParts : Type := mkUpdateParts {
  setExpr : list string;
  removeExpr : list string;
  values : gmap string AttributeValue;
  names : gmap string string;
  modifiedAttrs : gmap string bool;
}.

Definition setClause (k : string) : string := "#" +:+ k +:+ " = :" +:+ k.
Definition removeClause (k : string) : string := "#" +:+ k.

(** The body of [for k, v := range op.NewImage]. *)
Definition newImageStep (keys : GoMap AttributeValue) (p : UpdateParts)
    (kv : string * AttributeValue) : UpdateParts :=
  let '(k, v) := kv in
  if gohas k keys then p
  else {| setExpr := setExpr p ++ [setClause k];
          removeExpr := removeExpr p;
          values := <[":" +:+ k := v]> (values p);
          names := <["#" +:+ k := k]> (names p);
          modifiedAttrs := <[k := true]> (modifiedAttrs p) |}.

(** The body of [for k := range op.OldImage]. *)
Definition oldImageStep (keys : GoMap AttributeValue) (p : UpdateParts)
    (kv : string * AttributeValue) : UpdateParts :=
  let '(k, _) := kv in
  if gohas k keys then p
  else if negb (default false (modifiedAttrs p !! k)) then
    {| setExpr := setExpr p;
       removeExpr := removeExpr p ++ [removeClause k];
       values := values p;
       names := <["#" +:+ k := k]> (names p);
       modifiedAttrs := modifiedAttrs p |}
  else p.

Definition updateParts (op : Operation) : UpdateParts :=
  let p0 := {| setExpr := []; removeExpr := []; values := ∅; names := ∅; modifiedAttrs := ∅ |} in
  let p1 := foldl (newImageStep (Keys op)) p0 (gorange (NewImage op)) in
  foldl (oldImageStep (Keys op)) p1 (gorange (OldImage op)).

(** [strings.Join(elems, sep)] *)
Fixpoint Join (elems : list string) (sep : string) : string :=
  match elems with
  | [] => EmptyString
  | [e] => e
  | e :: rest => e +:+ sep +:+ Join rest sep
  end.

Definition updateExpression (p : UpdateParts) : string :=
  let updateExpr :=
    if bool_decide (setExpr p ≠ []) then "SET " +:+ Join (setExpr p) ", " else EmptyString in
  if bool_decide (removeExpr p ≠ []) then
    (if bool_decide (updateExpr ≠ EmptyString) then updateExpr +:+ " " else updateExpr)
      +:+ "REMOVE " +:+ Join (removeExpr p) ", "
  else updateExpr.

Definition updateInput (op : Operation) (p : UpdateParts) : UpdateItemInput :=
  {| TableName := tableName;
     Key := Keys op;
     UpdateExpression := updateExpression p;
     ExpressionAttributeNames := Some (names p);
     ExpressionAttributeValues :=
       if bool_decide (size (values p) ≠ 0%nat) then Some (values p) else None |}.

(** The retry loop of [updateItem]; [replies] are the answers of the
    [UpdateItem] calls still to come ([None] is success). *)
Fixpoint updateRetry (replies : list (option error)) (input : UpdateItemInput)
    (attempt : Z) (w : World) : list (option error) * World * outcome :=
  match replies with
  | [] => ([], w, Blocks)
  | reply :: replies =>
      let w := emit (EvUpdateItem input) w in
      match reply with
      | Some err =>
          if isThrottlingError err then
            match backoffWait attempt w with
            | (w, inl stop) => (replies, w, stop)
            | (w, inr (Some ctxerr)) => (replies, w, Returns (Some ctxerr))
            | (w, inr None) => updateRetry replies input (int64_wrap (attempt + 1)) w
            end
          else if attempt <? maxRetries then
            match backoffWait attempt w with
            | (w, inl stop) => (replies, w, stop)
            | (w, inr (Some ctxerr)) => (replies, w, Returns (Some ctxerr))
            | (w, inr None) => updateRetry replies input (int64_wrap (attempt + 1)) w
            end
          else
            (replies, w,
             Returns (Some (Errorf_w "failed to update item after 5 retries" err)))
      | None => (replies, w, Returns None)
      end
  end.

Definition updateItem (op : Operation) (replies : list (option error)) (w : World)
    : list (option error) * World * outcome :=
  let p := updateParts op in
  if bool_decide (setExpr p = []) && bool_decide (removeExpr p = []) then
    (replies, w, Returns None)
  else updateRetry replies (updateInput op p) 0 w.

(** *** WriteBatch *)

(** An answer of [BatchWriteItem]: it may depend on the request. *)
Definition BatchReply : Type := BatchWriteItemInput -> result BatchWriteItemOutput.

(** The loop over the operations of one sub-batch. *)
Fixpoint convert (batch : list Operation) (requests : list WriteRequest)
    (ui : list (option error)) (w : World)
    : list WriteRequest * list (option error) * World * outcome :=
  match batch with
  | [] => (requests, ui, w, Returns None)
  | op :: rest =>
      match Type_ op with
      | OpPut => convert rest (requests ++ [PutRequest (NewImage op)]) ui w
      | OpDelete => convert rest (requests ++ [DeleteRequest (Keys op)]) ui w
      | OpUpdate =>
          match updateItem op ui w with
          | (ui, w, Returns None) => convert rest requests ui w
          | (ui, w, Returns (Some err)) =>
              (requests, ui, w, Returns (Some (Errorf_w "failed to update item" err)))
          | (ui, w, stop) => (requests, ui, w, stop)
          end
      end
  end.

(** The retry loop around [BatchWriteItem]. *)
Fixpoint writeRetry (replies : list BatchReply) (input : BatchWriteItemInput)
    (attempt : Z) (w : World) : list BatchReply * World * outcome :=
  match replies with
  | [] => ([], w, Blocks)
  | reply :: replies =>
      let w := emit (EvBatchWriteItem input) w in
      match reply input with
      | Err err =>
          if isThrottlingError err then
            match backoffWait attempt w with
            | (w, inl stop) => (replies, w, stop)
            | (w, inr (Some ctxerr)) => (replies, w, Returns (Some ctxerr))
            | (w, inr None) => writeRetry replies input (int64_wrap (attempt + 1)) w
            end
          else if attempt <? maxRetries then
            match backoffWait attempt w with
            | (w, inl stop) => (replies, w, stop)
            | (w, inr (Some ctxerr)) => (replies, w, Returns (Some ctxerr))
            | (w, inr None) => writeRetry replies input (int64_wrap (attempt + 1)) w
            end
          else
            (replies, w,
             Returns (Some (Errorf_w "failed to write batch after 5 retries" err)))
      | Ok output =>
          if bool_decide (golen (UnprocessedItems output) ≠ 0%nat) then
            let input := {| RequestItems := UnprocessedItems output |} in
            match backoffWait attempt w with
            | (w, inl stop) => (replies, w, stop)
            | (w, inr (Some ctxerr)) => (replies, w, Returns (Some ctxerr))
            | (w, inr None) => writeRetry replies input (int64_wrap (attempt + 1)) w
            end
          else (replies, w, Returns None)
      end
  end.

(** [ops[i:end]], which panics unless [0 <= i <= end <= len(ops)]. *)
Definition slice {A} (ops : list A) (i e : Z) : option (list A) :=
  if (0 <=? i) && (i <=? e) && (e <=? Z.of_nat (length ops)) then
    Some (take (Z.to_nat (e - i)) (drop (Z.to_nat i) ops))
  else None.

(** The environment of a [WriteBatch]: the answers of the calls to come. *)
Record Env : Type := mkEnv {
  batchReplies : list BatchReply;
  updateReplies : list (option error);
  world : World;
}.

(** The loop [for i := 0; i < len(ops); i += w.batchSize].  It runs for
    ever when [batchSize] is 0; [fuel] bounds the iterations. *)
Fixpoint batchLoop (fuel : nat) (ops : list Operation) (i : Z) (env : Env) : Env * outcome :=
  match fuel with
  | O => (env, Diverges)
  | S fuel =>
      if i <? Z.of_nat (length ops) then
        let e := i + batchSize in
        let e := if Z.of_nat (length ops) <? e then Z.of_nat (length ops) else e in
        match slice ops i e with
        | None => (env, Panics "slice bounds out of range")
        | Some batch =>
            let w := emit (EvSubBatch batch) (world env) in
            match convert batch [] (updateReplies env) w with
            | (requests, ui, w, Returns None) =>
                if bool_decide (requests = []) then
                  batchLoop fuel ops (i + batchSize)
                    {| batchReplies := batchReplies env; updateReplies := ui; world := w |}
                else
                  let input := {| RequestItems := Some {[ tableName := requests ]} |} in
                  match writeRetry (batchReplies env) input 0 w with
                  | (bw, w, Returns None) =>
                      batchLoop fuel ops (i + batchSize)
                        {| batchReplies := bw; updateReplies := ui; world := w |}
                  | (bw, w, stop) =>
                      ({| batchReplies := bw; updateReplies := ui; world := w |}, stop)
                  end
            | (_, ui, w, stop) =>
                ({| batchReplies := batchReplies env; updateReplies := ui; world := w |}, stop)
            end
        end
      else (env, Returns None)
  end.

(** With a positive [batchSize] the loop ends within [len(ops)] rounds;
    with 0 it never ends, and one more round than that is as good as any
    number to tell. *)
Definition WriteBatch (ops : list Operation) (env : Env) : Env * outcome :=
  if bool_decide (ops = []) then (env, Returns None)
  else batchLoop (S (length ops)) ops 0 env.

Definition Flush (env : Env) : Env * outcome := (env, Returns None).
End DynamoDBWriter.

End writer.

(** ** Package config *)
Module config.

Record Config : Type := mkConfig {
  TableName : string;
  ExportS3URI : string;
  ExportType : string;
  ViewType : string;
  Region : string;
  ResumeKey : string;
  MaxWorkers : Z;
  ReadAheadParts : Z;
  BatchSize : Z;
  ReportS3URI : string;
  DryRun : bool;
  ManageCapacity : bool;
  ShutdownTimeout : Z;
  exportBucketName : string;
}.

Definition setExportBucketName (b : string) (c : Config) : Config :=
  {| TableName := TableName c; ExportS3URI := ExportS3URI c; ExportType := ExportType c;
     ViewType := ViewType c; Region := Region c; ResumeKey := ResumeKey c;
     MaxWorkers := MaxWorkers c; ReadAheadParts := ReadAheadParts c;
     BatchSize := BatchSize c; ReportS3URI := ReportS3URI c; DryRun := DryRun c;
     ManageCapacity := ManageCapacity c; ShutdownTimeout := ShutdownTimeout c;
     exportBucketName := b |}.

Section Validate.
(** [url.Parse]: the scheme and the host of the URI, or the error. *)
Variable url_Parse : string -> result (string * string).

(** The configuration as [Validate] leaves it, and the error it returns. *)
Definition Validate (c : Config) : Config * option error :=
  if bool_decide (TableName c = EmptyString) then
    (c, Some (errorString "table name is required"))
  else if bool_decide (ExportS3URI c = EmptyString) then
    (c, Some (errorString "export S3 URI is required"))
  else if negb (String.prefix "s3://" (ExportS3URI c)) then
    (c, Some (errorString "export S3 URI must start with s3://"))
  else
    match url_Parse (ExportS3URI c) with
    | Err err => (c, Some (Errorf_w "invalid export S3 URI" err))
    | Ok (scheme, host) =>
        if bool_decide (scheme ≠ "s3") then
          (c, Some (errorString "export S3 URI must use s3 scheme"))
        else
          let c := setExportBucketName host c in
          if bool_decide (ExportType c ≠ "FULL") && bool_decide (ExportType c ≠ "INCREMENTAL") then
            (c, Some (errorString "export type must be FULL or INCREMENTAL"))
          else if bool_decide (ViewType c ≠ "NEW") && bool_decide (ViewType c ≠ "NEW_AND_OLD") then
            (c, Some (errorString "view type must be NEW or NEW_AND_OLD"))
          else if bool_decide (Region c = EmptyString) then
            (c, Some (errorString "region is required"))
          else if MaxWorkers c <? 1 then
            (c, Some (errorString "max workers must be at least 1"))
          else if ReadAheadParts c <? 1 then
            (c, Some (errorString "read ahead parts must be at least 1"))
          else if (BatchSize c <? 1) || (25 <? BatchSize c) then
            (c, Some (errorString "batch size must be between 1 and 25"))
          else if bool_decide (ReportS3URI c ≠ EmptyString)
                  && negb (String.prefix "s3://" (ReportS3URI c)) then
            (c, Some (errorString "report S3 URI must start with s3://"))
          else if ShutdownTimeout c <? 1000000000 then
            (c, Some (errorString "shutdown timeout must be at least 1 second"))
          else (c, None)
    end.
End Validate.

End config.

(** ** Package metrics (the counters) *)
Module metrics.

Record Metrics : Type := mkMetrics {
  recordsProcessed : Z;
  batchesWritten : Z;
  errors : Z;
  corruptCount : Z;
}.

Definition NewMetrics : Metrics :=
  {| recordsProcessed := 0; batchesWritten := 0; errors := 0; corruptCount := 0 |}.

Definition RecordProcessed (m : Metrics) : Metrics :=
  {| recordsProcessed := int64_wrap (recordsProcessed m + 1);
     batchesWritten := batchesWritten m; errors := errors m; corruptCount := corruptCount m |}.

Definition RecordBatchWritten (m : Metrics) : Metrics :=
  {| recordsProcessed := recordsProcessed m;
     batchesWritten := int64_wrap (batchesWritten m + 1);
     errors := errors m; corruptCount := corruptCount m |}.

Definition RecordError (m : Metrics) : Metrics :=
  {| recordsProcessed := recordsProcessed m; batchesWritten := batchesWritten m;
     errors := int64_wrap (errors m + 1); corruptCount := corruptCount m |}.

Definition RecordCorrupt (m : Metrics) : Metrics :=
  {| recordsProcessed := recordsProcessed m; batchesWritten := batchesWritten m;
     errors := errors m; corruptCount := int64_wrap (corruptCount m + 1) |}.

End metrics.

(** ** Package coordinator *)
Module coordinator.
Import itemimage checkpoint manifest metrics.

(** [WorkerStatus] without its three time stamps. *)
Record WorkerStatus : Type := mkWorkerStatus {
  LastError : option error;
  CurrentFile : string;
  ItemsWritten : Z;
  BatchesCount : Z;
  ID : Z;
}.

(** The calls a worker makes on its collaborators, in order. *)
Inductive Event : Type :=
  | EvStream (bucket key : string) (offset : Z)
  | EvWriteBatch (ops : list Operation)
  | EvSave (state : State)
  | EvWait (d : Z).

(** The four interfaces the coordinator is built from, and its context,
    over the state [W] of what lies behind them.  [streamer_Stream] gives
    the lines, each with its byte offset, that one call of [Stream] has for
    the callback, and the error the streamer itself ends with when the
    callback took them all.  [ctx_wait d] is the [select] between
    [time.After(d)] and [ctx.Done()]: [None] when the timer fires, else
    [ctx.Err()]. *)
Class Collaborators (W : Type) : Type := {
  parser_Decode : string -> result Operation;
  writer_WriteBatch : list Operation -> W -> W * option error;
  store_Load : W -> W * result State;
  store_Save : State -> W -> W * option error;
  streamer_Stream : string -> string -> Z -> W -> list (string * Z) * option error;
  ctx_wait : Z -> W -> W * option error;
}.

(** What the workers share: the coordinator's fields that change, the
    state behind the interfaces, and the trace. *)
Record Shared (W : Type) : Type := mkShared {
  metrics : Metrics;
  workerStatus : gmap Z WorkerStatus;
  ext : W;
  trace : list Event;
}.
Arguments mkShared {W}.
Arguments metrics {W}.
Arguments workerStatus {W}.
Arguments ext {W}.
Arguments trace {W}.

(** The variables of one [worker] call that outlive a line. *)
Record Locals : Type := mkLocals {
  batch : list Operation;
  currentOffset : Z;
  batchesSinceCheckpoint : Z;
}.

(** How the body of [for file := range tasks] ends. *)
Inductive Flow : Type :=
  | Next
  | Return (err : error).

Definition checkpointInterval : Z := 100.
Definition completedFileOffset : Z := -1.
Definition maxRetries : nat := 3.

Section Worker.
Context {W : Type} `{!Collaborators W}.
Variable cfg : config.Config.

Definition withMetrics (f : Metrics -> Metrics) (c : Shared W) : Shared W :=
  {| metrics := f (metrics c); workerStatus := workerStatus c; ext := ext c; trace := trace c |}.

Definition withExt (w : W) (c : Shared W) : Shared W :=
  {| metrics := metrics c; workerStatus := workerStatus c; ext := w; trace := trace c |}.

Definition emit (ev : Event) (c : Shared W) : Shared W :=
  {| metrics := metrics c; workerStatus := workerStatus c; ext := ext c;
     trace := trace c ++ [ev] |}.

Definition initWorker (id : Z) (c : Shared W) : Shared W :=
  {| metrics := metrics c;
     workerStatus :=
       <[id := {| LastError := None; CurrentFile := EmptyString; ItemsWritten := 0;
                  BatchesCount := 0; ID := id |}]> (workerStatus c);
     ext := ext c; trace := trace c |}.

Definition updateWorkerStatus (id : Z) (fn : WorkerStatus -> WorkerStatus)
    (c : Shared W) : Shared W :=
  match workerStatus c !! id with
  | Some status =>
      {| metrics := metrics c; workerStatus := <[id := fn status]> (workerStatus c);
         ext := ext c; trace := trace c |}
  | None => c
  end.

Definition recordError (id : Z) (err : error) (c : Shared W) : Shared W :=
  updateWorkerStatus id
    (fun s => {| LastError := Some err; CurrentFile := CurrentFile s;
                 ItemsWritten := ItemsWritten s; BatchesCount := BatchesCount s; ID := ID s |})
    (withMetrics RecordError c).

(** [writeBatch], without the duration it adds to the metrics. *)
Definition writeBatch (id : Z) (batch : list Operation) (file : FileMeta) (offset : Z)
    (shouldCheckpoint : bool) (c : Shared W) : Shared W * option error :=
  let c := emit (EvWriteBatch batch) c in
  let '(w, r) := writer_WriteBatch batch (ext c) in
  let c := withExt w c in
  match r with
  | Some err => (recordError id err c, Some err)
  | None =>
      let c := withMetrics RecordBatchWritten c in
      let c := updateWorkerStatus id
        (fun s => {| LastError := LastError s; CurrentFile := CurrentFile s;
                     ItemsWritten := int64_wrap (ItemsWritten s + Z.of_nat (length batch));
                     BatchesCount := int64_wrap (BatchesCount s + 1); ID := ID s |}) c in
      if shouldCheckpoint then
        let state := {| ExportID := Key file; LastFile := Key file; LastByteOffset := offset |} in
        let c := emit (EvSave state) c in
        let '(w, r) := store_Save state (ext c) in
        let c := withExt w c in
        match r with
        | Some err => (recordError id err c, Some err)
        | None => (c, None)
        end
      else (c, None)
  end.

(** The function literal handed to [Stream]. *)
Definition callback (id : Z) (file : FileMeta) (line : string) (byteOffset : Z)
    (s : Shared W * Locals) : Shared W * Locals * option error :=
  let '(c, l) := s in
  let l := {| batch := batch l; currentOffset := byteOffset;
              batchesSinceCheckpoint := batchesSinceCheckpoint l |} in
  match parser_Decode line with
  | Err err =>
      if bool_decide (err = ErrCorrupt) then (withMetrics RecordCorrupt c, l, None)
      else (withMetrics RecordError c, l, Some err)
  | Ok op =>
      let l := {| batch := batch l ++ [op]; currentOffset := currentOffset l;
                  batchesSinceCheckpoint := batchesSinceCheckpoint l |} in
      let c := withMetrics RecordProcessed c in
      if config.BatchSize cfg <=? Z.of_nat (length (batch l)) then
        let n := int64_wrap (batchesSinceCheckpoint l + 1) in
        let shouldCheckpoint := checkpointInterval <=? n in
        let l := {| batch := batch l; currentOffset := currentOffset l;
                    batchesSinceCheckpoint := n |} in
        match writeBatch id (batch l) file (currentOffset l) shouldCheckpoint c with
        | (c, Some err) => (c, l, Some err)
        | (c, None) =>
            (c,
             {| batch := []; currentOffset := currentOffset l;
                batchesSinceCheckpoint := if shouldCheckpoint then 0 else n |},
             None)
        end
      else (c, l, None)
  end.

(** The streamer hands the lines to the callback one by one and gives up
    with the callback's error at the first line it fails on. *)
Fixpoint deliver (id : Z) (file : FileMeta) (lines : list (string * Z))
    (s : Shared W * Locals) : Shared W * Locals * option error :=
  match lines with
  | [] => (s, None)
  | (line, byteOffset) :: rest =>
      match callback id file line byteOffset s with
      | (c, l, Some err) => (c, l, Some err)
      | (c, l, None) => deliver id file rest (c, l)
      end
  end.

Definition Stream (id : Z) (file : FileMeta) (bucket : string) (offset : Z)
    (s : Shared W * Locals) : Shared W * Locals * option error :=
  let '(c, l) := s in
  let c := emit (EvStream bucket (Key file) offset) c in
  let '(lines, tailErr) := streamer_Stream bucket (Key file) offset (ext c) in
  match deliver id file lines (c, l) with
  | (c, l, Some err) => (c, l, Some err)
  | (c, l, None) => (c, l, tailErr)
  end.

(** [for retry := 0; retry < maxRetries; retry++], with [remaining] rounds
    to go.  [inl err]: the worker returns [err] from inside the loop;
    [inr streamErr]: the loop is left with that [streamErr]. *)
Fixpoint streamLoop (remaining : nat) (retry : Z) (id : Z) (file : FileMeta)
    (bucket : string) (offset : Z) (streamErr : option error)
    (s : Shared W * Locals) : Shared W * Locals * (error + option error) :=
  match remaining with
  | O => (s, inr streamErr)
  | S remaining =>
      let '(c, l) := s in
      let d := int64_wrap (int64_shl 1 retry * 1000000000) in
      let '(c, waited) :=
        if 0 <? retry then
          let c := emit (EvWait d) c in
          let '(w, r) := ctx_wait d (ext c) in (withExt w c, r)
        else (c, None) in
      match waited with
      | Some ctxerr => (c, l, inl ctxerr)
      | None =>
          match Stream id file bucket offset (c, l) with
          | (c, l, None) => (c, l, inr None)
          | (c, l, Some err) =>
              streamLoop remaining (retry + 1) id file bucket offset (Some err)
                (recordError id err c, l)
          end
      end
  end.

(** The body of [for file := range tasks]. *)
Definition processFile (id : Z) (file : FileMeta) (s : Shared W * Locals)
    : Shared W * Locals * Flow :=
  let '(c, l) := s in
  let bucket := config.exportBucketName cfg in
  let c := updateWorkerStatus id
    (fun s => {| LastError := LastError s; CurrentFile := Key file;
                 ItemsWritten := ItemsWritten s; BatchesCount := BatchesCount s; ID := ID s |}) c in
  let '(w, loaded) := store_Load (ext c) in
  let c := withExt w c in
  match loaded with
  | Err err =>
      (recordError id err c, l,
       Return (Errorf_w ("failed to load checkpoint for file " +:+ Key file) err))
  | Ok state =>
      if bool_decide (Key file = LastFile state)
         && bool_decide (LastByteOffset state = completedFileOffset) then (c, l, Next)
      else
        let offset := if bool_decide (Key file = LastFile state) then LastByteOffset state else 0 in
        let l := {| batch := batch l; currentOffset := 0; batchesSinceCheckpoint := 0 |} in
        match streamLoop maxRetries 0 id file bucket offset None (c, l) with
        | (c, l, inl err) => (c, l, Return err)
        | (c, l, inr (Some streamErr)) =>
            (c, l,
             Return (Errorf_w ("failed to process file " +:+ Key file +:+ " after 3 retries")
                       streamErr))
        | (c, l, inr None) =>
            let '(c, l, r) :=
              if bool_decide (batch l ≠ []) then
                match writeBatch id (batch l) file (currentOffset l) true c with
                | (c, Some err) => (c, l, Some err)
                | (c, None) =>
                    (c, {| batch := []; currentOffset := currentOffset l;
                           batchesSinceCheckpoint := batchesSinceCheckpoint l |}, None)
                end
              else (c, l, None) in
            match r with
            | Some err => (c, l, Return err)
            | None =>
                let state := {| ExportID := Key file; LastFile := Key file;
                                LastByteOffset := completedFileOffset |} in
                let c := emit (EvSave state) c in
                let '(w, r) := store_Save state (ext c) in
                let c := withExt w c in
                match r with
                | Some err =>
                    (recordError id err c, l,
                     Return (Errorf_w ("failed to save completion checkpoint for file "
                                        +:+ Key file) err))
                | None => (c, l, Next)
                end
            end
        end
  end.

(** The loop over the files the worker draws from [tasks]. *)
Fixpoint workerLoop (id : Z) (tasks : list FileMeta) (s : Shared W * Locals)
    : Shared W * option error :=
  match tasks with
  | [] => (s.1, None)
  | file :: rest =>
      match processFile id file s with
      | (c, l, Return err) => (c, Some err)
      | (c, l, Next) => workerLoop id rest (c, l)
      end
  end.

Definition worker (id : Z) (tasks : list FileMeta) (c : Shared W) : Shared W * option error :=
  workerLoop id tasks (c, {| batch := []; currentOffset := 0; batchesSinceCheckpoint := 0 |}).

(** The states handed to [Save], and the arguments of the [Stream] calls. *)
Definition saves (t : list Event) : list State :=
  omap (fun ev => match ev with EvSave s => Some s | _ => None end) t.

Definition streams (t : list Event) : list (string * string * Z) :=
  omap (fun ev => match ev with EvStream b k o => Some (b, k, o) | _ => None end) t.

Definition writes (t : list Event) : list (list Operation) :=
  omap (fun ev => match ev with EvWriteBatch ops => Some ops | _ => None end) t.
End Worker.


End coordinator.

(** ** Sample inputs

    Concrete lines, libraries, environments and collaborators on which
    the theorems below are exercised. *)
Module samples.
Import itemimage.

Definition q (s : string) : string := dquote +:+ s +:+ dquote.

(** [{"pk":{"S":"1"}}] and friends *)
Definition raw_pk1 : string := "{" +:+ q "pk" +:+ ":{" +:+ q "S" +:+ ":" +:+ q "1" +:+ "}}".
Definition raw_new : string :=
  "{" +:+ q "pk" +:+ ":{" +:+ q "S" +:+ ":" +:+ q "1" +:+ "}," +:+
         q "name" +:+ ":{" +:+ q "S" +:+ ":" +:+ q "new" +:+ "}}".
Definition raw_old : string :=
  "{" +:+ q "pk" +:+ ":{" +:+ q "S" +:+ ":" +:+ q "1" +:+ "}," +:+
         q "city" +:+ ":{" +:+ q "S" +:+ ":" +:+ q "old" +:+ "}}".

Definition map_pk1 : gmap string AttributeValue := {[ "pk" := AttributeValueMemberS "1" ]}.
Definition map_new : gmap string AttributeValue :=
  {[ "pk" := AttributeValueMemberS "1"; "name" := AttributeValueMemberS "new" ]}.
Definition map_old : gmap string AttributeValue :=
  {[ "pk" := AttributeValueMemberS "1"; "city" := AttributeValueMemberS "old" ]}.

(** [{"Item":{"pk":{"S":"1"}}}] *)
Definition line_full : string := "{" +:+ q "Item" +:+ ":" +:+ raw_pk1 +:+ "}".
(** [{"Keys":..,"NewImage":..,"OldImage":..}] *)
Definition line_update : string :=
  "{" +:+ q "Keys" +:+ ":" +:+ raw_pk1 +:+ "," +:+ q "NewImage" +:+ ":" +:+ raw_new +:+ ","
      +:+ q "OldImage" +:+ ":" +:+ raw_old +:+ "}".
(** [{"bogus":true}] *)
Definition line_bogus : string := "{" +:+ q "bogus" +:+ ":true}".
(** [{"Item":] *)
Definition line_cut : string := "{" +:+ q "Item" +:+ ":".

(** What [json.Unmarshal] and [UnmarshalMapJSON] return on these. *)
Definition json_Unmarshal (line : string) : result (GoMap RawMessage) :=
  if bool_decide (line = line_full) then Ok (Some {[ "Item" := raw_pk1 ]})
  else if bool_decide (line = line_update) then
    Ok (Some {[ "Keys" := raw_pk1; "NewImage" := raw_new; "OldImage" := raw_old ]})
  else if bool_decide (line = line_bogus) then Ok (Some {[ "bogus" := "true" ]})
  else Err (errorString "unexpected end of JSON input").

Definition UnmarshalMapJSON (raw : RawMessage) : result (GoMap AttributeValue) :=
  if bool_decide (raw = raw_pk1) then Ok (Some map_pk1)
  else if bool_decide (raw = raw_new) then Ok (Some map_new)
  else if bool_decide (raw = raw_old) then Ok (Some map_old)
  else Err (errorString "unsupported AttributeValue").

Definition Decode : string -> result Operation := Decode json_Unmarshal UnmarshalMapJSON.

End samples.

(** ** A sample restore: one worker, one data file *)
Module sample_restore.
Import itemimage checkpoint manifest metrics coordinator.

(** Behind the interfaces: the batches the table received and the stored
    checkpoint.  The data objects, each the lines it holds with their
    byte offsets, do not change during a restore. *)
Record World : Type := mkWorld {
  written : list (list Operation);
  saved : State;
}.

Definition collaborators (objects : gmap string (list (string * Z)))
    : Collaborators World := {|
  parser_Decode := samples.Decode;
  writer_WriteBatch ops w := ({| written := written w ++ [ops]; saved := saved w |}, None);
  store_Load w := (w, Ok (saved w));
  store_Save s w := ({| written := written w; saved := s |}, None);
  streamer_Stream _ key offset _ :=
    (filter (fun p => offset < p.2) (default [] (objects !! key)), None);
  ctx_wait _ w := (w, None);
|}.

Definition cfg : config.Config :=
  {| config.TableName := "table"; config.ExportS3URI := "s3://bucket/export/manifest-summary.json";
     config.ExportType := "INCREMENTAL"; config.ViewType := "NEW_AND_OLD";
     config.Region := "eu-north-1"; config.ResumeKey := EmptyString;
     config.MaxWorkers := 1; config.ReadAheadParts := 5; config.BatchSize := 25;
     config.ReportS3URI := EmptyString; config.DryRun := false;
     config.ManageCapacity := false; config.ShutdownTimeout := 300000000000;
     config.exportBucketName := "bucket" |}.

Definition file1 : FileMeta :=
  {| Key := "export/data/file1.json.gz"; ETag := "d41d8cd98f00b204e9800998ecf8427e";
     MD5Base64 := "1B2M2Y8AsgTpgAmY7PhCfg=="; ItemCount := 3 |}.

(** A data file with a corrupt second line, and the same file without it. *)
Definition lines_with_bogus : list (string * Z) :=
  [(samples.line_full, 30); (samples.line_bogus, 45); (samples.line_update, 200)].
Definition lines_clean : list (string * Z) :=
  [(samples.line_full, 30); (samples.line_update, 185)].

Definition with_bogus : Collaborators World :=
  collaborators {[ Key file1 := lines_with_bogus ]}.
Definition clean : Collaborators World :=
  collaborators {[ Key file1 := lines_clean ]}.

Definition start (state : State) : Shared World :=
  {| metrics := NewMetrics;
     workerStatus := {[ 0 := {| LastError := None; CurrentFile := EmptyString;
                                ItemsWritten := 0; BatchesCount := 0; ID := 0 |} ]};
     ext := {| written := []; saved := state |};
     trace := [] |}.

Definition noLocals : Locals :=
  {| batch := []; currentOffset := 0; batchesSinceCheckpoint := 0 |}.

End sample_restore.

(** Sample manifests: the MD5 of the empty object, and two ETags for it. *)
Module sample_manifest.
Import manifest.

Definition file2 : FileMeta :=
  {| Key := "export/data/file2.json.gz"; ETag := "d41d8cd98f00b204e9800998ecf8427e";
     MD5Base64 := "1B2M2Y8AsgTpgAmY7PhCfg=="; ItemCount := 0 |}.

Definition summary : Summary :=
  {| S3Bucket := "bucket"; ManifestFilesS3Key := "export/manifest-files.json";
     ExportType := "FULL_EXPORT"; OutputView := EmptyString;
     DataFiles := [sample_restore.file1; file2] |}.

Definition etag_lower : string := dquote +:+ "d41d8cd98f00b204e9800998ecf8427e" +:+ dquote.
Definition etag_upper : string := dquote +:+ "D41D8CD98F00B204E9800998ECF8427E" +:+ dquote.
Definition etag_other : string := dquote +:+ "9e107d9d372bb6826bd81d3542a419d6" +:+ dquote.

(** The first file stored with an upper-case ETag, the second as usual. *)
Definition HeadObject_upper (bucket key : string) : result (option string) :=
  if bool_decide (key = Key sample_restore.file1) then Ok (Some etag_upper)
  else Ok (Some etag_lower).

(** The first file stored with other content. *)
Definition HeadObject_other (bucket key : string) : result (option string) :=
  if bool_decide (key = Key sample_restore.file1) then Ok (Some etag_other)
  else Ok (Some etag_lower).

End sample_manifest.

(** Sample operations for the writer, and a fixed visiting order. *)
Module sample_writer.
Import itemimage writer.

Definition order : forall V, gmap string V -> list (string * V) :=
  fun V m => map_to_list m.

Lemma order_perm : forall V (m : gmap string V), order V m ≡ₚ map_to_list m.
Proof. intros V m. reflexivity. Defined.

Definition update1 : Operation :=
  {| Type_ := OpUpdate; Keys := Some samples.map_pk1;
     NewImage := Some samples.map_new; OldImage := Some samples.map_old |}.

(** An update whose images hold the key attribute and nothing else. *)
Definition update_keys_only : Operation :=
  {| Type_ := OpUpdate; Keys := Some samples.map_pk1;
     NewImage := Some samples.map_pk1; OldImage := Some samples.map_pk1 |}.

Definition put1 : Operation :=
  {| Type_ := OpPut; Keys := None; NewImage := Some samples.map_pk1; OldImage := None |}.

Definition delete1 : Operation :=
  {| Type_ := OpDelete; Keys := Some samples.map_pk1; NewImage := None;
     OldImage := Some samples.map_old |}.

End sample_writer.

(** Sample environments of the writer. *)
Module sample_service.
Import itemimage writer.

Definition reply_ok : BatchReply := fun _ => Ok {| UnprocessedItems := None |}.
Definition reply_unprocessed : BatchReply :=
  fun input => Ok {| UnprocessedItems := RequestItems input |}.
Definition reply_throttled : BatchReply :=
  fun _ => Err (OperationError "DynamoDB: BatchWriteItem" ProvisionedThroughputExceededException).
Definition reply_failed : BatchReply :=
  fun _ => Err (OperationError "DynamoDB: BatchWriteItem" (errorString "InternalServerError")).

(** A timer that always fires before the context is done. *)
Definition fires : WaitReply := {| rnd := 12345; ctxErr := None |}.
(** A context cancelled during the wait. *)
Definition cancelled : WaitReply := {| rnd := 12345; ctxErr := Some Canceled |}.

Definition env (batch : list BatchReply) (update : list (option error))
    (waiting : list WaitReply) : Env :=
  {| batchReplies := batch; updateReplies := update;
     world := {| waits := waiting; trace := [] |} |}.

Definition five_ops : list Operation :=
  [sample_writer.put1; sample_writer.delete1; sample_writer.update1;
   sample_writer.put1; sample_writer.delete1].

Definition run (batchSize : Z) (ops : list Operation) (e : Env) : Env * outcome :=
  WriteBatch sample_writer.order "table" batchSize ops e.

End sample_service.

(** A sample export: the summary object, and the list of its data files. *)
Module sample_export.
Import manifest.

Definition uri : string := "s3://bucket/export/manifest-summary.json".
Definition summaryBody : string := "{...manifest-summary.json...}".
Definition filesBody : string := "{...manifest-files.json...}".

(** What the summary object decodes to. *)
Definition head : Summary :=
  {| S3Bucket := "bucket"; ManifestFilesS3Key := "export/manifest-files.json";
     ExportType := "FULL_EXPORT"; OutputView := EmptyString; DataFiles := [] |}.

Definition GetObject (bucket key : string) : result (option string) :=
  if bool_decide (bucket ≠ "bucket") then Err (OperationError "S3: GetObject" NoSuchKey)
  else if bool_decide (key = "export/manifest-summary.json") then Ok (Some summaryBody)
  else if bool_decide (key = "export/manifest-files.json") then Ok (Some filesBody)
  else Err (OperationError "S3: GetObject" NoSuchKey).

Definition json_Decode_Summary (body : string) : result Summary :=
  if bool_decide (body = summaryBody) then Ok head
  else Err (errorString "unexpected end of JSON input").

Definition json_Decoder_FileMeta (body : string) : list (result FileMeta) :=
  if bool_decide (body = filesBody) then [Ok sample_restore.file1; Ok sample_manifest.file2]
  else [Err (errorString "unexpected end of JSON input")].

End sample_export.

(** A sample checkpoint and its JSON, for the stores. *)
Module sample_checkpoint.
Import checkpoint.

Definition at30 : State :=
  {| ExportID := "export/data/file1.json.gz"; LastFile := "export/data/file1.json.gz";
     LastByteOffset := 30 |}.

Definition at30_json : string :=
  "{" +:+ samples.q "exportId" +:+ ":" +:+ samples.q "export/data/file1.json.gz" +:+ ","
      +:+ samples.q "lastFile" +:+ ":" +:+ samples.q "export/data/file1.json.gz" +:+ ","
      +:+ samples.q "lastByteOffset" +:+ ":30}".

Definition json_Marshal_State (s : State) : result string :=
  if bool_decide (s = at30) then Ok at30_json
  else Err (errorString "json: unsupported value").

Definition json_Decode_State (data : string) : result State :=
  if bool_decide (data = at30_json) then Ok at30
  else Err (errorString "unexpected end of JSON input").

Definition path : string := "/tmp/checkpoints/restore.json".

(** An object store that keeps the last body put at each bucket and key. *)
Abbreviation Objects := (gmap (string * string) string).

Definition GetObject (c : Objects) (bucket key : string) : result string :=
  match c !! (bucket, key) with
  | Some body => Ok body
  | None => Err (OperationError "S3: GetObject" NoSuchKey)
  end.

Definition PutObject (bucket key body : string) (c : Objects) : Objects * option error :=
  (<[(bucket, key) := body]> c, None).

End sample_checkpoint.

(** The sample restore with batches of one operation, and as a dry run. *)
Module sample_small.

Definition cfg : config.Config :=
  {| config.TableName := "table"; config.ExportS3URI := "s3://bucket/export/manifest-summary.json";
     config.ExportType := "INCREMENTAL"; config.ViewType := "NEW_AND_OLD";
     config.Region := "eu-north-1"; config.ResumeKey := EmptyString;
     config.MaxWorkers := 1; config.ReadAheadParts := 5; config.BatchSize := 1;
     config.ReportS3URI := EmptyString; config.DryRun := false;
     config.ManageCapacity := false; config.ShutdownTimeout := 300000000000;
     config.exportBucketName := "bucket" |}.

Definition dryRun : config.Config :=
  {| config.TableName := "table"; config.ExportS3URI := "s3://bucket/export/manifest-summary.json";
     config.ExportType := "INCREMENTAL"; config.ViewType := "NEW_AND_OLD";
     config.Region := "eu-north-1"; config.ResumeKey := EmptyString;
     config.MaxWorkers := 1; config.ReadAheadParts := 5; config.BatchSize := 25;
     config.ReportS3URI := EmptyString; config.DryRun := true;
     config.ManageCapacity := false; config.ShutdownTimeout := 300000000000;
     config.exportBucketName := "bucket" |}.

End sample_small.

(** The sample restore over a connection that breaks once: the first
    stream of a file hands over its lines and then fails; after a wait
    the streams succeed. *)
Module sample_flaky.
Import itemimage checkpoint manifest metrics coordinator.

Record World : Type := mkWorld {
  written : list (list Operation);
  saved : State;
  waited : bool;
}.

Definition collaborators : Collaborators World := {|
  parser_Decode := samples.Decode;
  writer_WriteBatch ops w :=
    ({| written := written w ++ [ops]; saved := saved w; waited := waited w |}, None);
  store_Load w := (w, Ok (saved w));
  store_Save s w := ({| written := written w; saved := s; waited := waited w |}, None);
  streamer_Stream _ _ offset w :=
    (filter (fun p => offset < p.2) sample_restore.lines_clean,
     if waited w then None else Some (errorString "connection reset by peer"));
  ctx_wait _ w := ({| written := written w; saved := saved w; waited := true |}, None);
|}.

Definition start : Shared World :=
  {| metrics := NewMetrics;
     workerStatus := {[ 0 := {| LastError := None; CurrentFile := EmptyString;
                                ItemsWritten := 0; BatchesCount := 0; ID := 0 |} ]};
     ext := {| written := []; saved := zeroState; waited := false |};
     trace := [] |}.

End sample_flaky.

(** * Theorems *)

(** ** The record decoder *)
Section DecoderFacts.
Import itemimage.
Variable json_Unmarshal : string -> result (GoMap RawMessage).
Variable UnmarshalMapJSON : RawMessage -> result (GoMap AttributeValue).

Local Abbreviation Decode := (Decode json_Unmarshal UnmarshalMapJSON).
Local Abbreviation decodeField := (decodeField UnmarshalMapJSON).

(** The table of the operation types, by the presence of the two images. *)
Definition typeTable (newPresent oldPresent : bool) : option OperationType :=
  match newPresent, oldPresent with
  | true, true => Some OpUpdate
  | true, false => Some OpPut
  | false, true => Some OpDelete
  | false, false => None
  end.

(** A field of an INCREMENTAL line is valid when, if it is there, it
    unmarshals to a map that is not nil. *)
Definition validField (raw : GoMap RawMessage) (field : string) : Prop :=
  forall fieldRaw, golookup field raw = Some fieldRaw ->
    exists g, UnmarshalMapJSON fieldRaw = Ok (Some g).

(** The image [Decode] stores for a field: what the field unmarshals to,
    nil when the line has no such field. *)
Definition imageOf (raw : GoMap RawMessage) (field : string) : GoMap AttributeValue :=
  match golookup field raw with
  | Some fieldRaw =>
      match UnmarshalMapJSON fieldRaw with
      | Ok m => m
      | Err _ => None
      end
  | None => None
  end.

Lemma corruptf_Is what err : errors_Is (corruptf what err) ErrCorrupt = true.
Proof. reflexivity. Qed.

Lemma decodeField_valid raw field set op :
  validField raw field ->
  decodeField raw field set op =
    Ok (if gohas field raw then set (imageOf raw field) op else op).
Proof.
  intros Hv. unfold itemimage.decodeField, gohas, imageOf.
  destruct (golookup field raw) as [fieldRaw|] eqn:Hl.
  - destruct (Hv _ Hl) as [g Hg]. rewrite Hg.
    rewrite bool_decide_eq_true_2 by eauto. reflexivity.
  - rewrite bool_decide_eq_false_2 by (intros [? ?]; discriminate). reflexivity.
Qed.

Lemma imageOf_present raw field :
  validField raw field -> gohas field raw = bool_decide (is_Some (imageOf raw field)).
Proof.
  intros Hv. unfold gohas, imageOf.
  destruct (golookup field raw) as [fieldRaw|] eqn:Hl.
  - destruct (Hv _ Hl) as [g ->].
    rewrite !bool_decide_eq_true_2 by eauto. reflexivity.
  - rewrite !bool_decide_eq_false_2 by (intros [? ?]; discriminate). reflexivity.
Qed.

(** Every error of [Decode] wraps the sentinel, and none is the sentinel. *)
Lemma Decode_error_wraps line e :
  Decode line = Err e -> errors_Is e ErrCorrupt = true /\ e <> ErrCorrupt.
Proof.
  unfold itemimage.Decode.
  destruct (json_Unmarshal line) as [raw|err].
  2:{ intros [= <-]. split; [reflexivity | discriminate]. }
  destruct (golookup "Item" raw) as [itemRaw|].
  { destruct (UnmarshalMapJSON itemRaw); intros [= <-].
    split; [reflexivity | discriminate]. }
  assert (Hf : forall field set op r, decodeField raw field set op = Err r ->
                 errors_Is r ErrCorrupt = true /\ r <> ErrCorrupt).
  { intros field set op r. unfold itemimage.decodeField.
    destruct (golookup field raw) as [fr|]; [|discriminate].
    destruct (UnmarshalMapJSON fr); intros [= <-]. split; [reflexivity | discriminate]. }
  destruct (decodeField raw "Keys" setKeys zeroOperation) as [op1|r1] eqn:H1; cbn.
  2:{ intros [= <-]. eauto. }
  destruct (decodeField raw "NewImage" setNewImage op1) as [op2|r2] eqn:H2; cbn.
  2:{ intros [= <-]. eauto. }
  destruct (decodeField raw "OldImage" setOldImage op2) as [op3|r3] eqn:H3; cbn.
  2:{ intros [= <-]. eauto. }
  destruct (NewImage op3), (OldImage op3); intros [= <-].
  split; [reflexivity | discriminate].
Qed.

(** C2. [Decode] follows the table of section 4.2.  A line that is not
    JSON yields an error of the Corrupt kind.  A line with an ["Item"]
    that unmarshals yields a PUT whose new image is that item.  A line
    without ["Item"] whose fields are valid yields the operation type the
    table gives for the presence of ["NewImage"] and ["OldImage"], with
    the keys and the images the fields unmarshal to; when both are absent
    it yields an error of the Corrupt kind. *)
Theorem Decode_follows_table (line : string) :
  (forall err, json_Unmarshal line = Err err ->
     exists e, Decode line = Err e /\ errors_Is e ErrCorrupt = true) /\
  (forall raw itemRaw item,
     json_Unmarshal line = Ok raw ->
     golookup "Item" raw = Some itemRaw ->
     UnmarshalMapJSON itemRaw = Ok item ->
     Decode line = Ok {| Type_ := OpPut; Keys := None; NewImage := item; OldImage := None |}) /\
  (forall raw,
     json_Unmarshal line = Ok raw ->
     golookup "Item" raw = None ->
     validField raw "Keys" -> validField raw "NewImage" -> validField raw "OldImage" ->
     match typeTable (gohas "NewImage" raw) (gohas "OldImage" raw) with
     | Some t =>
         Decode line = Ok {| Type_ := t; Keys := imageOf raw "Keys";
                             NewImage := imageOf raw "NewImage";
                             OldImage := imageOf raw "OldImage" |}
     | None => exists e, Decode line = Err e /\ errors_Is e ErrCorrupt = true
     end).
Proof.
  split; [|split].
  - intros err Hu. unfold itemimage.Decode. rewrite Hu. eauto using corruptf_Is.
  - intros raw itemRaw item Hu Hi Hm. unfold itemimage.Decode.
    rewrite Hu, Hi, Hm. reflexivity.
  - intros raw Hu Hi Hk Hn Ho. unfold itemimage.Decode. rewrite Hu, Hi.
    rewrite (decodeField_valid _ _ _ _ Hk). cbn [mbind result_bind].
    rewrite (decodeField_valid _ _ _ _ Hn). cbn [mbind result_bind].
    rewrite (decodeField_valid _ _ _ _ Ho). cbn [mbind result_bind].
    assert (Ek : (if gohas "Keys" raw then imageOf raw "Keys" else None)
                 = imageOf raw "Keys").
    { unfold gohas, imageOf. destruct (golookup "Keys" raw); [|reflexivity].
      rewrite bool_decide_eq_true_2 by eauto. reflexivity. }
    rewrite (imageOf_present _ _ Hn), (imageOf_present _ _ Ho).
    destruct (imageOf raw "NewImage") as [gn|] eqn:En;
      destruct (imageOf raw "OldImage") as [go|] eqn:Eo;
      [ rewrite !bool_decide_eq_true_2 by eauto
      | rewrite bool_decide_eq_true_2, bool_decide_eq_false_2
          by (eauto || (intros [? ?]; discriminate))
      | rewrite bool_decide_eq_false_2, bool_decide_eq_true_2
          by (eauto || (intros [? ?]; discriminate))
      | rewrite !bool_decide_eq_false_2 by (intros [? ?]; discriminate) ];
      cbn [typeTable]; rewrite <- Ek; destruct (gohas "Keys" raw); cbn; eauto.
Qed.

(** C10. A line with an ["Item"] that decodes gives a PUT with nothing
    but the new image: its keys and its old image are nil, whatever else
    the line holds, and the new image is what the item unmarshals to. *)
Theorem Decode_full_only_new_image (line : string) (raw : GoMap RawMessage)
    (itemRaw : RawMessage) (op : Operation) :
  json_Unmarshal line = Ok raw ->
  golookup "Item" raw = Some itemRaw ->
  Decode line = Ok op ->
  Type_ op = OpPut /\ Keys op = None /\ OldImage op = None /\
  UnmarshalMapJSON itemRaw = Ok (NewImage op).
Proof.
  intros Hu Hi. unfold itemimage.Decode. rewrite Hu, Hi.
  destruct (UnmarshalMapJSON itemRaw) as [item|err]; [|discriminate].
  intros [= <-]. repeat split.
Qed.
End DecoderFacts.

(** C2, exercised: the shapes of section 4.2 on sample lines. *)
Lemma Decode_follows_table_witness :
  samples.Decode samples.line_update =
    Ok {| itemimage.Type_ := itemimage.OpUpdate;
          itemimage.Keys := Some samples.map_pk1;
          itemimage.NewImage := Some samples.map_new;
          itemimage.OldImage := Some samples.map_old |} /\
  samples.Decode samples.line_full =
    Ok {| itemimage.Type_ := itemimage.OpPut; itemimage.Keys := None;
          itemimage.NewImage := Some samples.map_pk1; itemimage.OldImage := None |} /\
  (exists e, samples.Decode samples.line_bogus = Err e /\ errors_Is e ErrCorrupt = true) /\
  (exists e, samples.Decode samples.line_cut = Err e /\ errors_Is e ErrCorrupt = true).
Proof.
  assert (Hv : forall raw field r,
            golookup field raw = r ->
            (r = None \/ exists fr g, r = Some fr /\ samples.UnmarshalMapJSON fr = Ok (Some g)) ->
            validField samples.UnmarshalMapJSON raw field).
  { intros raw field r Hl [-> | (fr & g & -> & Hg)] fieldRaw Hl'; rewrite Hl in Hl';
      [discriminate | injection Hl' as <-; eauto]. }
  split; [|split; [|split]].
  - destruct (Decode_follows_table samples.json_Unmarshal samples.UnmarshalMapJSON
                samples.line_update) as (_ & _ & H).
    refine (eq_rect _ (fun P : Prop => P)
              (H (Some {[ "Keys" := samples.raw_pk1; "NewImage" := samples.raw_new;
                          "OldImage" := samples.raw_old ]}) _ _
                 (Hv _ _ (Some samples.raw_pk1) _ _) (Hv _ _ (Some samples.raw_new) _ _)
                 (Hv _ _ (Some samples.raw_old) _ _)) _ _);
      try (vm_compute; reflexivity);
      right; do 2 eexists; (split; [reflexivity | vm_compute; reflexivity]).
  - destruct (Decode_follows_table samples.json_Unmarshal samples.UnmarshalMapJSON
                samples.line_full) as (_ & H & _).
    refine (eq_rect _ (fun P : Prop => P)
              (H (Some {[ "Item" := samples.raw_pk1 ]}) samples.raw_pk1
                 (Some samples.map_pk1) _ _ _) _ _);
      vm_compute; reflexivity.
  - destruct (Decode_follows_table samples.json_Unmarshal samples.UnmarshalMapJSON
                samples.line_bogus) as (_ & _ & H).
    refine (eq_rect _ (fun P : Prop => P)
              (H (Some {[ "bogus" := "true" ]}) _ _
                 (Hv _ _ None _ _) (Hv _ _ None _ _) (Hv _ _ None _ _)) _ _);
      try (vm_compute; reflexivity); by left.
  - destruct (Decode_follows_table samples.json_Unmarshal samples.UnmarshalMapJSON
                samples.line_cut) as (H & _ & _).
    refine (H (errorString "unexpected end of JSON input") _). vm_compute; reflexivity.
Defined.

(** C10, exercised on [{"Item":{"pk":{"S":"1"}}}]. *)
Lemma Decode_full_only_new_image_witness :
  let op := {| itemimage.Type_ := itemimage.OpPut; itemimage.Keys := None;
               itemimage.NewImage := Some samples.map_pk1;
               itemimage.OldImage := None |} in
  samples.Decode samples.line_full = Ok op /\
  itemimage.Type_ op = itemimage.OpPut /\ itemimage.Keys op = None /\
  itemimage.OldImage op = None /\
  samples.UnmarshalMapJSON samples.raw_pk1 = Ok (itemimage.NewImage op).
Proof.
  intros op.
  assert (Hd : samples.Decode samples.line_full = Ok op) by (vm_compute; reflexivity).
  split; [exact Hd|].
  refine (Decode_full_only_new_image samples.json_Unmarshal samples.UnmarshalMapJSON
            samples.line_full (Some {[ "Item" := samples.raw_pk1 ]}) samples.raw_pk1 op
            _ _ Hd); vm_compute; reflexivity.
Defined.

(** ** The coordinator's worker *)
Section WorkerFacts.
Import itemimage checkpoint manifest metrics coordinator.
Context {W : Type} `{!Collaborators W}.
Variable cfg : config.Config.

(** [c'] has the trace of [c] and then events that all satisfy [P]. *)
Definition extends (P : Event -> Prop) (c c' : Shared W) : Prop :=
  exists new, trace c' = trace c ++ new /\ Forall P new.

Lemma extends_refl P c : extends P c c.
Proof. exists []. rewrite app_nil_r. auto. Qed.

Lemma extends_same P c c' : trace c' = trace c -> extends P c c'.
Proof. intros E. exists []. rewrite app_nil_r. auto. Qed.

Lemma extends_trans P c1 c2 c3 : extends P c1 c2 -> extends P c2 c3 -> extends P c1 c3.
Proof.
  intros (n1 & E1 & F1) (n2 & E2 & F2). exists (n1 ++ n2).
  rewrite E2, E1, app_assoc. split; [reflexivity | by apply Forall_app].
Qed.

Lemma extends_emit P ev c : P ev -> extends P c (emit ev c).
Proof. intros HP. exists [ev]. split; [reflexivity | by constructor]. Qed.

Lemma extends_weaken (P Q : Event -> Prop) c c' :
  (forall ev, P ev -> Q ev) -> extends P c c' -> extends Q c c'.
Proof.
  intros HPQ (n & E & F). exists n. split; [done|]. eapply Forall_impl; eauto.
Qed.

Lemma trace_updateWorkerStatus id fn (c : Shared W) :
  trace (updateWorkerStatus id fn c) = trace c.
Proof. unfold updateWorkerStatus. by destruct (workerStatus c !! id). Qed.

Lemma trace_recordError id err (c : Shared W) : trace (recordError id err c) = trace c.
Proof. unfold recordError. by rewrite trace_updateWorkerStatus. Qed.

Lemma trace_withExt w (c : Shared W) : trace (withExt w c) = trace c.
Proof. reflexivity. Qed.

Lemma trace_withMetrics f (c : Shared W) : trace (withMetrics f c) = trace c.
Proof. reflexivity. Qed.

Lemma trace_emit ev (c : Shared W) : trace (emit ev c) = trace c ++ [ev].
Proof. reflexivity. Qed.

Ltac trace_simpl :=
  cbn [fst snd];
  repeat first [ rewrite trace_recordError | rewrite trace_withExt
               | rewrite trace_withMetrics | rewrite trace_updateWorkerStatus
               | rewrite trace_emit ].

Lemma ext_updateWorkerStatus id fn (c : Shared W) :
  ext (updateWorkerStatus id fn c) = ext c.
Proof. unfold updateWorkerStatus. by destruct (workerStatus c !! id). Qed.

(** The events a worker may emit while it handles [file], streaming from
    [bucket] at [offset]. *)
Definition fileEvents (P : Event -> Prop) (file : FileMeta) (bucket : string)
    (offset : Z) : Prop :=
  (forall ops, P (EvWriteBatch ops)) /\
  (forall off, P (EvSave {| ExportID := Key file; LastFile := Key file;
                            LastByteOffset := off |})) /\
  P (EvStream bucket (Key file) offset) /\
  (forall d, P (EvWait d)).

Lemma writeBatch_extends P id ops file bucket offset off sc c :
  fileEvents P file bucket offset ->
  extends P c (writeBatch id ops file off sc c).1.
Proof.
  intros (Hw & Hs & _ & _). unfold writeBatch.
  destruct (writer_WriteBatch ops (ext (emit (EvWriteBatch ops) c))) as [w [err|]]; cbn.
  - exists [EvWriteBatch ops]. rewrite trace_recordError. split; [done | by repeat constructor].
  - destruct sc.
    + match goal with |- context [store_Save ?s ?e] => destruct (store_Save s e) as [w' [err|]] end;
        cbn;
        exists [EvWriteBatch ops;
                EvSave {| ExportID := Key file; LastFile := Key file; LastByteOffset := off |}];
        rewrite ?trace_recordError; cbn; rewrite trace_updateWorkerStatus; cbn;
        rewrite <- app_assoc; (split; [done | by repeat constructor]).
    + cbn. exists [EvWriteBatch ops]. rewrite trace_updateWorkerStatus.
      split; [done | by repeat constructor].
Qed.

Lemma callback_extends P id file bucket offset line byteOffset c l :
  fileEvents P file bucket offset ->
  extends P c (callback cfg id file line byteOffset (c, l)).1.1.
Proof.
  intros HP. unfold callback.
  destruct (parser_Decode line) as [op|err].
  - case_match.
    + match goal with |- context [writeBatch ?i ?b ?f ?o ?s ?x] =>
        pose proof (writeBatch_extends P i b f bucket offset o s x HP) as Hx;
        destruct (writeBatch i b f o s x) as [c' [e|]] end;
        cbn in *; (eapply extends_trans; [|exact Hx]); apply extends_same; reflexivity.
    + apply extends_same; reflexivity.
  - case_match; apply extends_same; reflexivity.
Qed.

Lemma deliver_extends P id file bucket offset lines c l :
  fileEvents P file bucket offset ->
  extends P c (deliver cfg id file lines (c, l)).1.1.
Proof.
  intros HP. revert c l. induction lines as [|[line off] rest IH]; intros c l; cbn [deliver].
  - apply extends_refl.
  - pose proof (callback_extends P id file bucket offset line off c l HP) as Hc.
    destruct (callback cfg id file line off (c, l)) as [[c' l'] [e|]];
      cbn [fst snd] in *; [exact Hc|].
    eapply extends_trans; [exact Hc | apply IH].
Qed.

Lemma Stream_extends P id file bucket offset c l :
  fileEvents P file bucket offset ->
  extends P c (Stream cfg id file bucket offset (c, l)).1.1.
Proof.
  intros HP. unfold Stream.
  destruct (streamer_Stream bucket (Key file) offset
              (ext (emit (EvStream bucket (Key file) offset) c))) as [lines tailErr].
  pose proof (deliver_extends P id file bucket offset lines
                (emit (EvStream bucket (Key file) offset) c) l HP) as Hd.
  destruct (deliver cfg id file lines (emit (EvStream bucket (Key file) offset) c, l))
    as [[c' l'] [e|]]; cbn [fst snd] in *;
    (eapply extends_trans; [apply extends_emit, (proj1 (proj2 (proj2 HP))) | exact Hd]).
Qed.

Lemma streamLoop_extends P remaining retry id file bucket offset streamErr c l :
  fileEvents P file bucket offset ->
  extends P c (streamLoop cfg remaining retry id file bucket offset streamErr (c, l)).1.1.
Proof.
  intros HP. revert retry streamErr c l.
  induction remaining as [|remaining IH]; intros retry streamErr c l; cbn [streamLoop].
  - apply extends_refl.
  - set (d := int64_wrap (int64_shl 1 retry * 1000000000)).
    assert (Hgo : forall c0, extends P c c0 ->
              extends P c
                (match Stream cfg id file bucket offset (c0, l) with
                 | (c1, l0, Some err) =>
                     streamLoop cfg remaining (retry + 1) id file bucket offset
                       (Some err) (recordError id err c1, l0)
                 | (c1, l0, None) => (c1, l0, inr None)
                 end).1.1).
    { intros c0 H0.
      pose proof (Stream_extends P id file bucket offset c0 l HP) as Hs.
      destruct (Stream cfg id file bucket offset (c0, l)) as [[c1 l1] [e|]]; cbn [fst snd] in *.
      - eapply extends_trans; [exact H0|]. eapply extends_trans; [exact Hs|].
        eapply extends_trans; [|apply IH]. apply extends_same. by rewrite trace_recordError.
      - eapply extends_trans; [exact H0 | exact Hs]. }
    destruct (0 <? retry).
    + destruct (ctx_wait d (ext (emit (EvWait d) c))) as [w [ctxerr|]]; cbv beta iota zeta.
      * cbn [fst snd]. exists [EvWait d]. split; [done|].
        constructor; [apply (proj2 (proj2 (proj2 HP))) | constructor].
      * apply Hgo. exists [EvWait d]. split; [done|].
        constructor; [apply (proj2 (proj2 (proj2 HP))) | constructor].
    + cbv beta iota zeta. apply Hgo, extends_refl.
Qed.

Definition anyEvent : Event -> Prop := fun _ => True.

Lemma fileEvents_any file bucket offset : fileEvents anyEvent file bucket offset.
Proof. by repeat split. Qed.

(** The offset [processFile] resumes at, given the checkpoint it loads. *)
Definition resumeAt (file : FileMeta) (state : State) : Z :=
  if bool_decide (Key file = LastFile state) then LastByteOffset state else 0.

Definition completed (file : FileMeta) (state : State) : bool :=
  bool_decide (Key file = LastFile state)
  && bool_decide (LastByteOffset state = completedFileOffset).

Lemma processFile_extends P id file c l :
  (forall w state, store_Load (ext c) = (w, Ok state) ->
     fileEvents P file (config.exportBucketName cfg) (resumeAt file state)) ->
  extends P c (processFile cfg id file (c, l)).1.1.
Proof.
  intros HP. unfold processFile. rewrite ext_updateWorkerStatus.
  destruct (store_Load (ext c)) as [w [state|err]] eqn:HL.
  2:{ apply extends_same. by trace_simpl. }
  specialize (HP _ _ eq_refl). fold (resumeAt file state).
  case_match.
  { apply extends_same. by trace_simpl. }
  match goal with |- context [streamLoop cfg ?n ?r id file ?b ?o ?e (?x, ?y)] =>
    pose proof (streamLoop_extends P n r id file b o e x y HP) as Hs;
    destruct (streamLoop cfg n r id file b o e (x, y)) as [[c1 l1] [err|[err|]]];
    assert (H0 : extends P c x) by (apply extends_same; by trace_simpl)
  end; cbn [fst snd] in *.
  - eapply extends_trans; eauto.
  - eapply extends_trans; eauto.
  - assert (H1 : extends P c c1) by (eapply extends_trans; eauto).
    assert (Hsave : forall c2, extends P c c2 ->
              extends P c
                (let state := {| ExportID := Key file; LastFile := Key file;
                                 LastByteOffset := completedFileOffset |} in
                 let c := emit (EvSave state) c2 in
                 let '(w, r) := store_Save state (ext c) in
                 let c := withExt w c in
                 match r with
                 | Some err => recordError id err c
                 | None => c
                 end)).
    { intros c2 H2. cbv zeta.
      match goal with |- context [store_Save ?s ?e] =>
        destruct (store_Save s e) as [w' [err|]] end;
        (eapply extends_trans; [exact H2|]);
        exists [EvSave {| ExportID := Key file; LastFile := Key file;
                          LastByteOffset := completedFileOffset |}];
        (split; [by trace_simpl|]);
        (constructor; [apply (proj1 (proj2 HP)) | constructor]). }
    destruct (bool_decide (batch l1 ≠ [])).
    + pose proof (writeBatch_extends P id (batch l1) file _ _ (currentOffset l1) true c1 HP) as Hw.
      destruct (writeBatch id (batch l1) file (currentOffset l1) true c1) as [c2 [err|]];
        cbn [fst snd] in *.
      * eapply extends_trans; eauto.
      * specialize (Hsave c2 (extends_trans _ _ _ _ H1 Hw)). cbv zeta in Hsave.
        match goal with |- context [store_Save ?s ?e] =>
          destruct (store_Save s e) as [w' [err|]] end; exact Hsave.
    + specialize (Hsave c1 H1). cbv zeta in Hsave.
      match goal with |- context [store_Save ?s ?e] =>
        destruct (store_Save s e) as [w' [err|]] end; exact Hsave.
Qed.

Lemma Stream_first id file bucket offset c l :
  exists more,
    trace (Stream cfg id file bucket offset (c, l)).1.1
    = trace c ++ EvStream bucket (Key file) offset :: more.
Proof.
  unfold Stream.
  destruct (streamer_Stream bucket (Key file) offset
              (ext (emit (EvStream bucket (Key file) offset) c))) as [lines tailErr].
  destruct (deliver_extends anyEvent id file bucket offset lines
              (emit (EvStream bucket (Key file) offset) c) l
              (fileEvents_any _ _ _)) as (more & E & _).
  exists more.
  destruct (deliver cfg id file lines (emit (EvStream bucket (Key file) offset) c, l))
    as [[c' l'] [e|]]; cbn [fst snd] in *; rewrite E; cbn; by rewrite <- app_assoc.
Qed.

Lemma streamLoop_first remaining id file bucket offset streamErr c l :
  exists more,
    trace (streamLoop cfg (S remaining) 0 id file bucket offset streamErr (c, l)).1.1
    = trace c ++ EvStream bucket (Key file) offset :: more.
Proof.
  cbn [streamLoop]. change (0 <? 0) with false. cbv beta iota zeta.
  destruct (Stream_first id file bucket offset c l) as (more & E).
  destruct (Stream cfg id file bucket offset (c, l)) as [[c1 l1] [e|]]; cbn [fst snd] in *.
  - destruct (streamLoop_extends anyEvent remaining (0 + 1) id file bucket offset (Some e)
                (recordError id e c1) l1 (fileEvents_any _ _ _)) as (more' & E' & _).
    exists (more ++ more'). rewrite E', trace_recordError, E.
    by rewrite <- app_assoc.
  - eauto.
Qed.

Lemma Forall_saves (R : State -> Prop) (new : list Event) :
  Forall (fun ev => match ev with EvSave s => R s | _ => True end) new ->
  Forall R (saves new).
Proof.
  induction 1 as [|ev new Hev _ IH]; [constructor|].
  unfold saves in *. destruct ev; cbn; auto.
Qed.

Lemma Forall_streams (R : string * string * Z -> Prop) (new : list Event) :
  Forall (fun ev => match ev with EvStream b k o => R (b, k, o) | _ => True end) new ->
  Forall R (streams new).
Proof.
  induction 1 as [|ev new Hev _ IH]; [constructor|].
  unfold streams in *. destruct ev; cbn; auto.
Qed.

(** From [c] to [c'] the worker called [Stream] at least once, and each
    time with the arguments [call]. *)
Definition streamsAt (c c' : Shared W) (call : string * string * Z) : Prop :=
  exists new, trace c' = trace c ++ new /\ streams new ≠ [] /\
    Forall (fun x => x = call) (streams new).

Lemma processFile_streams id file c l w state :
  store_Load (ext c) = (w, Ok state) ->
  completed file state = false ->
  streamsAt c (processFile cfg id file (c, l)).1.1
    (config.exportBucketName cfg, Key file, resumeAt file state).
Proof.
  intros HL Hc. unfold streamsAt.
  set (P := fun ev => match ev with
              | EvStream b k o =>
                  (b, k, o) = (config.exportBucketName cfg, Key file, resumeAt file state)
              | _ => True end).
  destruct (processFile_extends P id file c l) as (new & E & F).
  { intros w' state' HL'. rewrite HL in HL'. injection HL' as <- <-.
    by repeat split. }
  exists new. split; [exact E|]. split; [|by apply Forall_streams].
  assert (Hfirst : exists more,
            trace (processFile cfg id file (c, l)).1.1 = trace c ++
              EvStream (config.exportBucketName cfg) (Key file) (resumeAt file state) :: more).
  { unfold processFile. rewrite ext_updateWorkerStatus, HL.
    fold (resumeAt file state). fold (completed file state). rewrite Hc.
    match goal with |- context [streamLoop cfg ?n ?r id file ?b ?o ?e (?x, ?y)] =>
      destruct (streamLoop_first 2 id file b o e x y) as (more & E1);
      change (S 2) with n in E1;
      destruct (streamLoop cfg n r id file b o e (x, y)) as [[c1 l1] [err|[err|]]]
    end; cbn [fst snd] in *; rewrite trace_withExt, trace_updateWorkerStatus in E1.
    - eauto.
    - eauto.
    - destruct (bool_decide (batch l1 ≠ [])).
      + destruct (writeBatch_extends anyEvent id (batch l1) file EmptyString 0
                    (currentOffset l1) true c1 (fileEvents_any _ _ _)) as (m2 & E2 & _).
        destruct (writeBatch id (batch l1) file (currentOffset l1) true c1) as [c2 [err|]];
          cbn [fst snd] in *.
        * exists (more ++ m2). rewrite E2, E1. by rewrite <- app_assoc.
        * match goal with |- context [store_Save ?s ?e] =>
            destruct (store_Save s e) as [w' [err|]] end; trace_simpl;
            rewrite E2, E1; eexists; rewrite <- !app_assoc; cbn; reflexivity.
      + match goal with |- context [store_Save ?s ?e] =>
          destruct (store_Save s e) as [w' [err|]] end; trace_simpl;
          rewrite E1; eexists; rewrite <- !app_assoc; cbn; reflexivity. }
  destruct Hfirst as (more & E1). rewrite E in E1. apply app_inv_head in E1.
  rewrite E1. unfold streams. cbn. discriminate.
Qed.

(** C6. With the checkpoint [state] loaded for the file: when
    [state.LastFile] is the file's key and [state.LastByteOffset] is -1,
    the worker goes on to the next file without a single call (no stream,
    no write, no save); when [state.LastFile] is the file's key and the
    offset is another one, it streams the file, and every [Stream] call
    is at [state.LastByteOffset]; otherwise every [Stream] call is at 0. *)
Theorem processFile_resume_offset (id : Z) (file : FileMeta) (c : Shared W)
    (l : Locals) (w : W) (state : State) :
  store_Load (ext c) = (w, Ok state) ->
  (LastFile state = Key file -> LastByteOffset state = -1 ->
     trace (processFile cfg id file (c, l)).1.1 = trace c /\
     (processFile cfg id file (c, l)).1.2 = l /\
     (processFile cfg id file (c, l)).2 = Next) /\
  (LastFile state = Key file -> LastByteOffset state <> -1 ->
     streamsAt c (processFile cfg id file (c, l)).1.1
       (config.exportBucketName cfg, Key file, LastByteOffset state)) /\
  (LastFile state <> Key file ->
     streamsAt c (processFile cfg id file (c, l)).1.1
       (config.exportBucketName cfg, Key file, 0)).
Proof.
  intros HL. split; [|split].
  - intros Hf Ho. unfold processFile.
    rewrite ext_updateWorkerStatus, HL.
    rewrite !bool_decide_eq_true_2 by done. cbn [andb fst snd].
    by trace_simpl.
  - intros Hf Ho.
    assert (Hc : completed file state = false).
    { unfold completed.
      rewrite (bool_decide_eq_false_2 (LastByteOffset state = completedFileOffset)) by done.
      by rewrite andb_false_r. }
    pose proof (processFile_streams id file c l w state HL Hc) as H.
    unfold resumeAt in H. by rewrite bool_decide_eq_true_2 in H.
  - intros Hf.
    assert (Hc : completed file state = false).
    { unfold completed. by rewrite (bool_decide_eq_false_2 (Key file = LastFile state)). }
    pose proof (processFile_streams id file c l w state HL Hc) as H.
    unfold resumeAt in H. by rewrite bool_decide_eq_false_2 in H.
Qed.

(** The saves of a worker all name a file of its tasks. *)
Lemma workerLoop_extends (all tasks : list FileMeta) id c l :
  (forall f, f ∈ tasks -> f ∈ all) ->
  extends (fun ev => match ev with
             | EvSave s => ExportID s = LastFile s /\
                           exists file, file ∈ all /\ LastFile s = Key file
             | _ => True end)
    c (workerLoop cfg id tasks (c, l)).1.
Proof.
  revert c l. induction tasks as [|file rest IH]; intros c l Hin; cbn [workerLoop].
  - apply extends_refl.
  - assert (Hf : extends (fun ev => match ev with
                    | EvSave s => ExportID s = LastFile s /\
                                  exists file, file ∈ all /\ LastFile s = Key file
                    | _ => True end) c (processFile cfg id file (c, l)).1.1).
    { eapply extends_weaken; [|apply (processFile_extends
        (fun ev => match ev with
                   | EvSave s => ExportID s = Key file /\ LastFile s = Key file
                   | _ => True end))].
      - intros [] ; try done. intros [-> ->]. split; [done|].
        exists file. split; [apply Hin; left | done].
      - intros w state _. by repeat split. }
    destruct (processFile cfg id file (c, l)) as [[c1 l1] [|err]]; cbn [fst snd] in *.
    + eapply extends_trans; [exact Hf|]. apply IH. intros f Hfin. apply Hin. by right.
    + exact Hf.
Qed.

(** C9. Every checkpoint state a worker saves, the progress checkpoints
    and the completion sentinel alike, has [ExportID] equal to [LastFile],
    which is the key of one of the data files the worker was given. *)
Theorem worker_saves_file_key (id : Z) (tasks : list FileMeta) (c : Shared W) :
  exists new,
    trace (worker cfg id tasks c).1 = trace c ++ new /\
    Forall (fun s => ExportID s = LastFile s /\
                     exists file, file ∈ tasks /\ LastFile s = Key file)
      (saves new).
Proof.
  unfold worker.
  destruct (workerLoop_extends tasks tasks id c
              {| batch := []; currentOffset := 0; batchesSinceCheckpoint := 0 |})
    as (new & E & F); [done|].
  exists new. split; [exact E|]. by apply Forall_saves.
Qed.
End WorkerFacts.

(** ** Corrupt lines under the JSON decoder *)
Section CorruptLines.
Import itemimage checkpoint manifest metrics coordinator.
Context {W : Type} `{!Collaborators W}.
Variable cfg : config.Config.
Variable json_Unmarshal : string -> result (GoMap RawMessage).
Variable UnmarshalMapJSON : RawMessage -> result (GoMap AttributeValue).
(** The coordinator's parser is the [JSONDecoder], as [main] wires it. *)
Hypothesis parser_is_JSONDecoder :
  forall line, parser_Decode line = Decode json_Unmarshal UnmarshalMapJSON line.

Lemma callback_decode_error id file line off c l e :
  parser_Decode line = Err e -> e <> ErrCorrupt ->
  callback cfg id file line off (c, l) =
    (withMetrics RecordError c,
     {| batch := batch l; currentOffset := off;
        batchesSinceCheckpoint := batchesSinceCheckpoint l |},
     Some e).
Proof.
  intros Hd Hne. unfold callback. rewrite Hd.
  by rewrite bool_decide_eq_false_2.
Qed.

(** The corrupt branch of the callback is taken by a decoder that returns
    the sentinel itself: the line is counted and skipped. *)
Lemma callback_sentinel_skips id file line off c l :
  parser_Decode line = Err ErrCorrupt ->
  callback cfg id file line off (c, l) =
    (withMetrics RecordCorrupt c,
     {| batch := batch l; currentOffset := off;
        batchesSinceCheckpoint := batchesSinceCheckpoint l |},
     None).
Proof. intros Hd. unfold callback. by rewrite Hd. Qed.

Lemma deliver_decode_error id file lines line off c l e :
  (line, off) ∈ lines -> parser_Decode line = Err e -> e <> ErrCorrupt ->
  exists err, (deliver cfg id file lines (c, l)).2 = Some err.
Proof.
  intros Hin Hd Hne. revert c l.
  induction lines as [|[line' off'] rest IH]; intros c l; [by apply elem_of_nil in Hin|].
  cbn [deliver].
  destruct (callback cfg id file line' off' (c, l)) as [[c' l'] [err|]] eqn:Hc; [eauto|].
  apply elem_of_cons in Hin as [[= <- <-]|Hin].
  - rewrite (callback_decode_error _ _ _ _ _ _ _ Hd Hne) in Hc. discriminate.
  - by apply IH.
Qed.

Lemma Stream_decode_error id file bucket offset line e :
  (forall w, exists off, (line, off) ∈ (streamer_Stream bucket (Key file) offset w).1) ->
  parser_Decode line = Err e -> e <> ErrCorrupt ->
  forall c l, exists err, (Stream cfg id file bucket offset (c, l)).2 = Some err.
Proof.
  intros Hall Hd Hne c l. unfold Stream.
  destruct (Hall (ext (emit (EvStream bucket (Key file) offset) c))) as (off & Hin).
  destruct (streamer_Stream bucket (Key file) offset
              (ext (emit (EvStream bucket (Key file) offset) c))) as [lines tailErr].
  destruct (deliver_decode_error id file lines line off
              (emit (EvStream bucket (Key file) offset) c) l e Hin Hd Hne) as (err & He).
  destruct (deliver cfg id file lines (emit (EvStream bucket (Key file) offset) c, l))
    as [[c' l'] [err'|]]; cbn [snd] in *; [eauto | discriminate].
Qed.

Lemma streamLoop_never_clean remaining retry id file bucket offset streamErr c l :
  (forall c l, exists err, (Stream cfg id file bucket offset (c, l)).2 = Some err) ->
  (remaining = 0%nat -> streamErr <> None) ->
  (streamLoop cfg remaining retry id file bucket offset streamErr (c, l)).2 <> inr None.
Proof.
  intros Hs. revert retry streamErr c l.
  induction remaining as [|remaining IH]; intros retry streamErr c l H0; cbn [streamLoop].
  - cbn. intros [= E]. by apply H0.
  - assert (Hgo : forall c0,
              (match Stream cfg id file bucket offset (c0, l) with
               | (c1, l0, Some err) =>
                   streamLoop cfg remaining (retry + 1) id file bucket offset
                     (Some err) (recordError id err c1, l0)
               | (c1, l0, None) => (c1, l0, inr None)
               end).2 <> inr None).
    { intros c0. destruct (Hs c0 l) as (err & He).
      destruct (Stream cfg id file bucket offset (c0, l)) as [[c1 l1] [e|]];
        cbn [snd] in He; [|discriminate].
      apply IH. intros _. discriminate. }
    destruct (0 <? retry).
    + match goal with |- context [ctx_wait ?d ?e] => destruct (ctx_wait d e) as [w [ctxerr|]] end;
        cbv beta iota zeta; [cbn; discriminate | apply Hgo].
    + cbv beta iota zeta. apply Hgo.
Qed.

(** C1, on the code as it is.  Whenever the JSON decoder rejects a line,
    with any error [e] it may return, the callback takes the error
    branch and not the corrupt branch: it adds one to the error counter,
    leaves the corrupt counter alone and returns [e].  A file whose
    stream holds such a line is never completed: the worker returns an
    error for it. *)
Theorem corrupt_line_is_fatal (id : Z) (file : FileMeta) (line : string) (off : Z)
    (c : Shared W) (l : Locals) (e : error) :
  Decode json_Unmarshal UnmarshalMapJSON line = Err e ->
  callback cfg id file line off (c, l) =
    (withMetrics RecordError c,
     {| batch := batch l; currentOffset := off;
        batchesSinceCheckpoint := batchesSinceCheckpoint l |},
     Some e) /\
  corruptCount (metrics (callback cfg id file line off (c, l)).1.1)
    = corruptCount (metrics c) /\
  (forall w state,
     store_Load (ext c) = (w, Ok state) ->
     completed file state = false ->
     (forall w', exists off',
        (line, off') ∈ (streamer_Stream (config.exportBucketName cfg) (Key file)
                          (resumeAt file state) w').1) ->
     exists err, (processFile cfg id file (c, l)).2 = Return err).
Proof.
  intros Hd.
  destruct (Decode_error_wraps _ _ _ _ Hd) as [_ Hne].
  rewrite <- parser_is_JSONDecoder in Hd.
  pose proof (callback_decode_error id file line off c l e Hd Hne) as Hc.
  split; [exact Hc|]. split; [by rewrite Hc|].
  intros w state HL Hcompl Hall.
  unfold processFile. rewrite ext_updateWorkerStatus, HL.
  fold (completed file state). rewrite Hcompl. fold (resumeAt file state).
  match goal with |- context [streamLoop cfg ?n ?r id file ?b ?o ?s (?x, ?y)] =>
    pose proof (streamLoop_never_clean n r id file b o s x y
                  (Stream_decode_error id file b o line e Hall Hd Hne)) as Hnc;
    destruct (streamLoop cfg n r id file b o s (x, y)) as [[c1 l1] [err|[err|]]]
  end; cbn [snd] in *; [eauto | eauto |].
  exfalso. apply Hnc; [discriminate | reflexivity].
Qed.
End CorruptLines.

(** C1, exercised: on [{"bogus":true}] the callback fails and counts an
    error, and the worker gives the file up. *)
Lemma corrupt_line_is_fatal_witness :
  let H := sample_restore.with_bogus in
  let c := sample_restore.start checkpoint.zeroState in
  let e := wrapError "corrupt line: no image data found" ErrCorrupt in
  (coordinator.callback sample_restore.cfg 0 sample_restore.file1 samples.line_bogus 45
     (c, sample_restore.noLocals)).2 = Some e /\
  metrics.corruptCount (coordinator.metrics
    (coordinator.callback sample_restore.cfg 0 sample_restore.file1 samples.line_bogus 45
       (c, sample_restore.noLocals)).1.1) = 0 /\
  exists err,
    (coordinator.processFile sample_restore.cfg 0 sample_restore.file1
       (c, sample_restore.noLocals)).2 = coordinator.Return err.
Proof.
  intros H c e.
  destruct (@corrupt_line_is_fatal _ H sample_restore.cfg samples.json_Unmarshal
              samples.UnmarshalMapJSON (fun _ => eq_refl) 0 sample_restore.file1
              samples.line_bogus 45 c sample_restore.noLocals e eq_refl) as (H1 & H2 & H3).
  split; [by rewrite H1|]. split; [exact H2|].
  apply (H3 (coordinator.ext c) checkpoint.zeroState eq_refl eq_refl).
  intros w'. exists 45. vm_compute. apply list_elem_of_In. right. left. reflexivity.
Defined.

(** The sample restore of the file with the corrupt line: three stream
    attempts, nothing written, nothing saved, and the worker fails. *)
Example worker_gives_up_on_bogus_line :
  let r := @coordinator.worker _ sample_restore.with_bogus sample_restore.cfg 0
             [sample_restore.file1] (sample_restore.start checkpoint.zeroState) in
  r.2 = Some (wrapError
                "failed to process file export/data/file1.json.gz after 3 retries: corrupt line: no image data found"
                (wrapError "corrupt line: no image data found" ErrCorrupt)) /\
  coordinator.trace r.1 =
    [coordinator.EvStream "bucket" "export/data/file1.json.gz" 0;
     coordinator.EvWait 2000000000;
     coordinator.EvStream "bucket" "export/data/file1.json.gz" 0;
     coordinator.EvWait 4000000000;
     coordinator.EvStream "bucket" "export/data/file1.json.gz" 0] /\
  metrics.corruptCount (coordinator.metrics r.1) = 0.
Proof. vm_compute. repeat split. Qed.

(** C6, exercised: a checkpoint at offset 30 of the file resumes there,
    and the completion sentinel skips the file. *)
Lemma processFile_resume_offset_witness :
  let H := sample_restore.clean in
  let at30 := {| checkpoint.ExportID := manifest.Key sample_restore.file1;
                 checkpoint.LastFile := manifest.Key sample_restore.file1;
                 checkpoint.LastByteOffset := 30 |} in
  let done := {| checkpoint.ExportID := manifest.Key sample_restore.file1;
                 checkpoint.LastFile := manifest.Key sample_restore.file1;
                 checkpoint.LastByteOffset := -1 |} in
  streamsAt (sample_restore.start at30)
    (coordinator.processFile sample_restore.cfg 0 sample_restore.file1
       (sample_restore.start at30, sample_restore.noLocals)).1.1
    ("bucket", manifest.Key sample_restore.file1, 30) /\
  coordinator.trace
    (coordinator.processFile sample_restore.cfg 0 sample_restore.file1
       (sample_restore.start done, sample_restore.noLocals)).1.1 = [] /\
  streamsAt (sample_restore.start checkpoint.zeroState)
    (coordinator.processFile sample_restore.cfg 0 sample_restore.file1
       (sample_restore.start checkpoint.zeroState, sample_restore.noLocals)).1.1
    ("bucket", manifest.Key sample_restore.file1, 0).
Proof.
  intros H at30 done. split; [|split].
  - refine (proj1 (proj2 (@processFile_resume_offset _ H sample_restore.cfg 0
              sample_restore.file1 (sample_restore.start at30) sample_restore.noLocals
              _ at30 eq_refl)) eq_refl _).
    vm_compute. discriminate.
  - exact (proj1 (proj1 (@processFile_resume_offset _ H sample_restore.cfg 0
              sample_restore.file1 (sample_restore.start done) sample_restore.noLocals
              _ done eq_refl) eq_refl eq_refl)).
  - refine (proj2 (proj2 (@processFile_resume_offset _ H sample_restore.cfg 0
              sample_restore.file1 (sample_restore.start checkpoint.zeroState)
              sample_restore.noLocals _ checkpoint.zeroState eq_refl)) _).
    vm_compute. discriminate.
Defined.

(** The sample restore of the clean file saves two states, and both carry
    the file's key as their [ExportID]. *)
Example worker_saves_on_sample :
  coordinator.saves
    (coordinator.trace
       (@coordinator.worker _ sample_restore.clean sample_restore.cfg 0
          [sample_restore.file1] (sample_restore.start checkpoint.zeroState)).1) =
  [ {| checkpoint.ExportID := "export/data/file1.json.gz";
       checkpoint.LastFile := "export/data/file1.json.gz";
       checkpoint.LastByteOffset := 185 |};
    {| checkpoint.ExportID := "export/data/file1.json.gz";
       checkpoint.LastFile := "export/data/file1.json.gz";
       checkpoint.LastByteOffset := -1 |} ].
Proof. vm_compute. reflexivity. Qed.

(** ** The checkpoint stores *)
Section CheckpointFacts.
Import checkpoint.
Variable json_Decode_State : string -> result State.
Variable GetObject : string -> string -> result string.

Lemma errors_As_here (isType : error -> bool) (err : error) :
  isType err = true -> errors_As isType err = true.
Proof. intros H. destruct err; cbn; by rewrite H. Qed.

(** C8. Loading a checkpoint that is not there gives the zero state and
    no error: from the local file store when the checkpoint file does not
    exist, and from the object store when [GetObject] fails with an error
    whose chain holds a [NoSuchKey] or a [NotFound]. *)
Theorem Load_absent_is_zero (fs : gmap string (result string)) (path bucket key : string)
    (err : error) :
  fs !! path = None ->
  GetObject bucket key = Err err ->
  errors_As isNoSuchKey err = true \/ errors_As isNotFound err = true ->
  FileStore_Load json_Decode_State fs path = Ok zeroState /\
  S3Store_Load json_Decode_State GetObject bucket key = Ok zeroState.
Proof.
  intros Hfs Hget Has. split.
  - unfold FileStore_Load, os_ReadFile. rewrite Hfs. reflexivity.
  - unfold S3Store_Load. rewrite Hget.
    destruct Has as [-> | ->]; [reflexivity|].
    by destruct (errors_As isNoSuchKey err).
Qed.

(** Any other failure of the fetch is handed on, wrapped. *)
Lemma S3Store_Load_other_error bucket key err :
  GetObject bucket key = Err err ->
  errors_As isNoSuchKey err = false -> errors_As isNotFound err = false ->
  S3Store_Load json_Decode_State GetObject bucket key
    = Err (Errorf_w "failed to get checkpoint" err).
Proof. intros Hget H1 H2. unfold S3Store_Load. by rewrite Hget, H1, H2. Qed.
End CheckpointFacts.

(** C8, exercised: an empty file system, and an object store that answers
    with the SDK's operation error around [NoSuchKey]. *)
Lemma Load_absent_is_zero_witness :
  checkpoint.FileStore_Load (fun _ => Err (errorString "unexpected end of JSON input"))
    ∅ "/tmp/checkpoints/restore.json" = Ok checkpoint.zeroState /\
  checkpoint.S3Store_Load (fun _ => Err (errorString "unexpected end of JSON input"))
    (fun _ _ => Err (OperationError "S3: GetObject" NoSuchKey))
    "bucket" "checkpoints/restore.json" = Ok checkpoint.zeroState.
Proof.
  exact (Load_absent_is_zero (fun _ => Err (errorString "unexpected end of JSON input"))
           (fun _ _ => Err (OperationError "S3: GetObject" NoSuchKey))
           ∅ "/tmp/checkpoints/restore.json" "bucket" "checkpoints/restore.json"
           (OperationError "S3: GetObject" NoSuchKey)
           eq_refl eq_refl (or_introl eq_refl)).
Defined.

(** ** Checksum verification *)
Section ChecksumFacts.
Import manifest.
Variable HeadObject : string -> string -> result (option string).

(** What [verifyFile] accepts: the metadata is there with an ETag, the
    checksum is Base64, and the ETag without its quotes is the lower-case
    hex of the checksum, letter for letter. *)
Definition fileMatches (bucket : string) (file : FileMeta) : Prop :=
  exists respETag md5Bytes,
    HeadObject bucket (Key file) = Ok (Some respETag) /\
    base64_DecodeString (MD5Base64 file) = Ok md5Bytes /\
    Trim "034"%char respETag = hex_encode md5Bytes.

Lemma verifyFile_matches bucket file :
  fileMatches bucket file -> verifyFile HeadObject bucket file = None.
Proof.
  intros (respETag & md5Bytes & Hh & Hb & Ht). unfold verifyFile.
  rewrite Hh, Hb. by rewrite bool_decide_eq_false_2 by (intros Hne; by apply Hne).
Qed.

Lemma verifyFiles_prefix bucket pre rest :
  Forall (fileMatches bucket) pre ->
  verifyFiles HeadObject bucket (pre ++ rest) =
    ((Key <$> pre) ++ (verifyFiles HeadObject bucket rest).1,
     (verifyFiles HeadObject bucket rest).2).
Proof.
  induction 1 as [|file pre Hm _ IH]; cbn [verifyFiles app fmap list_fmap].
  - by destruct (verifyFiles HeadObject bucket rest).
  - rewrite (verifyFile_matches _ _ Hm), IH. reflexivity.
Qed.

(** [s] has no character [c]. *)
Fixpoint lacks (c : ascii) (s : string) : bool :=
  match s with
  | EmptyString => true
  | String a rest => negb (bool_decide (a = c)) && lacks c rest
  end.

Lemma TrimRight_lacks c s : lacks c s = true -> TrimRight c s = s.
Proof.
  induction s as [|a s IH]; [done|]. cbn [lacks TrimRight].
  intros [Ha Hs]%andb_true_iff. rewrite (IH Hs).
  destruct s; [|done].
  apply negb_true_iff in Ha. by rewrite Ha.
Qed.

Lemma append_cons a s t : String a s +:+ t = String a (s +:+ t).
Proof. reflexivity. Qed.

Lemma append_nil t : EmptyString +:+ t = t.
Proof. reflexivity. Qed.

Lemma TrimRight_snoc c s : TrimRight c (s +:+ String c EmptyString) = TrimRight c s.
Proof.
  induction s as [|a s IH].
  - rewrite append_nil. cbn [TrimRight]. by rewrite bool_decide_eq_true_2.
  - rewrite append_cons. cbn [TrimRight]. by rewrite IH.
Qed.

Lemma hex_digit_not_quote n : 0 <= n < 16 -> hex_digit n <> "034"%char.
Proof.
  intros Hn. replace n with (Z.of_nat (Z.to_nat n)) by lia.
  assert (Hm : (Z.to_nat n < 16)%nat) by lia.
  generalize dependent (Z.to_nat n). clear Hn. intros m Hm.
  do 16 (destruct m as [|m]; [vm_compute; discriminate|]). lia.
Qed.

Lemma hex_encode_lacks bs : lacks "034"%char (hex_encode bs) = true.
Proof.
  induction bs as [|b bs IH]; [done|]. cbn [hex_encode lacks].
  assert (Hb : 0 <= Z.of_N (N_of_ascii b) < 256).
  { pose proof (N_ascii_bounded b). lia. }
  rewrite !bool_decide_eq_false_2, IH; [done | |].
  - apply hex_digit_not_quote. apply Z.mod_pos_bound. lia.
  - apply hex_digit_not_quote. split; [apply Z.div_pos; lia|].
    apply Z.div_lt_upper_bound; lia.
Qed.

Lemma TrimLeft_lacks c s : lacks c s = true -> TrimLeft c s = s.
Proof.
  destruct s as [|a s]; [done|]. cbn [lacks TrimLeft].
  intros [Ha _]%andb_true_iff. apply negb_true_iff in Ha. by rewrite Ha.
Qed.

(** The second comparison of [verifyFile], against the quoted hex, never
    accepts what the first one refused. *)
Lemma Trim_quoted_hex bs :
  Trim "034"%char (dquote +:+ hex_encode bs +:+ dquote) = hex_encode bs.
Proof.
  unfold Trim, dquote. rewrite append_cons, append_nil. cbn [TrimLeft].
  rewrite bool_decide_eq_true_2 by done.
  pose proof (hex_encode_lacks bs) as Hl.
  destruct (hex_encode bs) as [|a h] eqn:E.
  - rewrite append_nil. cbn [TrimLeft TrimRight]. by rewrite bool_decide_eq_true_2.
  - rewrite append_cons. cbn [TrimLeft]. cbn [lacks] in Hl.
    apply andb_true_iff in Hl as [Ha Hh]. apply negb_true_iff in Ha. rewrite Ha.
    rewrite <- append_cons.
    rewrite TrimRight_snoc. apply TrimRight_lacks. cbn [lacks]. by rewrite Ha, Hh.
Qed.

Lemma verifyFile_mismatch bucket file respETag md5Bytes :
  HeadObject bucket (Key file) = Ok (Some respETag) ->
  base64_DecodeString (MD5Base64 file) = Ok md5Bytes ->
  Trim "034"%char respETag <> hex_encode md5Bytes ->
  verifyFile HeadObject bucket file =
    Some (errorString ("checksum mismatch for data file " +:+ Key file +:+
                       ": expected " +:+ hex_encode md5Bytes +:+ ", got " +:+
                       Trim "034"%char respETag)).
Proof.
  intros Hh Hb Hne. unfold verifyFile. rewrite Hh, Hb.
  rewrite bool_decide_eq_true_2 by done.
  rewrite bool_decide_eq_true_2; [done|].
  intros ->. apply Hne, Trim_quoted_hex.
Qed.

(** When every file matches, every file is fetched and there is no error. *)
Lemma VerifyChecksums_all_match summary :
  S3Bucket summary <> EmptyString ->
  Forall (fileMatches (S3Bucket summary)) (DataFiles summary) ->
  VerifyChecksums HeadObject summary = (Key <$> DataFiles summary, None).
Proof.
  intros Hb Hall. unfold VerifyChecksums. rewrite bool_decide_eq_false_2 by done.
  rewrite <- (app_nil_r (DataFiles summary)) at 1.
  rewrite (verifyFiles_prefix _ _ _ Hall). cbn. by rewrite app_nil_r.
Qed.

(** C7, as the code has it.  The files are taken in manifest order; for
    each one the metadata is fetched, the checksum is decoded from Base64
    and written as lower-case hex, and that string is compared, letter
    for letter, with the ETag without its quotes.  At the first file
    whose ETag differs the verification stops with a checksum-mismatch
    error: the files after it are not fetched. *)
Theorem VerifyChecksums_first_mismatch (summary : Summary) (pre post : list FileMeta)
    (file : FileMeta) (respETag : string) (md5Bytes : list ascii) :
  S3Bucket summary <> EmptyString ->
  DataFiles summary = pre ++ file :: post ->
  Forall (fileMatches (S3Bucket summary)) pre ->
  HeadObject (S3Bucket summary) (Key file) = Ok (Some respETag) ->
  base64_DecodeString (MD5Base64 file) = Ok md5Bytes ->
  Trim "034"%char respETag <> hex_encode md5Bytes ->
  VerifyChecksums HeadObject summary =
    ((Key <$> pre) ++ [Key file],
     Some (errorString ("checksum mismatch for data file " +:+ Key file +:+
                        ": expected " +:+ hex_encode md5Bytes +:+ ", got " +:+
                        Trim "034"%char respETag))).
Proof.
  intros Hb Hfiles Hpre Hh Hd Hne. unfold VerifyChecksums.
  rewrite bool_decide_eq_false_2 by done. rewrite Hfiles.
  rewrite (verifyFiles_prefix _ _ _ Hpre). cbn [verifyFiles].
  by rewrite (verifyFile_mismatch _ _ _ _ Hh Hd Hne).
Qed.
End ChecksumFacts.

(** C7 as the specification words it fails: an ETag that is the hex of the
    checksum in upper case matches case-insensitively, and the code
    rejects it with a checksum mismatch. *)
Lemma VerifyChecksums_is_case_sensitive :
  manifest.spec_checksum_matches sample_manifest.etag_upper
    (manifest.MD5Base64 sample_restore.file1) = true /\
  manifest.VerifyChecksums sample_manifest.HeadObject_upper sample_manifest.summary =
    (["export/data/file1.json.gz"],
     Some (errorString
       "checksum mismatch for data file export/data/file1.json.gz: expected d41d8cd98f00b204e9800998ecf8427e, got D41D8CD98F00B204E9800998ECF8427E")).
Proof. vm_compute. split; reflexivity. Qed.

(** C7, exercised: the first file has another ETag; the second is never
    fetched. *)
Lemma VerifyChecksums_first_mismatch_witness :
  manifest.VerifyChecksums sample_manifest.HeadObject_other sample_manifest.summary =
    (["export/data/file1.json.gz"],
     Some (errorString
       "checksum mismatch for data file export/data/file1.json.gz: expected d41d8cd98f00b204e9800998ecf8427e, got 9e107d9d372bb6826bd81d3542a419d6")).
Proof.
  refine (VerifyChecksums_first_mismatch sample_manifest.HeadObject_other
            sample_manifest.summary [] [sample_manifest.file2] sample_restore.file1
            sample_manifest.etag_other
            (String.list_ascii_of_string
               (String "212" (String "029" (String "140" (String "217"
               (String "143" (String "000" (String "178" (String "004"
               (String "233" (String "128" (String "009" (String "152"
               (String "236" (String "248" (String "066" (String "126"
                EmptyString)))))))))))))))))
            _ eq_refl (List.Forall_nil _) eq_refl eq_refl _).
  - discriminate.
  - vm_compute. discriminate.
Defined.

(** ** The writer: the UPDATE translation *)
Section UpdateFacts.
Import itemimage writer.
Variable rangeOrder : forall V, gmap string V -> list (string * V).
(** Whatever the order, a [range] visits every entry of the map once. *)
Hypothesis rangeOrder_perm :
  forall V (m : gmap string V), rangeOrder V m ≡ₚ map_to_list m.
Variable tableName : string.

Local Abbreviation gorange := (gorange rangeOrder).
Local Abbreviation updateParts := (updateParts rangeOrder).

Definition notKey (keys : GoMap AttributeValue) (k : string) : Prop :=
  gohas k keys = false.

#[local] Instance notKey_dec keys k : Decision (notKey keys k).
Proof. unfold notKey. apply _. Defined.

Lemma gorange_NoDup {V} (m : GoMap V) : NoDup (gorange m).*1.
Proof.
  destruct m as [g|]; cbn; [|constructor].
  rewrite (rangeOrder_perm V g). apply NoDup_fst_map_to_list.
Qed.

Lemma gorange_elem {V} (m : GoMap V) k v : (k, v) ∈ gorange m <-> golookup k m = Some v.
Proof.
  destruct m as [g|]; cbn.
  - rewrite (rangeOrder_perm V g). apply elem_of_map_to_list.
  - split; [by intros ?%elem_of_nil | discriminate].
Qed.

Lemma gorange_elem_fst {V} (m : GoMap V) k : k ∈ (gorange m).*1 <-> is_Some (golookup k m).
Proof.
  rewrite list_elem_of_fmap. split.
  - intros ([k' v] & -> & Hin). apply gorange_elem in Hin. eauto.
  - intros [v Hv]. exists (k, v). split; [done|]. by apply gorange_elem.
Qed.

Lemma gohas_false {V} k (m : GoMap V) : gohas k m = false <-> golookup k m = None.
Proof.
  unfold gohas. rewrite bool_decide_eq_false, <- eq_None_not_Some. done.
Qed.

(** *** The loop over the new image *)

Lemma newImage_fold_exprs keys kvs p :
  setExpr (foldl (newImageStep keys) p kvs)
    = setExpr p ++ (setClause <$> filter (notKey keys) kvs.*1) /\
  removeExpr (foldl (newImageStep keys) p kvs) = removeExpr p.
Proof.
  revert p. induction kvs as [|[k v] kvs IH]; intros p; cbn [foldl fmap list_fmap].
  - by rewrite app_nil_r.
  - destruct (IH (newImageStep keys p (k, v))) as [-> ->].
    unfold newImageStep.
    destruct (decide (notKey keys k)) as [Hk|Hk].
    + rewrite (filter_cons_True _ _ _ Hk). unfold notKey in Hk.
      rewrite Hk. cbn. by rewrite <- app_assoc.
    + rewrite (filter_cons_False _ _ _ Hk). unfold notKey in Hk.
      apply not_false_is_true in Hk. by rewrite Hk.
Qed.

Lemma newImage_fold_other keys kvs p k :
  k ∉ filter (notKey keys) kvs.*1 ->
  modifiedAttrs (foldl (newImageStep keys) p kvs) !! k = modifiedAttrs p !! k /\
  values (foldl (newImageStep keys) p kvs) !! (":" +:+ k) = values p !! (":" +:+ k) /\
  names (foldl (newImageStep keys) p kvs) !! ("#" +:+ k) = names p !! ("#" +:+ k).
Proof.
  revert p. induction kvs as [|[k' v'] kvs IH]; intros p Hk; cbn [foldl]; [done|].
  cbn [fmap list_fmap] in Hk.
  destruct (decide (notKey keys k')) as [Hk'|Hk'];
    [rewrite (filter_cons_True _ _ _ Hk') in Hk | rewrite (filter_cons_False _ _ _ Hk') in Hk];
    unfold notKey in Hk'.
  - apply not_elem_of_cons in Hk as [Hne Hk]. destruct (IH (newImageStep keys p (k', v')) Hk)
      as (-> & -> & ->).
    unfold newImageStep. rewrite Hk'. cbn.
    rewrite !lookup_insert_ne; [done | | |];
      rewrite ?append_cons, ?append_nil; congruence.
  - destruct (IH (newImageStep keys p (k', v')) Hk) as (-> & -> & ->).
    unfold newImageStep. apply not_false_is_true in Hk'. by rewrite Hk'.
Qed.

Lemma newImage_fold_set keys kvs p k v :
  NoDup kvs.*1 -> (k, v) ∈ kvs -> notKey keys k ->
  modifiedAttrs (foldl (newImageStep keys) p kvs) !! k = Some true /\
  values (foldl (newImageStep keys) p kvs) !! (":" +:+ k) = Some v /\
  names (foldl (newImageStep keys) p kvs) !! ("#" +:+ k) = Some k.
Proof.
  revert p. induction kvs as [|[k' v'] kvs IH]; intros p Hnd Hin Hk; cbn [foldl].
  { by apply elem_of_nil in Hin. }
  cbn [fmap list_fmap] in Hnd. apply NoDup_cons in Hnd as [Hfresh Hnd].
  apply elem_of_cons in Hin as [[= <- <-]|Hin].
  - assert (Hout : k ∉ filter (notKey keys) kvs.*1).
    { intros Hf%list_elem_of_filter. tauto. }
    destruct (newImage_fold_other keys kvs (newImageStep keys p (k, v)) k Hout)
      as (-> & -> & ->).
    unfold newImageStep. unfold notKey in Hk. rewrite Hk. cbn.
    by rewrite !lookup_insert_eq.
  - by apply IH.
Qed.

(** *** The loop over the old image *)

Definition removable (keys : GoMap AttributeValue) (modified : gmap string bool)
    (k : string) : Prop :=
  gohas k keys = false /\ default false (modified !! k) = false.

#[local] Instance removable_dec keys modified k : Decision (removable keys modified k).
Proof. unfold removable. apply _. Defined.

Lemma oldImage_fold keys kvs p :
  setExpr (foldl (oldImageStep keys) p kvs) = setExpr p /\
  values (foldl (oldImageStep keys) p kvs) = values p /\
  modifiedAttrs (foldl (oldImageStep keys) p kvs) = modifiedAttrs p /\
  removeExpr (foldl (oldImageStep keys) p kvs)
    = removeExpr p ++ (removeClause <$> filter (removable keys (modifiedAttrs p)) kvs.*1) /\
  (forall k, (k ∈ filter (removable keys (modifiedAttrs p)) kvs.*1 \/
              names p !! ("#" +:+ k) = Some k) ->
             names (foldl (oldImageStep keys) p kvs) !! ("#" +:+ k) = Some k).
Proof.
  revert p. induction kvs as [|[k v] kvs IH]; intros p; cbn [foldl fmap list_fmap].
  - rewrite app_nil_r. repeat split. intros k [Hin|Hn]; [by apply elem_of_nil in Hin | done].
  - destruct (IH (oldImageStep keys p (k, v))) as (-> & -> & -> & -> & Hnames).
    assert (Hmod : modifiedAttrs (oldImageStep keys p (k, v)) = modifiedAttrs p).
    { unfold oldImageStep. by repeat case_match. }
    rewrite Hmod in *.
    destruct (decide (removable keys (modifiedAttrs p) k)) as [Hr|Hk].
    + rewrite (filter_cons_True _ _ _ Hr). destruct Hr as [Hk Hm].
      unfold oldImageStep at 1 2 3. rewrite Hk, Hm. cbn.
      rewrite <- app_assoc. repeat split.
      intros k' Hor. apply Hnames.
      destruct Hor as [[->|Hin]%elem_of_cons|Hn]; [right | by left | right].
      * unfold oldImageStep. rewrite Hk, Hm. cbn. by rewrite lookup_insert_eq.
      * unfold oldImageStep. rewrite Hk, Hm. cbn.
        destruct (decide (k = k')) as [->|Hne]; [by rewrite lookup_insert_eq|].
        rewrite lookup_insert_ne; [done | rewrite ?append_cons, ?append_nil; congruence].
    + rewrite (filter_cons_False _ _ _ Hk).
      assert (Hsame : oldImageStep keys p (k, v) = p).
      { unfold oldImageStep. unfold removable in Hk.
        destruct (gohas k keys); [done|].
        destruct (default false (modifiedAttrs p !! k)); [done|]. exfalso. by apply Hk. }
      rewrite Hsame in *. repeat split. exact Hnames.
Qed.

(** C5. The attributes of the SET clauses are exactly those of the new
    image that are not key attributes, each once, with the name
    placeholder bound to the attribute and the value placeholder to its
    new value; the attributes of the REMOVE clauses are exactly those of
    the old image that are neither key attributes nor in the new image,
    each once, with their name placeholders; and when there is no clause
    of either kind [updateItem] returns nil without a call: the answers
    of the environment and the trace are as before. *)
Theorem updateItem_translation (op : Operation) :
  exists sets removes : list string,
    NoDup sets /\ NoDup removes /\
    setExpr (updateParts op) = setClause <$> sets /\
    removeExpr (updateParts op) = removeClause <$> removes /\
    (forall k, k ∈ sets <->
       is_Some (golookup k (NewImage op)) /\ golookup k (Keys op) = None) /\
    (forall k, k ∈ removes <->
       is_Some (golookup k (OldImage op)) /\ golookup k (Keys op) = None /\
       golookup k (NewImage op) = None) /\
    (forall k, k ∈ sets ->
       names (updateParts op) !! ("#" +:+ k) = Some k /\
       values (updateParts op) !! (":" +:+ k) = golookup k (NewImage op)) /\
    (forall k, k ∈ removes -> names (updateParts op) !! ("#" +:+ k) = Some k) /\
    (sets = [] -> removes = [] ->
       forall replies w,
         updateItem rangeOrder tableName op replies w = (replies, w, Returns None)).
Proof.
  set (p0 := {| setExpr := []; removeExpr := []; values := ∅; names := ∅;
                modifiedAttrs := ∅ |}).
  set (p1 := foldl (newImageStep (Keys op)) p0 (gorange (NewImage op))).
  set (sets := filter (notKey (Keys op)) (gorange (NewImage op)).*1).
  set (removes := filter (removable (Keys op) (modifiedAttrs p1)) (gorange (OldImage op)).*1).
  assert (Hparts : updateParts op = foldl (oldImageStep (Keys op)) p1 (gorange (OldImage op)))
    by reflexivity.
  destruct (newImage_fold_exprs (Keys op) (gorange (NewImage op)) p0) as [Hset1 Hrem1].
  destruct (oldImage_fold (Keys op) (gorange (OldImage op)) p1)
    as (Hset2 & Hval2 & _ & Hrem2 & Hnames2).
  fold p1 in Hset1, Hrem1. fold sets in Hset1. fold removes in Hrem2, Hnames2.
  assert (Hsets : forall k, k ∈ sets <->
            is_Some (golookup k (NewImage op)) /\ golookup k (Keys op) = None).
  { intros k. unfold sets. rewrite list_elem_of_filter, gorange_elem_fst.
    unfold notKey. rewrite gohas_false. tauto. }
  assert (Hmod : forall k, default false (modifiedAttrs p1 !! k) = false <-> k ∉ sets).
  { intros k. destruct (decide (k ∈ sets)) as [Hin|Hout].
    - pose proof Hin as Hin'. unfold sets in Hin'.
      apply list_elem_of_filter in Hin' as [Hnk [[k' v] [Hk Hkv]]%list_elem_of_fmap].
      cbn in Hk. subst k'.
      destruct (newImage_fold_set (Keys op) _ p0 k v (gorange_NoDup _) Hkv Hnk) as (Hm & _).
      fold p1 in Hm. rewrite Hm. cbn. split; [discriminate | done].
    - destruct (newImage_fold_other (Keys op) _ p0 k Hout) as (Hm & _).
      fold p1 in Hm. rewrite Hm. cbn. split; done. }
  assert (Hpick : forall k, k ∈ sets ->
            exists v, (k, v) ∈ gorange (NewImage op) /\ notKey (Keys op) k).
  { intros k Hin. unfold sets in Hin.
    apply list_elem_of_filter in Hin as [Hnk [[k' v] [Hk Hkv]]%list_elem_of_fmap].
    cbn in Hk. subst k'. eauto. }
  exists sets, removes. split_and!.
  - apply NoDup_filter, gorange_NoDup.
  - apply NoDup_filter, gorange_NoDup.
  - by rewrite Hparts, Hset2, Hset1.
  - by rewrite Hparts, Hrem2, Hrem1.
  - exact Hsets.
  - intros k. unfold removes. rewrite list_elem_of_filter, gorange_elem_fst.
    unfold removable. rewrite gohas_false, Hmod, Hsets. split.
    + intros [[Hk Hn] Ho]. split_and!; [done..|].
      destruct (golookup k (NewImage op)) eqn:E; [|done]. exfalso. apply Hn. eauto.
    + intros (Ho & Hk & Hn). split_and!; [done| |done].
      rewrite Hn. intros [[? ?] _]. discriminate.
  - intros k Hin. destruct (Hpick k Hin) as (v & Hkv & Hnk).
    destruct (newImage_fold_set (Keys op) _ p0 k v (gorange_NoDup _) Hkv Hnk)
      as (_ & Hv & Hn).
    fold p1 in Hv, Hn. split.
    + rewrite Hparts. apply Hnames2. by right.
    + rewrite Hparts, Hval2, Hv. symmetry. by apply gorange_elem.
  - intros k Hin. rewrite Hparts. apply Hnames2. by left.
  - intros Hs Hr replies w. unfold updateItem.
    change (writer.updateParts rangeOrder op) with (updateParts op).
    rewrite Hparts, Hset2, Hrem2, Hset1, Hrem1, Hs, Hr. reflexivity.
Qed.
End UpdateFacts.

(** The request [updateItem] builds for the sample update. *)
Example updateInput_sample :
  let p := writer.updateParts sample_writer.order sample_writer.update1 in
  writer.updateInput "table" sample_writer.update1 p =
    {| writer.TableName := "table";
       writer.Key := Some samples.map_pk1;
       writer.UpdateExpression := "SET #name = :name REMOVE #city";
       writer.ExpressionAttributeNames := Some {[ "#name" := "name"; "#city" := "city" ]};
       writer.ExpressionAttributeValues := Some {[ ":name" := AttributeValueMemberS "new" ]} |}.
Proof. vm_compute. reflexivity. Qed.

(** An update that changes nothing makes no call. *)
Example updateItem_keys_only_no_call (replies : list (option error)) (w : writer.World) :
  writer.updateItem sample_writer.order "table" sample_writer.update_keys_only replies w
    = (replies, w, writer.Returns None).
Proof. vm_compute. reflexivity. Qed.

(** C5, exercised on the sample update. *)
Lemma updateItem_translation_witness :
  exists sets removes : list string,
    NoDup sets /\ NoDup removes /\
    writer.setExpr (writer.updateParts sample_writer.order sample_writer.update1)
      = writer.setClause <$> sets /\
    writer.removeExpr (writer.updateParts sample_writer.order sample_writer.update1)
      = writer.removeClause <$> removes /\
    (forall k, k ∈ sets <->
       is_Some (golookup k (itemimage.NewImage sample_writer.update1)) /\
       golookup k (itemimage.Keys sample_writer.update1) = None) /\
    (forall k, k ∈ removes <->
       is_Some (golookup k (itemimage.OldImage sample_writer.update1)) /\
       golookup k (itemimage.Keys sample_writer.update1) = None /\
       golookup k (itemimage.NewImage sample_writer.update1) = None) /\
    (forall k, k ∈ sets ->
       writer.names (writer.updateParts sample_writer.order sample_writer.update1)
         !! ("#" +:+ k) = Some k /\
       writer.values (writer.updateParts sample_writer.order sample_writer.update1)
         !! (":" +:+ k) = golookup k (itemimage.NewImage sample_writer.update1)) /\
    (forall k, k ∈ removes ->
       writer.names (writer.updateParts sample_writer.order sample_writer.update1)
         !! ("#" +:+ k) = Some k) /\
    (sets = [] -> removes = [] ->
       forall replies w,
         writer.updateItem sample_writer.order "table" sample_writer.update1 replies w
           = (replies, w, writer.Returns None)).
Proof.
  exact (updateItem_translation sample_writer.order sample_writer.order_perm "table"
           sample_writer.update1).
Defined.

(** ** The configuration *)

(** A configuration that [Validate] accepts has a batch size from 1 to 25. *)
Lemma Validate_batchSize (url_Parse : string -> result (string * string))
    (c : config.Config) :
  (config.Validate url_Parse c).2 = None ->
  1 <= config.BatchSize (config.Validate url_Parse c).1 <= 25.
Proof.
  unfold config.Validate.
  repeat (case_match; try (cbn; discriminate)).
  intros _. cbn.
  match goal with
  | H : (config.BatchSize _ <? 1) || _ = false |- _ =>
      cbn in H; apply orb_false_iff in H as [Hlo Hhi]
  end.
  apply Z.ltb_ge in Hlo, Hhi. lia.
Qed.

(** ** The writer: batches and retries *)
Section WriterFacts.
Import itemimage writer.
Variable rangeOrder : forall V, gmap string V -> list (string * V).
Variable tableName : string.
Variable batchSize : Z.

Local Abbreviation updateItem := (updateItem rangeOrder tableName).
Local Abbreviation convert := (convert rangeOrder tableName).
Local Abbreviation batchLoop := (batchLoop rangeOrder tableName batchSize).
Local Abbreviation WriteBatch := (WriteBatch rangeOrder tableName batchSize).

(** [t'] is [t] and then events that all satisfy [P]. *)
Definition grows (P : Event -> Prop) (t t' : list Event) : Prop :=
  exists new, t' = t ++ new /\ Forall P new.

Lemma grows_refl P t : grows P t t.
Proof. exists []. by rewrite app_nil_r. Qed.

Lemma grows_trans P t1 t2 t3 : grows P t1 t2 -> grows P t2 t3 -> grows P t1 t3.
Proof.
  intros (n1 & -> & F1) (n2 & -> & F2). exists (n1 ++ n2).
  rewrite app_assoc. split; [done | by apply Forall_app].
Qed.

Lemma grows_emit P ev w : P ev -> grows P (trace w) (trace (emit ev w)).
Proof. intros HP. exists [ev]. split; [done | by repeat constructor]. Qed.

(** Inside a sub-batch: no new sub-batch starts, and a batched call
    carries at most [n] requests. *)
Definition inBatch (n : nat) (ev : Event) : Prop :=
  match ev with
  | EvSubBatch _ => False
  | EvBatchWriteItem input => (requestCount (RequestItems input) <= n)%nat
  | _ => True
  end.

Lemma backoffWait_grows n attempt w :
  grows (inBatch n) (trace w) (trace (backoffWait attempt w).1).
Proof.
  unfold backoffWait. destruct (waits w) as [|reply rest].
  - case_match; apply grows_refl.
  - destruct (rand_Int64N _ _); [|apply grows_refl].
    cbn. exists [EvBackoff attempt (int64_wrap (backoffDelay attempt + z))].
    split; [done | by repeat constructor].
Qed.

Lemma updateRetry_grows n replies input attempt w :
  grows (inBatch n) (trace w) (trace (updateRetry replies input attempt w).1.2).
Proof.
  revert attempt w. induction replies as [|reply replies IH]; intros attempt w; cbn [updateRetry].
  - apply grows_refl.
  - assert (Hgo : grows (inBatch n) (trace w)
              (trace (match backoffWait attempt (emit (EvUpdateItem input) w) with
                      | (w0, inl stop) => (replies, w0, stop)
                      | (w0, inr (Some ctxerr)) => (replies, w0, Returns (Some ctxerr))
                      | (w0, inr None) =>
                          updateRetry replies input (int64_wrap (attempt + 1)) w0
                      end).1.2)).
    { pose proof (backoffWait_grows n attempt (emit (EvUpdateItem input) w)) as Hb.
      destruct (backoffWait attempt (emit (EvUpdateItem input) w)) as [w0 [stop|[ctxerr|]]];
        cbn [fst snd] in *;
        (eapply grows_trans; [by apply (grows_emit _ (EvUpdateItem input))|]);
        [exact Hb | exact Hb | eapply grows_trans; [exact Hb | apply IH]]. }
    destruct reply as [err|]; [|by apply (grows_emit _ (EvUpdateItem input))].
    destruct (isThrottlingError err); [exact Hgo|].
    destruct (attempt <? maxRetries); [exact Hgo|].
    by apply (grows_emit _ (EvUpdateItem input)).
Qed.

Lemma updateItem_grows n op replies w :
  grows (inBatch n) (trace w) (trace (updateItem op replies w).1.2).
Proof.
  unfold writer.updateItem. case_match; [apply grows_refl | apply updateRetry_grows].
Qed.

Lemma convert_grows n batch requests ui w :
  grows (inBatch n) (trace w) (trace (convert batch requests ui w).1.2) /\
  (length (convert batch requests ui w).1.1.1 <= length requests + length batch)%nat.
Proof.
  revert requests ui w. induction batch as [|op rest IH]; intros requests ui w;
    cbn [writer.convert].
  - split; [apply grows_refl | cbn; lia].
  - destruct (Type_ op).
    + destruct (IH (requests ++ [PutRequest (NewImage op)]) ui w) as [Hg Hl].
      split; [exact Hg|]. rewrite length_app in Hl. cbn in *. lia.
    + destruct (IH (requests ++ [DeleteRequest (Keys op)]) ui w) as [Hg Hl].
      split; [exact Hg|]. rewrite length_app in Hl. cbn in *. lia.
    + pose proof (updateItem_grows n op ui w) as Hu.
      destruct (updateItem op ui w) as [[ui' w'] [[err|]| | |]]; cbn [fst snd length] in *;
        try (split; [exact Hu | lia]).
      destruct (IH requests ui' w') as [Hg Hl].
      split; [eapply grows_trans; eauto | lia].
Qed.

(** A service that only hands back, as unprocessed, requests it was sent. *)
Definition subsetReply (reply : BatchReply) : Prop :=
  forall input output, reply input = Ok output ->
    (requestCount (UnprocessedItems output) <= requestCount (RequestItems input))%nat.

Lemma writeRetry_grows n replies input attempt w :
  Forall subsetReply replies ->
  (requestCount (RequestItems input) <= n)%nat ->
  grows (inBatch n) (trace w) (trace (writeRetry replies input attempt w).1.2) /\
  Forall subsetReply (writeRetry replies input attempt w).1.1.
Proof.
  intros Hsub. revert input attempt w.
  induction Hsub as [|reply replies Hr Hsub IH]; intros input attempt w Hn; cbn [writeRetry].
  - split; [apply grows_refl | constructor].
  - assert (Hgo : forall input', (requestCount (RequestItems input') <= n)%nat ->
              let r := match backoffWait attempt (emit (EvBatchWriteItem input) w) with
                       | (w0, inl stop) => (replies, w0, stop)
                       | (w0, inr (Some ctxerr)) => (replies, w0, Returns (Some ctxerr))
                       | (w0, inr None) =>
                           writeRetry replies input' (int64_wrap (attempt + 1)) w0
                       end in
              grows (inBatch n) (trace w) (trace r.1.2) /\ Forall subsetReply r.1.1).
    { intros input' Hn'.
      pose proof (backoffWait_grows n attempt (emit (EvBatchWriteItem input) w)) as Hb.
      destruct (backoffWait attempt (emit (EvBatchWriteItem input) w))
        as [w0 [stop|[ctxerr|]]]; cbn [fst snd] in *.
      - split; [|done]. eapply grows_trans; [by apply (grows_emit _ (EvBatchWriteItem input))|done].
      - split; [|done]. eapply grows_trans; [by apply (grows_emit _ (EvBatchWriteItem input))|done].
      - destruct (IH input' (int64_wrap (attempt + 1)) w0 Hn') as [Hg Hf].
        split; [|done].
        eapply grows_trans; [by apply (grows_emit _ (EvBatchWriteItem input))|].
        eapply grows_trans; eauto. }
    destruct (reply input) as [output|err] eqn:Hreply.
    + destruct (bool_decide (golen (UnprocessedItems output) ≠ 0%nat)).
      * apply Hgo. cbn. specialize (Hr _ _ Hreply). lia.
      * split; [by apply (grows_emit _ (EvBatchWriteItem input)) | done].
    + destruct (isThrottlingError err); [by apply Hgo|].
      destruct (attempt <? maxRetries); [by apply Hgo|].
      split; [by apply (grows_emit _ (EvBatchWriteItem input)) | done].
Qed.

(** *** Outcomes of the inner loops: they never are the divergence of the
    outer loop. *)

Ltac other_outcome := let H := fresh in cbn [snd]; intros H; inversion H.

Lemma backoffWait_stop attempt w w' stop :
  backoffWait attempt w = (w', inl stop) ->
  stop = Panics "invalid argument to Int64N" \/ stop = Blocks.
Proof.
  unfold backoffWait. destruct (waits w) as [|r rest].
  - destruct (backoffDelay attempt <=? 0); intros [= _ <-]; auto.
  - destruct (rand_Int64N _ _); intros [= _ <-]. auto.
Qed.

Lemma updateRetry_ends replies input attempt w :
  (updateRetry replies input attempt w).2 <> Diverges.
Proof.
  revert attempt w. induction replies as [|reply replies IH]; intros attempt w;
    cbn [updateRetry]; [other_outcome|].
  assert (Hgo : (match backoffWait attempt (emit (EvUpdateItem input) w) with
                 | (w0, inl stop) => (replies, w0, stop)
                 | (w0, inr (Some ctxerr)) => (replies, w0, Returns (Some ctxerr))
                 | (w0, inr None) => updateRetry replies input (int64_wrap (attempt + 1)) w0
                 end).2 <> Diverges).
  { destruct (backoffWait attempt (emit (EvUpdateItem input) w))
      as [w0 [stop|[ctxerr|]]] eqn:Hb; [|other_outcome | apply IH].
    apply backoffWait_stop in Hb as [-> | ->]; other_outcome. }
  destruct reply as [err|]; [|other_outcome].
  destruct (isThrottlingError err); [exact Hgo|].
  destruct (attempt <? maxRetries); [exact Hgo | other_outcome].
Qed.

Lemma writeRetry_ends replies input attempt w :
  (writeRetry replies input attempt w).2 <> Diverges.
Proof.
  revert input attempt w. induction replies as [|reply replies IH]; intros input attempt w;
    cbn [writeRetry]; [other_outcome|].
  assert (Hgo : forall input',
            (match backoffWait attempt (emit (EvBatchWriteItem input) w) with
             | (w0, inl stop) => (replies, w0, stop)
             | (w0, inr (Some ctxerr)) => (replies, w0, Returns (Some ctxerr))
             | (w0, inr None) => writeRetry replies input' (int64_wrap (attempt + 1)) w0
             end).2 <> Diverges).
  { intros input'.
    destruct (backoffWait attempt (emit (EvBatchWriteItem input) w))
      as [w0 [stop|[ctxerr|]]] eqn:Hb; [|other_outcome | apply IH].
    apply backoffWait_stop in Hb as [-> | ->]; other_outcome. }
  destruct (reply input) as [output|err].
  - destruct (bool_decide (golen (UnprocessedItems output) ≠ 0%nat));
      [apply Hgo | other_outcome].
  - destruct (isThrottlingError err); [apply Hgo|].
    destruct (attempt <? maxRetries); [apply Hgo | other_outcome].
Qed.

Lemma convert_ends batch requests ui w :
  (convert batch requests ui w).2 <> Diverges.
Proof.
  revert requests ui w. induction batch as [|op rest IH]; intros requests ui w;
    cbn [writer.convert]; [other_outcome|].
  destruct (Type_ op); [apply IH | apply IH |].
  assert (He : (updateItem op ui w).2 <> Diverges).
  { unfold writer.updateItem. case_match; [other_outcome | apply updateRetry_ends]. }
  destruct (updateItem op ui w) as [[ui' w'] [[err|]| | |]]; cbn [snd] in *;
    [discriminate | apply IH | discriminate | discriminate | done].
Qed.

(** *** The outer loop *)

Definition subBatches (t : list Event) : list (list Operation) :=
  omap (fun ev => match ev with EvSubBatch b => Some b | _ => None end) t.

Definition batchCalls (t : list Event) : list BatchWriteItemInput :=
  omap (fun ev => match ev with EvBatchWriteItem input => Some input | _ => None end) t.

(** A sub-batch has at most [n] operations and a batched call at most
    [n] requests. *)
Definition capped (n : nat) (ev : Event) : Prop :=
  match ev with
  | EvSubBatch b => (length b <= n)%nat
  | EvBatchWriteItem input => (requestCount (RequestItems input) <= n)%nat
  | _ => True
  end.

Lemma inBatch_capped n ev : inBatch n ev -> capped n ev.
Proof. by destruct ev. Qed.

Lemma subBatches_inBatch n new : Forall (inBatch n) new -> subBatches new = [].
Proof.
  induction 1 as [|ev new Hev _ IH]; [done|].
  unfold subBatches in *. destruct ev; cbn in *; done.
Qed.

Lemma subBatches_app t1 t2 : subBatches (t1 ++ t2) = subBatches t1 ++ subBatches t2.
Proof. unfold subBatches. apply omap_app. Qed.

Lemma requestCount_single (requests : list WriteRequest) :
  requestCount (Some {[ tableName := requests ]}) = length requests.
Proof. unfold requestCount. rewrite map_fold_singleton. lia. Qed.

Lemma slice_take (ops : list Operation) i :
  1 <= batchSize -> 0 <= i < Z.of_nat (length ops) ->
  slice ops i (if Z.of_nat (length ops) <? i + batchSize
               then Z.of_nat (length ops) else i + batchSize)
  = Some (take (Z.to_nat batchSize) (drop (Z.to_nat i) ops)).
Proof.
  intros HB Hi. unfold slice.
  destruct (Z.ltb_spec (Z.of_nat (length ops)) (i + batchSize)) as [Hlt|Hge].
  - rewrite (proj2 (Z.leb_le 0 i)), (proj2 (Z.leb_le i _)), Z.leb_refl by lia. cbn.
    f_equal. rewrite !take_ge; [done | |]; rewrite length_drop; lia.
  - rewrite (proj2 (Z.leb_le 0 i)), (proj2 (Z.leb_le i _)), (proj2 (Z.leb_le _ _)) by lia.
    cbn. do 2 f_equal. lia.
Qed.

(** What a run of the loop from index [i] leaves in the trace. *)
Definition loopOK (ops : list Operation) (i : Z) (t : list Event)
    (r : Env * outcome) : Prop :=
  exists new,
    trace (world r.1) = t ++ new /\
    Forall (capped (Z.to_nat batchSize)) new /\
    (exists m, concat (subBatches new) = take m (drop (Z.to_nat i) ops)) /\
    (r.2 = Returns None -> concat (subBatches new) = drop (Z.to_nat i) ops) /\
    r.2 <> Diverges.

Lemma loopOK_stop ops i t mid env' stop :
  0 <= i ->
  trace (world env') =
    t ++ EvSubBatch (take (Z.to_nat batchSize) (drop (Z.to_nat i) ops)) :: mid ->
  Forall (inBatch (Z.to_nat batchSize)) mid ->
  stop <> Returns None -> stop <> Diverges ->
  loopOK ops i t (env', stop).
Proof.
  intros Hi Ht Hmid Hs Hd.
  exists (EvSubBatch (take (Z.to_nat batchSize) (drop (Z.to_nat i) ops)) :: mid).
  split_and!; [done | | | done | done].
  - constructor; [cbn; rewrite length_take; lia|].
    eapply Forall_impl; [exact Hmid | apply inBatch_capped].
  - exists (Z.to_nat batchSize). unfold subBatches. cbn. fold (subBatches mid).
    rewrite (subBatches_inBatch _ _ Hmid). cbn. by rewrite app_nil_r.
Qed.

Lemma loopOK_step ops i t mid env1 r :
  1 <= batchSize -> 0 <= i ->
  trace (world env1) =
    t ++ EvSubBatch (take (Z.to_nat batchSize) (drop (Z.to_nat i) ops)) :: mid ->
  Forall (inBatch (Z.to_nat batchSize)) mid ->
  loopOK ops (i + batchSize) (trace (world env1)) r ->
  loopOK ops i t r.
Proof.
  intros HB Hi Ht Hmid (new & E & Hcap & (m & Hm) & Hall & Hd).
  exists (EvSubBatch (take (Z.to_nat batchSize) (drop (Z.to_nat i) ops)) :: mid ++ new).
  assert (Hsub : concat (subBatches
            (EvSubBatch (take (Z.to_nat batchSize) (drop (Z.to_nat i) ops)) :: mid ++ new))
            = take (Z.to_nat batchSize) (drop (Z.to_nat i) ops) ++ concat (subBatches new)).
  { unfold subBatches. cbn. fold (subBatches (mid ++ new)).
    by rewrite subBatches_app, (subBatches_inBatch _ _ Hmid). }
  assert (Hdrop : drop (Z.to_nat (i + batchSize)) ops
                  = drop (Z.to_nat batchSize) (drop (Z.to_nat i) ops)).
  { rewrite drop_drop. f_equal. lia. }
  split_and!.
  - rewrite E, Ht, <- app_assoc. reflexivity.
  - constructor; [cbn; rewrite length_take; lia|]. apply Forall_app. split; [|done].
    eapply Forall_impl; [exact Hmid | apply inBatch_capped].
  - exists (Z.to_nat batchSize + m)%nat. rewrite Hsub, Hm, Hdrop. apply take_take_drop.
  - intros Hr. rewrite Hsub, (Hall Hr), Hdrop. apply take_drop.
  - done.
Qed.

Lemma batchLoop_capped fuel ops i env :
  1 <= batchSize -> 0 <= i ->
  Forall subsetReply (batchReplies env) ->
  Z.of_nat (length ops) - i < Z.of_nat fuel -> (1 <= fuel)%nat ->
  loopOK ops i (trace (world env)) (batchLoop fuel ops i env).
Proof.
  intros HB. revert i env.
  induction fuel as [|fuel IH]; intros i env Hi Hsub Hfuel Hpos; [lia|].
  cbn [writer.batchLoop].
  destruct (Z.ltb_spec i (Z.of_nat (length ops))) as [Hlt|Hge].
  2:{ exists []. rewrite app_nil_r. split_and!; [done | constructor | | | done].
      - exists 0%nat. by rewrite take_0.
      - intros _. cbn. rewrite drop_ge; [done | lia]. }
  rewrite slice_take by lia.
  set (batch := take (Z.to_nat batchSize) (drop (Z.to_nat i) ops)).
  assert (Hlen : (length batch <= Z.to_nat batchSize)%nat)
    by (unfold batch; rewrite length_take; lia).
  destruct (convert_grows (Z.to_nat batchSize) batch [] (updateReplies env)
              (emit (EvSubBatch batch) (world env))) as [(mid & Emid & Hmid) Hreq].
  pose proof (convert_ends batch [] (updateReplies env)
                (emit (EvSubBatch batch) (world env))) as Hends.
  destruct (convert batch [] (updateReplies env) (emit (EvSubBatch batch) (world env)))
    as [[[requests ui] w1] o1]. cbn [fst snd length] in *.
  assert (Et1 : trace w1 = trace (world env) ++ EvSubBatch batch :: mid).
  { rewrite Emid. cbn. by rewrite <- app_assoc. }
  assert (Hnext : forall env1, trace (world env1) = trace w1 ->
            Forall subsetReply (batchReplies env1) ->
            loopOK ops (i + batchSize) (trace (world env1))
              (batchLoop fuel ops (i + batchSize) env1)).
  { intros env1 _ Hs1. apply IH; [lia | done | lia | lia]. }
  destruct o1 as [[err|]| | |];
    try (apply loopOK_stop with (mid := mid); done).
  destruct (bool_decide (requests = [])).
  - eapply loopOK_step with (mid := mid); [done | done | | done |].
    2:{ apply Hnext; done. }
    done.
  - set (input := {| RequestItems := Some {[ tableName := requests ]} |}).
    destruct (writeRetry_grows (Z.to_nat batchSize) (batchReplies env) input 0 w1 Hsub)
      as [(mid2 & Emid2 & Hmid2) Hbw].
    { unfold input. cbn [RequestItems]. rewrite requestCount_single. lia. }
    pose proof (writeRetry_ends (batchReplies env) input 0 w1) as Hends2.
    destruct (writeRetry (batchReplies env) input 0 w1) as [[bw w2] o2].
    cbn [fst snd] in *.
    assert (Et2 : trace w2 = trace (world env) ++ EvSubBatch batch :: (mid ++ mid2)).
    { rewrite Emid2, Et1, <- app_assoc. reflexivity. }
    assert (Hmid12 : Forall (inBatch (Z.to_nat batchSize)) (mid ++ mid2))
      by (by apply Forall_app).
    destruct o2 as [[err|]| | |];
      try (apply loopOK_stop with (mid := mid ++ mid2); done).
    eapply loopOK_step with (mid := mid ++ mid2); [done | done | | done |].
    2:{ apply IH; [lia | done | lia | lia]. }
    done.
Qed.

Lemma capped_subBatches n new :
  Forall (capped n) new -> Forall (fun b => (length b <= n)%nat) (subBatches new).
Proof.
  induction 1 as [|ev new Hev _ IH]; [constructor|].
  unfold subBatches in *. destruct ev; cbn in *; auto.
Qed.

Lemma capped_batchCalls n new :
  Forall (capped n) new ->
  Forall (fun input => (requestCount (RequestItems input) <= n)%nat) (batchCalls new).
Proof.
  induction 1 as [|ev new Hev _ IH]; [constructor|].
  unfold batchCalls in *. destruct ev; cbn in *; auto.
Qed.

(** C4. With a batch size between 1 and 25, and a service that hands
    back as unprocessed no more requests than it was sent, [WriteBatch]
    cuts the operations into consecutive sub-batches of at most
    [batchSize] operations: put end to end they are a prefix of the
    input, and the whole input when it returns nil.  Every
    [BatchWriteItem] call it issues, first attempts and resubmissions
    alike, carries at most [batchSize] requests, hence at most 25.  The
    loop over the sub-batches ends. *)
Theorem WriteBatch_batch_cap (ops : list Operation) (env : Env) :
  1 <= batchSize <= 25 ->
  Forall subsetReply (batchReplies env) ->
  exists new,
    trace (world (WriteBatch ops env).1) = trace (world env) ++ new /\
    Forall (fun b => (length b <= Z.to_nat batchSize)%nat) (subBatches new) /\
    (exists m, concat (subBatches new) = take m ops) /\
    ((WriteBatch ops env).2 = Returns None -> concat (subBatches new) = ops) /\
    Forall (fun input =>
              (requestCount (RequestItems input) <= Z.to_nat batchSize)%nat /\
              (requestCount (RequestItems input) <= 25)%nat)
      (batchCalls new) /\
    (WriteBatch ops env).2 <> Diverges.
Proof.
  intros HB Hsub. unfold writer.WriteBatch.
  destruct (bool_decide_reflect (ops = [])) as [->|Hne].
  { exists []. rewrite app_nil_r. cbn. split_and!; try done; try constructor.
    by exists 0%nat. }
  destruct (batchLoop_capped (S (length ops)) ops 0 env) as (new & E & Hcap & Hm & Hall & Hd);
    [lia | lia | done | lia | lia |].
  exists new. split_and!; [done | by apply capped_subBatches | done | done | | done].
  eapply Forall_impl; [apply (capped_batchCalls _ _ Hcap)|].
  cbn. intros input Hle. split; [done | lia].
Qed.
End WriterFacts.

(** C4, exercised: five operations in batches of two, the first call
    handed back whole once. *)
Lemma WriteBatch_batch_cap_witness :
  let e := sample_service.env
             [sample_service.reply_unprocessed; sample_service.reply_ok;
              sample_service.reply_ok; sample_service.reply_ok]
             [None] [sample_service.fires] in
  exists new,
    writer.trace (writer.world (sample_service.run 2 sample_service.five_ops e).1)
      = writer.trace (writer.world e) ++ new /\
    Forall (fun b => (length b <= Z.to_nat 2)%nat) (subBatches new) /\
    (exists m, concat (subBatches new) = take m sample_service.five_ops) /\
    ((sample_service.run 2 sample_service.five_ops e).2 = writer.Returns None ->
       concat (subBatches new) = sample_service.five_ops) /\
    Forall (fun input =>
              (writer.requestCount (writer.RequestItems input) <= Z.to_nat 2)%nat /\
              (writer.requestCount (writer.RequestItems input) <= 25)%nat)
      (batchCalls new) /\
    (sample_service.run 2 sample_service.five_ops e).2 <> writer.Diverges.
Proof.
  intros e.
  apply (WriteBatch_batch_cap sample_writer.order "table" 2 sample_service.five_ops e).
  - lia.
  - repeat constructor; intros input output [= <-]; cbn; lia.
Defined.

(** The calls of that run: the first sub-batch twice, then the others. *)
Example WriteBatch_sample_calls :
  let e := sample_service.env
             [sample_service.reply_unprocessed; sample_service.reply_ok;
              sample_service.reply_ok; sample_service.reply_ok]
             [None] [sample_service.fires] in
  let r := sample_service.run 2 sample_service.five_ops e in
  r.2 = writer.Returns None /\
  (fun input => writer.requestCount (writer.RequestItems input))
    <$> batchCalls (writer.trace (writer.world r.1)) = [2; 2; 1; 1]%nat /\
  length <$> subBatches (writer.trace (writer.world r.1)) = [2; 2; 1]%nat.
Proof. vm_compute. repeat split. Qed.

(** ** The writer's retry policy on sample runs *)

(** Five failures that are not throttling are retried; the batch is
    written by the sixth call. *)
Example WriteBatch_five_failures_then_success :
  let r := sample_service.run 25 [sample_writer.put1]
             (sample_service.env
                (replicate 5 sample_service.reply_failed ++ [sample_service.reply_ok]) []
                (replicate 5 sample_service.fires)) in
  r.2 = writer.Returns None /\
  length (batchCalls (writer.trace (writer.world r.1))) = 6%nat.
Proof. vm_compute. repeat split. Qed.

(** The sixth such failure in a row is handed to the caller, wrapped. *)
Example WriteBatch_six_failures_surface :
  let r := sample_service.run 25 [sample_writer.put1]
             (sample_service.env (replicate 7 sample_service.reply_failed) []
                (replicate 7 sample_service.fires)) in
  r.2 = writer.Returns (Some (Errorf_w "failed to write batch after 5 retries"
          (OperationError "DynamoDB: BatchWriteItem" (errorString "InternalServerError")))) /\
  length (batchCalls (writer.trace (writer.world r.1))) = 6%nat.
Proof. vm_compute. repeat split. Qed.

(** Throttling is retried past [maxRetries]: 37 throttled calls, then
    success. *)
Example WriteBatch_throttled_37_times_then_success :
  let r := sample_service.run 25 [sample_writer.put1]
             (sample_service.env
                (replicate 37 sample_service.reply_throttled ++ [sample_service.reply_ok]) []
                (replicate 37 sample_service.fires)) in
  r.2 = writer.Returns None /\
  length (batchCalls (writer.trace (writer.world r.1))) = 38%nat.
Proof. vm_compute. repeat split. Qed.

(** A cancellation during the wait ends the retries with [ctx.Err()]. *)
Example WriteBatch_throttled_then_cancelled :
  let r := sample_service.run 25 [sample_writer.put1]
             (sample_service.env (replicate 3 sample_service.reply_throttled) []
                [sample_service.fires; sample_service.cancelled]) in
  r.2 = writer.Returns (Some Canceled) /\
  length (batchCalls (writer.trace (writer.world r.1))) = 2%nat.
Proof. vm_compute. repeat split. Qed.

(** The delay of the 38th wait: [100ms * 2^37] does not fit in an
    [int64]; what is left of it is negative. *)
Example backoffDelay_37 :
  writer.backoffDelay 36 = 30000000000 /\
  writer.backoffDelay 37 = -4702848726509551616 /\
  writer.rand_Int64N (writer.backoffDelay 37) 12345 = None.
Proof. vm_compute. repeat split. Qed.

(** C3, at the failing input.  The service throttles the same batch 38
    times in a row and the context is never cancelled: every wait up to
    the 37th returns, and the 38th panics inside [backoffWait], in
    [rand.Int64N], because the delay has overflowed.  [WriteBatch] thus
    neither retries on nor returns an error; and [updateItem] does the
    same on 38 throttled [UpdateItem] calls. *)
Theorem WriteBatch_throttled_38_times_panics :
  let r := sample_service.run 25 [sample_writer.put1]
             (sample_service.env (replicate 100 sample_service.reply_throttled) []
                (replicate 100 sample_service.fires)) in
  let u := sample_service.run 25 [sample_writer.update1]
             (sample_service.env []
                (replicate 100 (Some (OperationError "DynamoDB: UpdateItem"
                                        ProvisionedThroughputExceededException)))
                (replicate 100 sample_service.fires)) in
  r.2 = writer.Panics "invalid argument to Int64N" /\
  length (batchCalls (writer.trace (writer.world r.1))) = 38%nat /\
  length (writer.batchReplies r.1) = 62%nat /\
  u.2 = writer.Panics "invalid argument to Int64N" /\
  length (writer.updateReplies u.1) = 62%nat.
Proof. vm_compute. repeat split. Qed.

(** ** More on the record decoder *)
Section DecoderInvariants.
Import itemimage.
Variable json_Unmarshal : string -> result (GoMap RawMessage).
Variable UnmarshalMapJSON : RawMessage -> result (GoMap AttributeValue).

Local Abbreviation Decode := (Decode json_Unmarshal UnmarshalMapJSON).
Local Abbreviation decodeField := (decodeField UnmarshalMapJSON).

(** X1. The type of a decoded operation agrees with the images it
    carries: an UPDATE has both images, a DELETE has the old image and no
    new one, a PUT has no old image, and a PUT read from a line without
    ["Item"] has its new image. *)
Theorem Decode_type_agrees_with_images (line : string) (op : Operation) :
  Decode line = Ok op ->
  match Type_ op with
  | OpUpdate => is_Some (NewImage op) /\ is_Some (OldImage op)
  | OpDelete => NewImage op = None /\ is_Some (OldImage op)
  | OpPut =>
      OldImage op = None /\
      (forall raw, json_Unmarshal line = Ok raw -> golookup "Item" raw = None ->
         is_Some (NewImage op))
  end.
Proof.
  unfold itemimage.Decode.
  destruct (json_Unmarshal line) as [raw|err]; [|discriminate].
  destruct (golookup "Item" raw) as [itemRaw|] eqn:Hi.
  { destruct (UnmarshalMapJSON itemRaw) as [item|err]; intros [= <-]; cbn.
    split; [done|]. intros raw' [= <-]. by rewrite Hi. }
  destruct (decodeField raw "Keys" setKeys zeroOperation) as [op1|r1]; cbn; [|discriminate].
  destruct (decodeField raw "NewImage" setNewImage op1) as [op2|r2]; cbn; [|discriminate].
  destruct (decodeField raw "OldImage" setOldImage op2) as [op3|r3]; cbn; [|discriminate].
  destruct (NewImage op3) as [n|] eqn:En, (OldImage op3) as [o|] eqn:Eo;
    intros [= <-]; cbn; rewrite ?En, ?Eo; eauto.
Qed.

(** X2. Whatever makes [Decode] fail (a line that is not JSON, an
    ["Item"], ["Keys"], ["NewImage"] or ["OldImage"] that does not
    unmarshal, or no image at all), the error it returns wraps the
    sentinel directly: [errors.Unwrap] gives [ErrCorrupt] and
    [errors.Is(err, ErrCorrupt)] holds. *)
Theorem Decode_errors_unwrap_to_sentinel (line : string) (e : error) :
  Decode line = Err e ->
  Unwrap e = Some ErrCorrupt /\ errors_Is e ErrCorrupt = true.
Proof.
  unfold itemimage.Decode.
  destruct (json_Unmarshal line) as [raw|err].
  2:{ intros [= <-]. by split. }
  destruct (golookup "Item" raw) as [itemRaw|].
  { destruct (UnmarshalMapJSON itemRaw); intros [= <-]. by split. }
  assert (Hf : forall field set op r, decodeField raw field set op = Err r ->
                 Unwrap r = Some ErrCorrupt /\ errors_Is r ErrCorrupt = true).
  { intros field set op r. unfold itemimage.decodeField.
    destruct (golookup field raw) as [fr|]; [|discriminate].
    destruct (UnmarshalMapJSON fr); intros [= <-]. by split. }
  destruct (decodeField raw "Keys" setKeys zeroOperation) as [op1|r1] eqn:H1; cbn.
  2:{ intros [= <-]. eauto. }
  destruct (decodeField raw "NewImage" setNewImage op1) as [op2|r2] eqn:H2; cbn.
  2:{ intros [= <-]. eauto. }
  destruct (decodeField raw "OldImage" setOldImage op2) as [op3|r3] eqn:H3; cbn.
  2:{ intros [= <-]. eauto. }
  destruct (NewImage op3), (OldImage op3); intros [= <-]. by split.
Qed.
End DecoderInvariants.

(** X1, exercised on the sample update line. *)
Lemma Decode_type_agrees_with_images_witness :
  let op := {| itemimage.Type_ := itemimage.OpUpdate;
               itemimage.Keys := Some samples.map_pk1;
               itemimage.NewImage := Some samples.map_new;
               itemimage.OldImage := Some samples.map_old |} in
  samples.Decode samples.line_update = Ok op /\
  is_Some (itemimage.NewImage op) /\ is_Some (itemimage.OldImage op).
Proof.
  intros op.
  assert (Hd : samples.Decode samples.line_update = Ok op) by (vm_compute; reflexivity).
  split; [exact Hd|].
  exact (Decode_type_agrees_with_images samples.json_Unmarshal samples.UnmarshalMapJSON
           samples.line_update op Hd).
Defined.

(** X2, exercised on [{"bogus":true}]. *)
Lemma Decode_errors_unwrap_to_sentinel_witness :
  let e := wrapError "corrupt line: no image data found" ErrCorrupt in
  samples.Decode samples.line_bogus = Err e /\
  Unwrap e = Some ErrCorrupt /\ errors_Is e ErrCorrupt = true.
Proof.
  intros e.
  assert (Hd : samples.Decode samples.line_bogus = Err e) by (vm_compute; reflexivity).
  split; [exact Hd|].
  exact (Decode_errors_unwrap_to_sentinel samples.json_Unmarshal samples.UnmarshalMapJSON
           samples.line_bogus e Hd).
Defined.

(** ** The manifest loader *)
Section LoaderFacts.
Import manifest.

Lemma literal_app lit s : literal lit (lit +:+ s) = Some s.
Proof.
  induction lit as [|a lit IH]; [by destruct s|].
  rewrite append_cons. cbn [literal]. by rewrite bool_decide_eq_true_2.
Qed.

Lemma literal_sound lit s r : literal lit s = Some r -> s = lit +:+ r.
Proof.
  revert s. induction lit as [|a lit IH]; intros s.
  - destruct s; by intros [= <-].
  - destruct s as [|b s]; [discriminate|]. cbn [literal].
    case_bool_decide as E; [|discriminate]. subst b.
    intros H. rewrite append_cons. f_equal. by apply IH.
Qed.

Lemma cutSlash_app b k :
  lacks "/"%char b = true -> cutSlash (b +:+ "/" +:+ k) = Some (b, k).
Proof.
  induction b as [|a b IH]; cbn [lacks].
  - intros _. rewrite append_nil, append_cons, append_nil. cbn [cutSlash].
    by rewrite bool_decide_eq_true_2.
  - intros [Ha Hb]%andb_true_iff. apply negb_true_iff, bool_decide_eq_false in Ha.
    rewrite append_cons. cbn [cutSlash]. rewrite bool_decide_eq_false_2 by done.
    by rewrite (IH Hb).
Qed.

Lemma cutSlash_sound s b k :
  cutSlash s = Some (b, k) -> s = b +:+ "/" +:+ k /\ lacks "/"%char b = true.
Proof.
  revert b. induction s as [|a s IH]; intros b; [discriminate|]. cbn [cutSlash].
  case_bool_decide as E.
  - intros [= <- <-]. subst a. by split.
  - destruct (cutSlash s) as [[b' k']|]; [|discriminate]. intros [= <- <-].
    destruct (IH b' eq_refl) as [-> Hl]. split; [done|].
    cbn [lacks]. by rewrite bool_decide_eq_false_2, Hl.
Qed.

Lemma dots_lacks k : dots k = lacks "010"%char k.
Proof. induction k as [|a k IH]; [done|]. cbn [dots lacks]. by rewrite IH. Qed.

(** The URIs the pattern takes. *)
Definition wellFormed (uri bucket key : string) : Prop :=
  uri = "s3://" +:+ bucket +:+ "/" +:+ key /\
  bucket <> EmptyString /\ lacks "/"%char bucket = true /\
  key <> EmptyString /\ lacks "010"%char key = true.

Lemma FindStringSubmatch_wellFormed uri bucket key :
  wellFormed uri bucket key -> FindStringSubmatch uri = [uri; bucket; key].
Proof.
  intros (-> & Hb & Hbs & Hk & Hkn). unfold FindStringSubmatch.
  rewrite literal_app, (cutSlash_app _ _ Hbs), dots_lacks, Hkn.
  by rewrite !bool_decide_eq_false_2.
Qed.

Lemma FindStringSubmatch_shape uri :
  FindStringSubmatch uri = [] \/
  exists bucket key, FindStringSubmatch uri = [uri; bucket; key] /\ wellFormed uri bucket key.
Proof.
  unfold FindStringSubmatch.
  destruct (literal "s3://" uri) as [rest|] eqn:Hl; [|by left].
  destruct (cutSlash rest) as [[bucket key]|] eqn:Hc; [|by left].
  destruct (negb (bool_decide (bucket = EmptyString))
            && negb (bool_decide (key = EmptyString)) && dots key) eqn:E; [|by left].
  right. exists bucket, key. split; [done|].
  apply andb_true_iff in E as [[Hb Hk]%andb_true_iff Hd].
  apply negb_true_iff, bool_decide_eq_false in Hb, Hk.
  apply literal_sound in Hl. apply cutSlash_sound in Hc as [-> Hs].
  rewrite dots_lacks in Hd. by repeat split.
Qed.

Lemma FindStringSubmatch_none uri :
  (forall bucket key, ~ wellFormed uri bucket key) -> FindStringSubmatch uri = [].
Proof.
  intros Hn. destruct (FindStringSubmatch_shape uri) as [E | (b & k & E & Hw)]; [done|].
  by destruct (Hn b k).
Qed.

Lemma extract_Ok_wellFormed uri bucket key :
  extractBucketFromS3URI uri = Ok bucket -> extractKeyFromS3URI uri = Ok key ->
  wellFormed uri bucket key.
Proof.
  unfold extractBucketFromS3URI, extractKeyFromS3URI. intros Hb Hk.
  destruct (FindStringSubmatch_shape uri) as [E | (b & k & E & Hw)]; rewrite E in Hb, Hk.
  - discriminate.
  - injection Hb as <-. injection Hk as <-. exact Hw.
Qed.

(** X3. The two extractors take a URI exactly when it is [s3://], a
    bucket that is not empty and has no slash, a slash, and a key that is
    not empty and has no line feed; they return that bucket and that
    key. *)
Theorem extract_S3URI_iff (uri bucket key : string) :
  extractBucketFromS3URI uri = Ok bucket /\ extractKeyFromS3URI uri = Ok key <->
  wellFormed uri bucket key.
Proof.
  split.
  - intros [Hb Hk]. by apply extract_Ok_wellFormed.
  - intros Hw. unfold extractBucketFromS3URI, extractKeyFromS3URI.
    by rewrite (FindStringSubmatch_wellFormed _ _ _ Hw).
Qed.

Variable GetObject : string -> string -> result (option string).
Variable json_Decode_Summary : string -> result Summary.
Variable json_Decoder_FileMeta : string -> list (result FileMeta).

Local Abbreviation Load := (Load GetObject json_Decode_Summary json_Decoder_FileMeta).

Lemma decodeFiles_Ok entries files all :
  decodeFiles entries files = Ok all ->
  exists more, entries = Ok <$> more /\ all = files ++ more.
Proof.
  revert files. induction entries as [|[file|err] rest IH]; intros files; cbn [decodeFiles].
  - intros [= <-]. exists []. by rewrite app_nil_r.
  - intros H. destruct (IH _ H) as (more & -> & ->).
    exists (file :: more). by rewrite <- app_assoc.
  - discriminate.
Qed.

(** X5. A [Load] that succeeds has fetched two objects, both from the
    bucket the URI names: the object at the URI's key, which decodes to
    the summary, and the object at the summary's [manifestFilesS3Key].
    The data files of the result are the entries decoded from the second
    object, all of them and in their order. *)
Theorem Load_fetches_two_objects (uri : string) (fetched : list (string * string))
    (summary : Summary) :
  Load uri = (fetched, Ok summary) ->
  exists bucket key body head filesBody,
    wellFormed uri bucket key /\
    GetObject bucket key = Ok (Some body) /\
    json_Decode_Summary body = Ok head /\
    fetched = [(bucket, key); (bucket, ManifestFilesS3Key head)] /\
    GetObject bucket (ManifestFilesS3Key head) = Ok (Some filesBody) /\
    json_Decoder_FileMeta filesBody = Ok <$> DataFiles summary /\
    summary = setDataFiles (DataFiles summary) head.
Proof.
  unfold manifest.Load.
  destruct (extractBucketFromS3URI uri) as [bucket|e1] eqn:Hb; [|intros [= _ ?]; discriminate].
  destruct (extractKeyFromS3URI uri) as [key|e2] eqn:Hk; [|intros [= _ ?]; discriminate].
  destruct (GetObject bucket key) as [[body|]|e3] eqn:Hg; [|discriminate..].
  destruct (json_Decode_Summary body) as [head|e4] eqn:Hd; [|discriminate].
  destruct (GetObject bucket (ManifestFilesS3Key head)) as [[filesBody|]|e5] eqn:Hg2;
    [|discriminate..].
  destruct (decodeFiles (json_Decoder_FileMeta filesBody) []) as [files|e6] eqn:Hf;
    [|discriminate].
  intros [= <- <-]. apply decodeFiles_Ok in Hf as (more & Hm & ->).
  exists bucket, key, body, head, filesBody.
  split; [by apply extract_Ok_wellFormed|]. by repeat split.
Qed.

(** X4. A URI the pattern does not take is refused by both extractors,
    and makes [Load] fail before it fetches anything. *)
Theorem Load_refuses_bad_uri (uri : string) :
  (forall bucket key, ~ wellFormed uri bucket key) ->
  extractBucketFromS3URI uri = Err (invalidURI uri) /\
  extractKeyFromS3URI uri = Err (invalidURI uri) /\
  Load uri = ([], Err (invalidURI uri)).
Proof.
  intros Hn. unfold manifest.Load, extractBucketFromS3URI, extractKeyFromS3URI.
  by rewrite (FindStringSubmatch_none uri Hn).
Qed.
End LoaderFacts.

(** X3, exercised on the sample URI. *)
Lemma extract_S3URI_iff_witness :
  manifest.extractBucketFromS3URI sample_export.uri = Ok "bucket" /\
  manifest.extractKeyFromS3URI sample_export.uri = Ok "export/manifest-summary.json".
Proof.
  apply (proj2 (extract_S3URI_iff sample_export.uri "bucket" "export/manifest-summary.json")).
  repeat split; discriminate.
Defined.

(** X4, exercised on a URI without a key and on a file URI. *)
Lemma Load_refuses_bad_uri_witness :
  manifest.Load sample_export.GetObject sample_export.json_Decode_Summary
    sample_export.json_Decoder_FileMeta "s3://bucket" =
    ([], Err (manifest.invalidURI "s3://bucket")) /\
  manifest.Load sample_export.GetObject sample_export.json_Decode_Summary
    sample_export.json_Decoder_FileMeta "file:///tmp/manifest-summary.json" =
    ([], Err (manifest.invalidURI "file:///tmp/manifest-summary.json")).
Proof.
  split.
  - refine (proj2 (proj2 (Load_refuses_bad_uri _ _ _ "s3://bucket" _))).
    intros bucket key Hw. apply FindStringSubmatch_wellFormed in Hw.
    assert (E : manifest.FindStringSubmatch "s3://bucket" = []) by (vm_compute; reflexivity).
    rewrite E in Hw. discriminate.
  - refine (proj2 (proj2 (Load_refuses_bad_uri _ _ _ "file:///tmp/manifest-summary.json" _))).
    intros bucket key (E & _). discriminate.
Defined.

(** X5, exercised on the sample export. *)
Lemma Load_fetches_two_objects_witness :
  exists bucket key body head filesBody,
    wellFormed sample_export.uri bucket key /\
    sample_export.GetObject bucket key = Ok (Some body) /\
    sample_export.json_Decode_Summary body = Ok head /\
    [("bucket", "export/manifest-summary.json"); ("bucket", "export/manifest-files.json")]
      = [(bucket, key); (bucket, manifest.ManifestFilesS3Key head)] /\
    sample_export.GetObject bucket (manifest.ManifestFilesS3Key head) = Ok (Some filesBody) /\
    sample_export.json_Decoder_FileMeta filesBody =
      Ok <$> [sample_restore.file1; sample_manifest.file2] /\
    manifest.setDataFiles [sample_restore.file1; sample_manifest.file2] sample_export.head =
      manifest.setDataFiles [sample_restore.file1; sample_manifest.file2] head.
Proof.
  exact (Load_fetches_two_objects sample_export.GetObject sample_export.json_Decode_Summary
           sample_export.json_Decoder_FileMeta sample_export.uri
           [("bucket", "export/manifest-summary.json"); ("bucket", "export/manifest-files.json")]
           (manifest.setDataFiles [sample_restore.file1; sample_manifest.file2]
              sample_export.head)
           eq_refl).
Defined.

(** ** Checksum verification: what an accepted manifest tells *)
Section ChecksumSound.
Import manifest.
Variable HeadObject : string -> string -> result (option string).

Lemma verifyFile_None bucket file :
  verifyFile HeadObject bucket file = None -> fileMatches HeadObject bucket file.
Proof.
  unfold verifyFile, fileMatches.
  destruct (HeadObject bucket (Key file)) as [[respETag|]|err]; [|discriminate..].
  destruct (base64_DecodeString (MD5Base64 file)) as [md5Bytes|err]; [|discriminate].
  case_bool_decide as E1.
  - case_bool_decide as E2; [discriminate|]. intros _.
    try apply dec_stable in E2. exfalso. apply E1. rewrite E2. apply Trim_quoted_hex.
  - intros _. try apply dec_stable in E1. eauto.
Qed.

Lemma verifyFiles_None bucket files fetched :
  verifyFiles HeadObject bucket files = (fetched, None) ->
  Forall (fileMatches HeadObject bucket) files /\ fetched = Key <$> files.
Proof.
  revert fetched. induction files as [|file rest IH]; intros fetched; cbn [verifyFiles].
  - intros [= <-]. by split.
  - destruct (verifyFile HeadObject bucket file) as [err|] eqn:Hv; [discriminate|].
    destruct (verifyFiles HeadObject bucket rest) as [fetched' r].
    intros [= <- ->]. destruct (IH _ eq_refl) as [Hall ->].
    split; [|done]. constructor; [by apply verifyFile_None | done].
Qed.

(** X6. [VerifyChecksums] returns no error exactly when the summary
    names a bucket and every data file matches: its metadata is there
    with an ETag, its checksum is Base64, and the ETag without its quotes
    is the lower-case hex of the checksum.  It has then fetched the
    metadata of every file, in manifest order. *)
Theorem VerifyChecksums_accepts_iff (summary : Summary) (fetched : list string) :
  VerifyChecksums HeadObject summary = (fetched, None) <->
  S3Bucket summary <> EmptyString /\
  Forall (fileMatches HeadObject (S3Bucket summary)) (DataFiles summary) /\
  fetched = Key <$> DataFiles summary.
Proof.
  split.
  - unfold VerifyChecksums. case_bool_decide as Hb; [discriminate|].
    intros H. apply verifyFiles_None in H as [Hall ->]. by repeat split.
  - intros (Hb & Hall & ->). by apply VerifyChecksums_all_match.
Qed.
End ChecksumSound.

(** X6, exercised: the sample manifest against a store whose ETags are
    the lower-case hex of the checksums. *)
Lemma VerifyChecksums_accepts_iff_witness :
  manifest.S3Bucket sample_manifest.summary <> EmptyString /\
  Forall (fileMatches (fun _ _ => Ok (Some sample_manifest.etag_lower))
            (manifest.S3Bucket sample_manifest.summary))
    (manifest.DataFiles sample_manifest.summary) /\
  ["export/data/file1.json.gz"; "export/data/file2.json.gz"]
    = manifest.Key <$> manifest.DataFiles sample_manifest.summary.
Proof.
  apply (proj1 (VerifyChecksums_accepts_iff (fun _ _ => Ok (Some sample_manifest.etag_lower))
                  sample_manifest.summary
                  ["export/data/file1.json.gz"; "export/data/file2.json.gz"])).
  vm_compute. reflexivity.
Defined.

(** ** The checkpoint stores: saving *)
Section SaveFacts.
Import checkpoint.
Variable json_Marshal_State : State -> result string.
Variable json_Decode_State : string -> result State.

(** X7. A checkpoint the file store has saved is the checkpoint it
    loads, when the JSON of the state decodes to the state; the save
    touches no other path. *)
Theorem FileStore_Save_then_Load (reply : WriteReply) (fs fs' : gmap string (result string))
    (path : string) (state : State) :
  (forall data, json_Marshal_State state = Ok data -> json_Decode_State data = Ok state) ->
  FileStore_Save json_Marshal_State reply fs path state = (fs', None) ->
  FileStore_Load json_Decode_State fs' path = Ok state /\
  forall other, other <> path -> fs' !! other = fs !! other.
Proof.
  intros Hjson. unfold FileStore_Save.
  destruct (json_Marshal_State state) as [data|err] eqn:Hm; [|discriminate].
  destruct reply as [[err after]|]; cbn; [discriminate|].
  intros [= <-]. split.
  - unfold FileStore_Load, os_ReadFile. rewrite lookup_insert_eq.
    by rewrite (Hjson _ eq_refl).
  - intros other Hne. by rewrite lookup_insert_ne.
Qed.

Section ObjectStore.
Context {C : Type}.
Variable GetObject : C -> string -> string -> result string.
Variable PutObject : string -> string -> string -> C -> C * option error.

(** X8. The same for the object store, over any client whose
    [GetObject] returns the body of the last [PutObject] that succeeded
    on that bucket and key. *)
Theorem S3Store_Save_then_Load (bucket key : string) (state : State) (c c' : C) :
  (forall data, json_Marshal_State state = Ok data -> json_Decode_State data = Ok state) ->
  (forall b k data c0 c1, PutObject b k data c0 = (c1, None) -> GetObject c1 b k = Ok data) ->
  S3Store_Save json_Marshal_State PutObject bucket key state c = (c', None) ->
  S3Store_Load json_Decode_State (GetObject c') bucket key = Ok state.
Proof.
  intros Hjson Hstore. unfold S3Store_Save.
  destruct (json_Marshal_State state) as [data|err] eqn:Hm; [|discriminate].
  destruct (PutObject bucket key data c) as [c1 [err|]] eqn:Hp; [discriminate|].
  intros [= <-]. unfold S3Store_Load.
  by rewrite (Hstore _ _ _ _ _ Hp), (Hjson _ eq_refl).
Qed.
End ObjectStore.

(** X9. What a store loads comes from what is stored: the zero state
    when nothing is stored (the file does not exist; [GetObject] fails
    with [NoSuchKey] or [NotFound] in its chain), else the state the
    stored bytes decode to.  A checkpoint that is there and cannot be
    read or decoded is an error, never a fresh start. *)
Theorem Load_result_comes_from_store (fs : gmap string (result string))
    (GetObject : string -> string -> result string) (path bucket key : string)
    (state : State) :
  (FileStore_Load json_Decode_State fs path = Ok state ->
     (state = zeroState /\ exists err, os_ReadFile fs path = Err err /\ os_IsNotExist err = true)
     \/ exists data, os_ReadFile fs path = Ok data /\ json_Decode_State data = Ok state) /\
  (S3Store_Load json_Decode_State GetObject bucket key = Ok state ->
     (state = zeroState /\ exists err, GetObject bucket key = Err err /\
        (errors_As isNoSuchKey err = true \/ errors_As isNotFound err = true))
     \/ exists body, GetObject bucket key = Ok body /\ json_Decode_State body = Ok state).
Proof.
  split.
  - unfold FileStore_Load. destruct (os_ReadFile fs path) as [data|err].
    + destruct (json_Decode_State data) as [s|e] eqn:Hd; [|discriminate].
      intros [= <-]. right. eauto.
    + destruct (os_IsNotExist err) eqn:Hn; [|discriminate].
      intros [= <-]. left. eauto.
  - unfold S3Store_Load. destruct (GetObject bucket key) as [body|err].
    + destruct (json_Decode_State body) as [s|e] eqn:Hd; [|discriminate].
      intros [= <-]. right. eauto.
    + destruct (errors_As isNoSuchKey err) eqn:H1.
      { intros [= <-]. left. eauto. }
      destruct (errors_As isNotFound err) eqn:H2; [|discriminate].
      intros [= <-]. left. eauto.
Qed.
End SaveFacts.

(** X7, exercised: the sample checkpoint saved to an empty file system. *)
Lemma FileStore_Save_then_Load_witness :
  checkpoint.FileStore_Load sample_checkpoint.json_Decode_State
    {[ sample_checkpoint.path := Ok sample_checkpoint.at30_json ]} sample_checkpoint.path
    = Ok sample_checkpoint.at30 /\
  forall other, other <> sample_checkpoint.path ->
    ({[ sample_checkpoint.path := Ok sample_checkpoint.at30_json ]}
       : gmap string (result string)) !! other = (∅ : gmap string (result string)) !! other.
Proof.
  refine (FileStore_Save_then_Load sample_checkpoint.json_Marshal_State
            sample_checkpoint.json_Decode_State None ∅ _ sample_checkpoint.path
            sample_checkpoint.at30 _ _).
  - intros data [= <-]. reflexivity.
  - reflexivity.
Defined.

(** X8, exercised: the sample checkpoint put into an empty object store. *)
Lemma S3Store_Save_then_Load_witness :
  checkpoint.S3Store_Load sample_checkpoint.json_Decode_State
    (sample_checkpoint.GetObject
       {[ ("bucket", "checkpoints/restore.json") := sample_checkpoint.at30_json ]})
    "bucket" "checkpoints/restore.json" = Ok sample_checkpoint.at30.
Proof.
  refine (S3Store_Save_then_Load sample_checkpoint.json_Marshal_State
            sample_checkpoint.json_Decode_State sample_checkpoint.GetObject
            sample_checkpoint.PutObject "bucket" "checkpoints/restore.json"
            sample_checkpoint.at30 ∅ _ _ _ _).
  - intros data [= <-]. reflexivity.
  - intros b k data c0 c1 [= <-]. unfold sample_checkpoint.GetObject.
    by rewrite lookup_insert_eq.
  - reflexivity.
Defined.

(** ** The configuration: what [Validate] accepts *)
Section ValidateFacts.
Import config.
Variable url_Parse : string -> result (string * string).

(** The checks of [Validate], with the host [url.Parse] finds. *)
Definition accepted (c : Config) (host : string) : Prop :=
  TableName c <> EmptyString /\
  String.prefix "s3://" (ExportS3URI c) = true /\
  url_Parse (ExportS3URI c) = Ok ("s3", host) /\
  (ExportType c = "FULL" \/ ExportType c = "INCREMENTAL") /\
  (ViewType c = "NEW" \/ ViewType c = "NEW_AND_OLD") /\
  Region c <> EmptyString /\
  1 <= MaxWorkers c /\
  1 <= ReadAheadParts c /\
  1 <= BatchSize c <= 25 /\
  (ReportS3URI c = EmptyString \/ String.prefix "s3://" (ReportS3URI c) = true) /\
  1000000000 <= ShutdownTimeout c.

(** X10. [Validate] returns no error exactly when every check holds, and
    it then leaves the configuration as it was but for the export bucket
    name, which is the host of the export URI. *)
Theorem Validate_accepts_iff (c c' : Config) :
  Validate url_Parse c = (c', None) <->
  exists host, accepted c host /\ c' = setExportBucketName host c.
Proof.
  unfold Validate, accepted. split.
  - case_bool_decide as H1; [discriminate|].
    case_bool_decide as H2; [discriminate|].
    destruct (String.prefix "s3://" (ExportS3URI c)) eqn:H3; [|discriminate]. cbn [negb].
    destruct (url_Parse (ExportS3URI c)) as [[scheme host]|err]; [|discriminate].
    case_bool_decide as H4; [discriminate|]. try apply dec_stable in H4. subst scheme.
    cbn [ExportType ViewType Region MaxWorkers ReadAheadParts BatchSize ReportS3URI
         ShutdownTimeout setExportBucketName].
    destruct (bool_decide (ExportType c ≠ "FULL") && bool_decide (ExportType c ≠ "INCREMENTAL"))
      eqn:H5; [discriminate|].
    destruct (bool_decide (ViewType c ≠ "NEW") && bool_decide (ViewType c ≠ "NEW_AND_OLD"))
      eqn:H6; [discriminate|].
    destruct (bool_decide (Region c = EmptyString)) eqn:H7; [discriminate|].
    apply bool_decide_eq_false in H7.
    destruct (MaxWorkers c <? 1) eqn:H8; [discriminate|].
    destruct (ReadAheadParts c <? 1) eqn:H9; [discriminate|].
    destruct ((BatchSize c <? 1) || (25 <? BatchSize c)) eqn:H10; [discriminate|].
    destruct (bool_decide (ReportS3URI c ≠ EmptyString)
              && negb (String.prefix "s3://" (ReportS3URI c))) eqn:H11; [discriminate|].
    destruct (ShutdownTimeout c <? 1000000000) eqn:H12; [discriminate|].
    intros [= <-]. exists host. split; [|done].
    apply andb_false_iff in H5, H6, H11. apply orb_false_iff in H10 as [H10 H10'].
    rewrite !bool_decide_eq_false in H5, H6. rewrite bool_decide_eq_false in H11.
    rewrite negb_false_iff in H11.
    split_and!; try done; try lia.
    + destruct H5 as [H|H]; apply dec_stable in H; auto.
    + destruct H6 as [H|H]; apply dec_stable in H; auto.
    + destruct H11 as [H|H]; [apply dec_stable in H|]; auto.
  - intros (host & (H1 & H3 & H4 & H5 & H6 & H7 & H8 & H9 & H10 & H11 & H12) & ->).
    rewrite bool_decide_eq_false_2 by done.
    rewrite bool_decide_eq_false_2 by (intros E; rewrite E in H3; discriminate).
    rewrite H3, H4. cbn [negb]. rewrite bool_decide_eq_false_2 by (intros H; by apply H).
    cbn [ExportType ViewType Region MaxWorkers ReadAheadParts BatchSize ReportS3URI
         ShutdownTimeout setExportBucketName].
    replace (bool_decide (ExportType c ≠ "FULL") && bool_decide (ExportType c ≠ "INCREMENTAL"))
      with false
      by (destruct H5 as [-> | ->]; reflexivity).
    replace (bool_decide (ViewType c ≠ "NEW") && bool_decide (ViewType c ≠ "NEW_AND_OLD"))
      with false
      by (destruct H6 as [-> | ->]; reflexivity).
    rewrite (bool_decide_eq_false_2 (Region c = EmptyString)) by done.
    replace (MaxWorkers c <? 1) with false by (symmetry; apply Z.ltb_ge; lia).
    replace (ReadAheadParts c <? 1) with false by (symmetry; apply Z.ltb_ge; lia).
    replace (BatchSize c <? 1) with false by (symmetry; apply Z.ltb_ge; lia).
    replace (25 <? BatchSize c) with false by (symmetry; apply Z.ltb_ge; lia).
    replace (bool_decide (ReportS3URI c ≠ EmptyString)
             && negb (String.prefix "s3://" (ReportS3URI c))) with false
      by (destruct H11 as [-> | ->]; [reflexivity | by rewrite andb_false_r]).
    replace (ShutdownTimeout c <? 1000000000) with false by (symmetry; apply Z.ltb_ge; lia).
    reflexivity.
Qed.
End ValidateFacts.

(** X10, exercised on the sample configuration. *)
Lemma Validate_accepts_iff_witness :
  config.Validate (fun _ => Ok ("s3", "bucket")) sample_restore.cfg
    = (sample_restore.cfg, None).
Proof.
  apply (proj2 (Validate_accepts_iff (fun _ => Ok ("s3", "bucket")) sample_restore.cfg
                  sample_restore.cfg)).
  exists "bucket". split; [|reflexivity].
  unfold accepted. cbn. split_and!; (done || lia || auto).
Defined.

(** ** The writer: the waits *)
Section BackoffFacts.
Import itemimage writer.

Lemma int64_wrap_small z : - 2 ^ 63 <= z < 2 ^ 63 -> int64_wrap z = z.
Proof. intros Hz. unfold int64_wrap. rewrite Z.mod_small; lia. Qed.

(** Up to the 37th wait the product does not overflow: the delay is
    [100ms * 2^attempt], capped at 30 s. *)
Lemma backoffDelay_small attempt :
  0 <= attempt <= 36 ->
  backoffDelay attempt = Z.min (100 * Millisecond * 2 ^ attempt) (30 * Second).
Proof.
  intros Ha. replace attempt with (Z.of_nat (Z.to_nat attempt)) by lia.
  assert (Hm : (Z.to_nat attempt < 37)%nat) by lia.
  generalize dependent (Z.to_nat attempt). clear Ha. intros m Hm.
  do 37 (destruct m as [|m]; [vm_compute; reflexivity|]). lia.
Qed.

Lemma backoffDelay_range attempt :
  0 <= attempt <= 36 -> 100 * Millisecond <= backoffDelay attempt <= 30 * Second.
Proof.
  intros Ha. rewrite backoffDelay_small by done.
  assert (1 <= 2 ^ attempt) by (apply (Z.pow_le_mono_r 2 0 attempt); lia).
  unfold Millisecond, Second. lia.
Qed.

Lemma backoffWait_fires attempt w reply rest :
  0 <= attempt <= 36 -> waits w = reply :: rest ->
  backoffWait attempt w =
    (emit (EvBackoff attempt (backoffDelay attempt + rnd reply mod backoffDelay attempt))
       {| waits := rest; trace := trace w |},
     inr (ctxErr reply)).
Proof.
  intros Ha Hw. pose proof (backoffDelay_range attempt Ha) as Hd.
  unfold Millisecond, Second in Hd.
  unfold backoffWait, rand_Int64N. rewrite Hw.
  destruct (Z.leb_spec (backoffDelay attempt) 0) as [Hle|_]; [lia|].
  pose proof (Z.mod_pos_bound (rnd reply) (backoffDelay attempt)).
  rewrite int64_wrap_small by lia. reflexivity.
Qed.

(** X11. For the first 37 waits of a retry loop (attempts 0 to 36) the
    delay before the jitter is [100ms * 2^attempt] capped at 30 s, hence
    between 100 ms and 30 s, and the wait lasts that delay plus a jitter
    below it: at least the delay and less than twice the delay.  The
    wait returns what the context says. *)
Theorem backoffWait_delay_bounds (attempt : Z) (w : World) (reply : WaitReply)
    (rest : list WaitReply) :
  0 <= attempt <= 36 -> waits w = reply :: rest ->
  let d := Z.min (100 * Millisecond * 2 ^ attempt) (30 * Second) in
  exists delay,
    backoffWait attempt w =
      (emit (EvBackoff attempt delay) {| waits := rest; trace := trace w |},
       inr (ctxErr reply)) /\
    d <= delay < 2 * d /\
    100 * Millisecond <= d <= 30 * Second.
Proof.
  intros Ha Hw d.
  exists (backoffDelay attempt + rnd reply mod backoffDelay attempt).
  pose proof (backoffDelay_range attempt Ha) as Hd.
  pose proof (backoffDelay_small attempt Ha) as Hs. fold d in Hs.
  split; [by apply backoffWait_fires|]. rewrite <- Hs.
  unfold Millisecond, Second in *.
  pose proof (Z.mod_pos_bound (rnd reply) (backoffDelay attempt)). lia.
Qed.
End BackoffFacts.

(** X11, exercised on the fourth wait. *)
Lemma backoffWait_delay_bounds_witness :
  exists delay,
    writer.backoffWait 3 {| writer.waits := [sample_service.fires]; writer.trace := [] |} =
      (writer.emit (writer.EvBackoff 3 delay) {| writer.waits := []; writer.trace := [] |},
       inr None) /\
    800000000 <= delay < 2 * 800000000 /\
    100 * writer.Millisecond <= 800000000 <= 30 * writer.Second.
Proof.
  refine (backoffWait_delay_bounds 3
            {| writer.waits := [sample_service.fires]; writer.trace := [] |}
            sample_service.fires [] _ eq_refl).
  lia.
Defined.

(** ** The writer: what reaches the table *)
Section DeliveryFacts.
Import itemimage writer.
Variable rangeOrder : forall V, gmap string V -> list (string * V).
Variable tableName : string.
Variable batchSize : Z.

Local Abbreviation updateParts := (updateParts rangeOrder).
Local Abbreviation updateInput := (updateInput tableName).
Local Abbreviation updateItem := (updateItem rangeOrder tableName).
Local Abbreviation convert := (convert rangeOrder tableName).
Local Abbreviation batchLoop := (batchLoop rangeOrder tableName batchSize).
Local Abbreviation WriteBatch := (WriteBatch rangeOrder tableName batchSize).

(** The write request a PUT or a DELETE becomes. *)
Definition toRequest (op : Operation) : option WriteRequest :=
  match Type_ op with
  | OpPut => Some (PutRequest (NewImage op))
  | OpDelete => Some (DeleteRequest (Keys op))
  | OpUpdate => None
  end.

(** The [UpdateItem] input an UPDATE becomes, when it changes anything. *)
Definition toUpdate (op : Operation) : option UpdateItemInput :=
  match Type_ op with
  | OpUpdate =>
      let p := updateParts op in
      if bool_decide (setExpr p = []) && bool_decide (removeExpr p = []) then None
      else Some (updateInput op p)
  | _ => None
  end.

Definition updateCalls (t : list Event) : list UpdateItemInput :=
  omap (fun ev => match ev with EvUpdateItem input => Some input | _ => None end) t.

(** The requests the batched calls of a trace carry for the table. *)
Definition sentRequests (t : list Event) : list WriteRequest :=
  batchCalls t ≫= (fun input => default [] (golookup tableName (RequestItems input))).

(** The attempts of the waits of a trace. *)
Definition backoffs (t : list Event) : list Z :=
  omap (fun ev => match ev with EvBackoff attempt _ => Some attempt | _ => None end) t.

(** A reply that takes the whole batch. *)
Definition takesAll (reply : BatchReply) : Prop :=
  forall input, exists output,
    reply input = Ok output /\ golen (UnprocessedItems output) = 0%nat.

Lemma batchCalls_app t1 t2 : batchCalls (t1 ++ t2) = batchCalls t1 ++ batchCalls t2.
Proof. unfold batchCalls. apply omap_app. Qed.

Lemma updateCalls_app t1 t2 : updateCalls (t1 ++ t2) = updateCalls t1 ++ updateCalls t2.
Proof. unfold updateCalls. apply omap_app. Qed.

Lemma sentRequests_app t1 t2 : sentRequests (t1 ++ t2) = sentRequests t1 ++ sentRequests t2.
Proof. unfold sentRequests. by rewrite batchCalls_app, bind_app. Qed.

Lemma backoffs_app t1 t2 : backoffs (t1 ++ t2) = backoffs t1 ++ backoffs t2.
Proof. unfold backoffs. apply omap_app. Qed.

Lemma sentRequests_updates l : sentRequests (EvUpdateItem <$> l) = [].
Proof. unfold sentRequests, batchCalls. induction l as [|x l IH]; [done|]. exact IH. Qed.

Lemma updateCalls_updates l : updateCalls (EvUpdateItem <$> l) = l.
Proof. unfold updateCalls. induction l as [|x l IH]; [done|]. cbn. by f_equal. Qed.

Lemma backoffs_updates l : backoffs (EvUpdateItem <$> l) = [].
Proof. unfold backoffs. induction l as [|x l IH]; [done|]. exact IH. Qed.

Lemma omap_cons_Some {A B} (f : A -> option B) x l y :
  f x = Some y -> omap f (x :: l) = y :: omap f l.
Proof. intros H. cbn. by rewrite H. Qed.

Lemma omap_cons_None {A B} (f : A -> option B) x l :
  f x = None -> omap f (x :: l) = omap f l.
Proof. intros H. cbn. by rewrite H. Qed.

(** The conversion of a sub-batch when every [UpdateItem] succeeds. *)
Lemma convert_ok batch : forall requests ui w,
  Forall (fun r => r = None) ui -> (length batch <= length ui)%nat ->
  exists ui' w',
    convert batch requests ui w = (requests ++ omap toRequest batch, ui', w', Returns None) /\
    Forall (fun r => r = None) ui' /\
    (length ui <= length ui' + length batch)%nat /\
    waits w' = waits w /\
    trace w' = trace w ++ (EvUpdateItem <$> omap toUpdate batch).
Proof.
  induction batch as [|op rest IH]; intros requests ui w Hui Hlen; cbn [writer.convert].
  - exists ui, w. rewrite !app_nil_r. split_and!; try done. cbn. lia.
  - cbn [length] in Hlen.
    destruct (Type_ op) eqn:Ht.
    + assert (Hr : toRequest op = Some (PutRequest (NewImage op)))
        by (unfold toRequest; by rewrite Ht).
      assert (Hu : toUpdate op = None) by (unfold toUpdate; by rewrite Ht).
      rewrite (omap_cons_Some _ _ _ _ Hr), (omap_cons_None _ _ _ Hu).
      destruct (IH (requests ++ [PutRequest (NewImage op)]) ui w Hui ltac:(lia))
        as (ui' & w' & E & Hf & Hl & Hw & Htr).
      exists ui', w'. rewrite E, <- app_assoc.
      split_and!; try done. cbn. lia.
    + assert (Hr : toRequest op = Some (DeleteRequest (Keys op)))
        by (unfold toRequest; by rewrite Ht).
      assert (Hu : toUpdate op = None) by (unfold toUpdate; by rewrite Ht).
      rewrite (omap_cons_Some _ _ _ _ Hr), (omap_cons_None _ _ _ Hu).
      destruct (IH (requests ++ [DeleteRequest (Keys op)]) ui w Hui ltac:(lia))
        as (ui' & w' & E & Hf & Hl & Hw & Htr).
      exists ui', w'. rewrite E, <- app_assoc.
      split_and!; try done. cbn. lia.
    + assert (Hr : toRequest op = None) by (unfold toRequest; by rewrite Ht).
      rewrite (omap_cons_None _ _ _ Hr).
      unfold writer.updateItem.
      destruct (bool_decide (setExpr (updateParts op) = [])
                && bool_decide (removeExpr (updateParts op) = [])) eqn:Hnone.
      * assert (Hu : toUpdate op = None) by (unfold toUpdate; by rewrite Ht, Hnone).
        rewrite (omap_cons_None _ _ _ Hu).
        destruct (IH requests ui w Hui ltac:(lia)) as (ui' & w' & E & Hf & Hl & Hw & Htr).
        exists ui', w'. rewrite E.
        split_and!; try done. cbn. lia.
      * assert (Hu : toUpdate op = Some (updateInput op (updateParts op)))
          by (unfold toUpdate; by rewrite Ht, Hnone).
        rewrite (omap_cons_Some _ _ _ _ Hu).
        destruct ui as [|r ui]; [cbn in Hlen; lia|].
        apply Forall_cons in Hui as [-> Hui]. cbn [updateRetry].
        destruct (IH requests ui (emit (EvUpdateItem (updateInput op (updateParts op))) w)
                    Hui ltac:(cbn in Hlen; lia)) as (ui' & w' & E & Hf & Hl & Hw & Htr).
        exists ui', w'. rewrite E.
        split_and!; try done.
        -- cbn in *. lia.
        -- rewrite Htr. cbn. by rewrite <- app_assoc.
Qed.

Lemma writeRetry_ok reply replies input attempt w :
  takesAll reply ->
  writeRetry (reply :: replies) input attempt w =
    (replies, emit (EvBatchWriteItem input) w, Returns None).
Proof.
  intros Hr. cbn [writeRetry]. destruct (Hr input) as (output & -> & Hlen).
  by rewrite bool_decide_eq_false_2 by (intros H; by apply H).
Qed.

Lemma omap_take_drop {A B} (f : A -> option B) n (l : list A) :
  omap f (take n l) ++ omap f (drop n l) = omap f l.
Proof. by rewrite <- omap_app, take_drop. Qed.

Lemma batchLoop_ok fuel ops : forall i env,
  1 <= batchSize -> 0 <= i ->
  Forall takesAll (batchReplies env) ->
  Forall (fun r => r = None) (updateReplies env) ->
  (length (drop (Z.to_nat i) ops) <= length (batchReplies env))%nat ->
  (length (drop (Z.to_nat i) ops) <= length (updateReplies env))%nat ->
  Z.of_nat (length ops) - i < Z.of_nat fuel -> (1 <= fuel)%nat ->
  exists env' new,
    batchLoop fuel ops i env = (env', Returns None) /\
    trace (world env') = trace (world env) ++ new /\
    sentRequests new = omap toRequest (drop (Z.to_nat i) ops) /\
    updateCalls new = omap toUpdate (drop (Z.to_nat i) ops) /\
    backoffs new = [].
Proof.
  induction fuel as [|fuel IH]; intros i env HB Hi Hbw Hui Hlb Hlu Hfuel Hpos; [lia|].
  cbn [writer.batchLoop].
  destruct (Z.ltb_spec i (Z.of_nat (length ops))) as [Hlt|Hge].
  2:{ exists env, []. rewrite app_nil_r, drop_ge by lia. by split_and!. }
  rewrite (slice_take batchSize) by lia.
  set (rest := drop (Z.to_nat i) ops) in *.
  set (batch := take (Z.to_nat batchSize) rest).
  assert (Hrest : drop (Z.to_nat (i + batchSize)) ops = drop (Z.to_nat batchSize) rest).
  { unfold rest. rewrite drop_drop. f_equal. lia. }
  assert (Hrl : (1 <= length rest)%nat) by (unfold rest; rewrite length_drop; lia).
  assert (Hbl : (length batch + length (drop (Z.to_nat batchSize) rest) = length rest)%nat).
  { unfold batch. rewrite <- length_app, take_drop. done. }
  assert (Hb1 : (1 <= length batch)%nat).
  { unfold batch. rewrite length_take. lia. }
  destruct (convert_ok batch [] (updateReplies env) (emit (EvSubBatch batch) (world env)) Hui
              ltac:(lia)) as (ui' & w' & E & Hf & Hl & Hw & Htr).
  rewrite E. cbn [app].
  assert (Hsplit : forall (A : Type) (f : Operation -> option A),
            omap f batch ++ omap f (drop (Z.to_nat batchSize) rest) = omap f rest).
  { intros A f. apply omap_take_drop. }
  assert (Hnext : forall env1,
            Forall takesAll (batchReplies env1) ->
            Forall (fun r => r = None) (updateReplies env1) ->
            (length (drop (Z.to_nat batchSize) rest) <= length (batchReplies env1))%nat ->
            (length (drop (Z.to_nat batchSize) rest) <= length (updateReplies env1))%nat ->
            exists env' new,
              batchLoop fuel ops (i + batchSize) env1 = (env', Returns None) /\
              trace (world env') = trace (world env1) ++ new /\
              sentRequests new = omap toRequest (drop (Z.to_nat batchSize) rest) /\
              updateCalls new = omap toUpdate (drop (Z.to_nat batchSize) rest) /\
              backoffs new = []).
  { intros env1 H1 H2 H3 H4. rewrite <- Hrest in *. apply IH; try done; lia. }
  destruct (bool_decide_reflect (omap toRequest batch = [])) as [Hnil|Hnn].
  - destruct (Hnext {| batchReplies := batchReplies env; updateReplies := ui'; world := w' |})
      as (env' & new & E' & Htr' & Hs & Hu & Hb); cbn [batchReplies updateReplies world];
      [done | done | lia | lia |].
    cbn [world] in Htr'.
    exists env', ([EvSubBatch batch] ++ (EvUpdateItem <$> omap toUpdate batch) ++ new).
    rewrite E'. split_and!; [done | | | |].
    + rewrite Htr', Htr. cbn. by rewrite <- !app_assoc.
    + rewrite !sentRequests_app, sentRequests_updates, Hs, <- (Hsplit _ toRequest), Hnil.
      done.
    + rewrite !updateCalls_app, updateCalls_updates, Hu, <- (Hsplit _ toUpdate). done.
    + rewrite !backoffs_app, backoffs_updates, Hb. done.
  - destruct (batchReplies env) as [|reply bw] eqn:Ebw; [cbn in Hlb; lia|].
    apply Forall_cons in Hbw as [Hreply Hbw].
    rewrite (writeRetry_ok _ _ _ _ _ Hreply).
    set (input := {| RequestItems := Some {[ tableName := omap toRequest batch ]} |}).
    destruct (Hnext {| batchReplies := bw; updateReplies := ui';
                       world := emit (EvBatchWriteItem input) w' |})
      as (env' & new & E' & Htr' & Hs & Hu & Hb); cbn [batchReplies updateReplies world];
      [done | done | cbn in Hlb; lia | lia |].
    cbn [world] in Htr'.
    exists env', ([EvSubBatch batch] ++ (EvUpdateItem <$> omap toUpdate batch)
                    ++ [EvBatchWriteItem input] ++ new).
    rewrite E'. split_and!; [done | | | |].
    + rewrite Htr'. cbn. rewrite Htr. cbn. by rewrite <- !app_assoc.
    + rewrite !sentRequests_app, sentRequests_updates, Hs, <- (Hsplit _ toRequest).
      unfold sentRequests at 1 2. cbn. rewrite lookup_singleton_eq. cbn.
      by rewrite app_nil_r.
    + rewrite !updateCalls_app, updateCalls_updates, Hu, <- (Hsplit _ toUpdate). done.
    + rewrite !backoffs_app, backoffs_updates, Hb. done.
Qed.

(** X12. When the service takes every batched call whole and every
    [UpdateItem] succeeds, [WriteBatch] returns nil and nothing is lost
    or reordered: the requests of its batched calls, put end to end, are
    the PUTs and DELETEs of the input in their order, each PUT with its
    new image and each DELETE with its keys; its [UpdateItem] calls are
    the UPDATEs of the input that change something, in their order; and
    it never waits. *)
Theorem WriteBatch_delivers_every_operation (ops : list Operation) (env : Env) :
  1 <= batchSize ->
  Forall takesAll (batchReplies env) ->
  Forall (fun r => r = None) (updateReplies env) ->
  (length ops <= length (batchReplies env))%nat ->
  (length ops <= length (updateReplies env))%nat ->
  exists env' new,
    WriteBatch ops env = (env', Returns None) /\
    trace (world env') = trace (world env) ++ new /\
    sentRequests new = omap toRequest ops /\
    updateCalls new = omap toUpdate ops /\
    backoffs new = [].
Proof.
  intros HB Hbw Hui Hlb Hlu. unfold writer.WriteBatch.
  destruct (bool_decide_reflect (ops = [])) as [->|Hne].
  { exists env, []. by rewrite app_nil_r. }
  apply batchLoop_ok; try done; try lia; cbn; lia.
Qed.
End DeliveryFacts.

(** ** The writer: the retries of one batched call *)
Section RetryFacts.
Import itemimage writer.
Variable rangeOrder : forall V, gmap string V -> list (string * V).
Variable tableName : string.
Variable batchSize : Z.

Local Abbreviation convert := (convert rangeOrder tableName).
Local Abbreviation batchLoop := (batchLoop rangeOrder tableName batchSize).
Local Abbreviation WriteBatch := (WriteBatch rangeOrder tableName batchSize).
Local Abbreviation sentRequests := (sentRequests tableName).

(** A PUT or a DELETE. *)
Definition plain (op : Operation) : Prop := Type_ op <> OpUpdate.

(** The one batched call of a sub-batch of PUTs and DELETEs. *)
Definition callFor (ops : list Operation) : BatchWriteItemInput :=
  {| RequestItems := Some {[ tableName := omap toRequest ops ]} |}.

Lemma convert_plain batch : forall requests ui w,
  Forall plain batch ->
  convert batch requests ui w = (requests ++ omap toRequest batch, ui, w, Returns None).
Proof.
  induction batch as [|op rest IH]; intros requests ui w Hp; cbn [writer.convert].
  - by rewrite app_nil_r.
  - apply Forall_cons in Hp as [Hop Hp]. unfold plain in Hop.
    destruct (Type_ op) eqn:Ht; [| |done].
    + rewrite (omap_cons_Some toRequest op rest (PutRequest (NewImage op)))
        by (unfold toRequest; by rewrite Ht).
      by rewrite (IH _ _ _ Hp), <- app_assoc.
    + rewrite (omap_cons_Some toRequest op rest (DeleteRequest (Keys op)))
        by (unfold toRequest; by rewrite Ht).
      by rewrite (IH _ _ _ Hp), <- app_assoc.
Qed.

Lemma toRequest_plain ops : ops <> [] -> Forall plain ops -> omap toRequest ops <> [].
Proof.
  destruct ops as [|op rest]; [done|]. intros _ [Hop _]%Forall_cons. unfold plain in Hop.
  cbn. unfold toRequest at 1. by destruct (Type_ op).
Qed.

(** One sub-batch of PUTs and DELETEs: [WriteBatch] is the retry loop
    around its one batched call. *)
Lemma WriteBatch_single ops env :
  ops <> [] -> Forall plain ops -> Z.of_nat (length ops) <= batchSize ->
  WriteBatch ops env =
    (let '(bw, w, o) := writeRetry (batchReplies env) (callFor ops) 0
                          (emit (EvSubBatch ops) (world env)) in
     ({| batchReplies := bw; updateReplies := updateReplies env; world := w |}, o)).
Proof.
  intros Hne Hp Hlen. unfold writer.WriteBatch.
  rewrite bool_decide_eq_false_2 by done.
  assert (Hl : (1 <= length ops)%nat) by (destruct ops; [done | cbn; lia]).
  cbn [writer.batchLoop].
  destruct (Z.ltb_spec 0 (Z.of_nat (length ops))) as [_|]; [|lia].
  rewrite (slice_take batchSize) by lia.
  rewrite drop_0, take_ge by lia.
  rewrite (convert_plain _ _ _ _ Hp). cbn [app].
  rewrite bool_decide_eq_false_2 by (by apply toRequest_plain).
  fold (callFor ops).
  destruct (writeRetry (batchReplies env) (callFor ops) 0 (emit (EvSubBatch ops) (world env)))
    as [[bw w] o].
  destruct o as [[err|]| | |]; try reflexivity.
  destruct (length ops) as [|n] eqn:En; [lia|]. cbn [writer.batchLoop].
  destruct (Z.ltb_spec (0 + batchSize) (Z.of_nat (length ops))) as [|_]; [lia|].
  reflexivity.
Qed.

(** The failures a retry loop waits after: from [attempt] on, each reply
    fails on [input], with a throttling error or, while the counter is
    below [maxRetries], with any error. *)
Fixpoint retryable (input : BatchWriteItemInput) (attempt : Z) (fs : list BatchReply) : Prop :=
  match fs with
  | [] => True
  | reply :: fs =>
      (exists err, reply input = Err err /\
         (isThrottlingError err = true \/ attempt < maxRetries)) /\
      retryable input (attempt + 1) fs
  end.

Definition timerFires (wr : WaitReply) : Prop := ctxErr wr = None.

Lemma retryable_snoc input fs failing : forall attempt,
  retryable input attempt (fs ++ [failing]) <->
  retryable input attempt fs /\
  exists err, failing input = Err err /\
    (isThrottlingError err = true \/ attempt + Z.of_nat (length fs) < maxRetries).
Proof.
  induction fs as [|f fs IH]; intros attempt; cbn [app retryable length].
  - rewrite Z.add_0_r. tauto.
  - rewrite IH.
    replace (attempt + Z.of_nat (S (length fs))) with (attempt + 1 + Z.of_nat (length fs))
      by lia.
    tauto.
Qed.

Lemma writeRetry_retries fs : forall input attempt w ws rest restw,
  0 <= attempt -> attempt + Z.of_nat (length fs) <= 37 ->
  retryable input attempt fs ->
  length ws = length fs -> Forall timerFires ws ->
  waits w = ws ++ restw ->
  exists w' new,
    writeRetry (fs ++ rest) input attempt w =
      writeRetry rest input (attempt + Z.of_nat (length fs)) w' /\
    waits w' = restw /\
    trace w' = trace w ++ new /\
    batchCalls new = replicate (length fs) input /\
    backoffs new = seqZ attempt (Z.of_nat (length fs)) /\
    subBatches new = [].
Proof.
  induction fs as [|reply fs IH]; intros input attempt w ws rest restw Ha Hn Hr Hlen Hf Hw.
  - destruct ws; [|done]. exists w, []. cbn. rewrite Z.add_0_r, app_nil_r. by split_and!.
  - destruct ws as [|wr ws]; [done|]. cbn [length] in *.
    apply Forall_cons in Hf as [Hwr Hf]. destruct Hr as [(err & Herr & Hkind) Hr].
    rewrite <- app_comm_cons. cbn [writeRetry]. rewrite Herr.
    assert (Hb : backoffWait attempt (emit (EvBatchWriteItem input) w) =
              (emit (EvBackoff attempt
                       (backoffDelay attempt + rnd wr mod backoffDelay attempt))
                 {| waits := ws ++ restw; trace := trace w ++ [EvBatchWriteItem input] |},
               inr None)).
    { rewrite (backoffWait_fires attempt _ wr (ws ++ restw)) by (done || lia).
      by rewrite Hwr. }
    assert (Hgo : (if isThrottlingError err
                   then
                    match backoffWait attempt (emit (EvBatchWriteItem input) w) with
                    | (w0, inl stop) => (fs ++ rest, w0, stop)
                    | (w0, inr (Some ctxerr)) => (fs ++ rest, w0, Returns (Some ctxerr))
                    | (w0, inr None) =>
                        writeRetry (fs ++ rest) input (int64_wrap (attempt + 1)) w0
                    end
                   else
                    if attempt <? maxRetries
                    then
                     match backoffWait attempt (emit (EvBatchWriteItem input) w) with
                     | (w0, inl stop) => (fs ++ rest, w0, stop)
                     | (w0, inr (Some ctxerr)) => (fs ++ rest, w0, Returns (Some ctxerr))
                     | (w0, inr None) =>
                         writeRetry (fs ++ rest) input (int64_wrap (attempt + 1)) w0
                     end
                    else
                     (fs ++ rest, emit (EvBatchWriteItem input) w,
                      Returns (Some (Errorf_w "failed to write batch after 5 retries" err))))
                  = writeRetry (fs ++ rest) input (attempt + 1)
                      (emit (EvBackoff attempt
                               (backoffDelay attempt + rnd wr mod backoffDelay attempt))
                         {| waits := ws ++ restw;
                            trace := trace w ++ [EvBatchWriteItem input] |})).
    { rewrite Hb, int64_wrap_small by lia.
      destruct (isThrottlingError err); [done|].
      destruct Hkind as [|Hlt]; [done|].
      by rewrite (proj2 (Z.ltb_lt _ _) Hlt). }
    rewrite Hgo.
    destruct (IH input (attempt + 1)
                (emit (EvBackoff attempt
                         (backoffDelay attempt + rnd wr mod backoffDelay attempt))
                   {| waits := ws ++ restw; trace := trace w ++ [EvBatchWriteItem input] |})
                ws rest restw) as (w' & new & E & Hw' & Ht & Hc & Hbo & Hsb);
      [lia | lia | done | lia | done | done |].
    exists w', ([EvBatchWriteItem input;
                 EvBackoff attempt (backoffDelay attempt + rnd wr mod backoffDelay attempt)]
                ++ new).
    rewrite E. split_and!.
    + f_equal. lia.
    + done.
    + rewrite Ht. cbn. by rewrite <- !app_assoc.
    + rewrite batchCalls_app, Hc. done.
    + rewrite backoffs_app, Hbo. cbn.
      rewrite (seqZ_cons attempt) by lia. do 2 f_equal; lia.
    + rewrite subBatches_app, Hsb. done.
Qed.

(** X13. One sub-batch of PUTs and DELETEs, and a service that fails
    the call [n] times, [n] up to 37, before it takes it; each failure
    is a throttling error or, among the first five, any error, and no
    wait is cut short.  Then [WriteBatch] returns nil after [n + 1]
    calls, all with the same requests, and [n] waits whose attempts
    count from 0. *)
Theorem WriteBatch_retries_until_success (ops : list Operation) (env : Env)
    (fs : list BatchReply) (ok : BatchReply) (rest : list BatchReply)
    (ws restw : list WaitReply) :
  ops <> [] -> Forall plain ops -> Z.of_nat (length ops) <= batchSize ->
  batchReplies env = fs ++ ok :: rest ->
  retryable (callFor ops) 0 fs -> (length fs <= 37)%nat ->
  takesAll ok ->
  waits (world env) = ws ++ restw -> length ws = length fs -> Forall timerFires ws ->
  exists env' new,
    WriteBatch ops env = (env', Returns None) /\
    batchReplies env' = rest /\ waits (world env') = restw /\
    trace (world env') = trace (world env) ++ new /\
    batchCalls new = replicate (S (length fs)) (callFor ops) /\
    backoffs new = seqZ 0 (Z.of_nat (length fs)).
Proof.
  intros Hne Hp Hlen Hbr Hr Hn Hok Hw Hws Hf.
  rewrite (WriteBatch_single _ _ Hne Hp Hlen), Hbr.
  destruct (writeRetry_retries fs (callFor ops) 0 (emit (EvSubBatch ops) (world env))
              ws (ok :: rest) restw) as (w' & new & E & Hw' & Ht & Hc & Hbo & Hsb);
    [lia | lia | done | done | done | done |].
  rewrite E, (writeRetry_ok _ _ _ _ _ Hok).
  eexists _, ([EvSubBatch ops] ++ new ++ [EvBatchWriteItem (callFor ops)]).
  split; [reflexivity|]. cbn [batchReplies world]. split_and!; [done | done | | |].
  - cbn. rewrite Ht. cbn. by rewrite <- !app_assoc.
  - rewrite !batchCalls_app, Hc. cbn.
    by rewrite replicate_cons_app.
  - rewrite !backoffs_app, Hbo. cbn. by rewrite app_nil_r.
Qed.

(** X14. The counter of the retries is shared: once the call has
    failed five times or more (up to 37), throttled or not, the next
    error that is not a throttling error is returned at once, wrapped
    as a failure after 5 retries, with no further wait and no further
    call. *)
Theorem WriteBatch_surfaces_other_error (ops : list Operation) (env : Env)
    (fs : list BatchReply) (last : BatchReply) (rest : list BatchReply)
    (ws restw : list WaitReply) (err : error) :
  ops <> [] -> Forall plain ops -> Z.of_nat (length ops) <= batchSize ->
  batchReplies env = fs ++ last :: rest ->
  retryable (callFor ops) 0 fs -> (5 <= length fs <= 37)%nat ->
  last (callFor ops) = Err err -> isThrottlingError err = false ->
  waits (world env) = ws ++ restw -> length ws = length fs -> Forall timerFires ws ->
  exists env' new,
    WriteBatch ops env =
      (env', Returns (Some (Errorf_w "failed to write batch after 5 retries" err))) /\
    batchReplies env' = rest /\ waits (world env') = restw /\
    trace (world env') = trace (world env) ++ new /\
    batchCalls new = replicate (S (length fs)) (callFor ops) /\
    backoffs new = seqZ 0 (Z.of_nat (length fs)).
Proof.
  intros Hne Hp Hlen Hbr Hr Hn Hlast Hnt Hw Hws Hf.
  rewrite (WriteBatch_single _ _ Hne Hp Hlen), Hbr.
  destruct (writeRetry_retries fs (callFor ops) 0 (emit (EvSubBatch ops) (world env))
              ws (last :: rest) restw) as (w' & new & E & Hw' & Ht & Hc & Hbo & Hsb);
    [lia | lia | done | done | done | done |].
  rewrite E. cbn [writeRetry]. rewrite Hlast, Hnt.
  destruct (Z.ltb_spec (0 + Z.of_nat (length fs)) maxRetries) as [Hlt|_];
    [unfold maxRetries in Hlt; lia|].
  eexists _, ([EvSubBatch ops] ++ new ++ [EvBatchWriteItem (callFor ops)]).
  split; [reflexivity|]. cbn [batchReplies world]. split_and!; [done | done | | |].
  - cbn. rewrite Ht. cbn. by rewrite <- !app_assoc.
  - rewrite !batchCalls_app, Hc. cbn.
    by rewrite replicate_cons_app.
  - rewrite !backoffs_app, Hbo. cbn. by rewrite app_nil_r.
Qed.

(** X15. A context that is done during a wait ends the retries: the
    call that failed is not repeated, and [WriteBatch] returns
    [ctx.Err()] as it is, not wrapped. *)
Theorem WriteBatch_cancelled_during_wait (ops : list Operation) (env : Env)
    (fs : list BatchReply) (failing : BatchReply) (rest : list BatchReply)
    (ws : list WaitReply) (wr : WaitReply) (restw : list WaitReply) (ctxerr : error) :
  ops <> [] -> Forall plain ops -> Z.of_nat (length ops) <= batchSize ->
  batchReplies env = fs ++ failing :: rest ->
  retryable (callFor ops) 0 (fs ++ [failing]) -> (length fs <= 36)%nat ->
  waits (world env) = ws ++ wr :: restw -> length ws = length fs -> Forall timerFires ws ->
  ctxErr wr = Some ctxerr ->
  exists env' new,
    WriteBatch ops env = (env', Returns (Some ctxerr)) /\
    batchReplies env' = rest /\ waits (world env') = restw /\
    trace (world env') = trace (world env) ++ new /\
    batchCalls new = replicate (S (length fs)) (callFor ops).
Proof.
  intros Hne Hp Hlen Hbr Hr Hn Hw Hws Hf Hctx.
  rewrite (WriteBatch_single _ _ Hne Hp Hlen), Hbr.
  apply retryable_snoc in Hr as Hr1.
  destruct Hr1 as [Hr1 (err & Herr & Hkind)].
  destruct (writeRetry_retries fs (callFor ops) 0 (emit (EvSubBatch ops) (world env))
              ws (failing :: rest) (wr :: restw)) as (w' & new & E & Hw' & Ht & Hc & Hbo & Hsb);
    [lia | lia | done | done | done | done |].
  rewrite E. cbn [writeRetry]. rewrite Herr.
  rewrite (backoffWait_fires (0 + Z.of_nat (length fs)) _ wr restw) by (done || lia).
  rewrite Hctx.
  assert (Hsame : forall (A : Type) (x : A) (b c : bool), (b = true \/ c = true) ->
            (if b then x else if c then x else x) = x)
    by (intros A x [] []; done).
  eexists _, ([EvSubBatch ops] ++ new ++ [EvBatchWriteItem (callFor ops);
               EvBackoff (0 + Z.of_nat (length fs))
                 (backoffDelay (0 + Z.of_nat (length fs))
                  + rnd wr mod backoffDelay (0 + Z.of_nat (length fs)))]).
  split.
  - destruct (isThrottlingError err); [reflexivity|].
    destruct Hkind as [|Hlt]; [done|]. rewrite (proj2 (Z.ltb_lt _ _) Hlt). reflexivity.
  - cbn [batchReplies world]. split_and!; [done | done | |].
    + cbn. rewrite Ht. cbn. by rewrite <- !app_assoc.
    + rewrite !batchCalls_app, Hc. cbn.
      by rewrite replicate_cons_app.
Qed.

(** X16. Requests the service hands back as unprocessed are sent again
    after a wait, and only they: the second call carries the
    unprocessed items of the first answer in place of the requests. *)
Theorem WriteBatch_resubmits_unprocessed (ops : list Operation) (env : Env)
    (first second : BatchReply) (rest : list BatchReply)
    (unprocessed : GoMap (list WriteRequest)) (wr : WaitReply) (restw : list WaitReply) :
  ops <> [] -> Forall plain ops -> Z.of_nat (length ops) <= batchSize ->
  batchReplies env = first :: second :: rest ->
  first (callFor ops) = Ok {| UnprocessedItems := unprocessed |} ->
  golen unprocessed <> 0%nat ->
  takesAll second ->
  waits (world env) = wr :: restw -> timerFires wr ->
  exists env' new,
    WriteBatch ops env = (env', Returns None) /\
    batchReplies env' = rest /\
    trace (world env') = trace (world env) ++ new /\
    batchCalls new = [callFor ops; {| RequestItems := unprocessed |}] /\
    backoffs new = [0].
Proof.
  intros Hne Hp Hlen Hbr Hfirst Hun Hsecond Hw Hwr.
  rewrite (WriteBatch_single _ _ Hne Hp Hlen), Hbr.
  cbn [writeRetry]. rewrite Hfirst. cbn [UnprocessedItems].
  rewrite bool_decide_eq_true_2 by done.
  rewrite (backoffWait_fires 0 _ wr restw) by (done || lia). rewrite Hwr.
  rewrite int64_wrap_small by lia.
  destruct (Hsecond {| RequestItems := unprocessed |}) as (output & -> & Hnone).
  rewrite bool_decide_eq_false_2 by (intros H; by apply H).
  eexists _, _. split; [reflexivity|]. cbn [batchReplies world].
  split_and!; [done | | |].
  - cbn. rewrite <- !app_assoc. reflexivity.
  - reflexivity.
  - reflexivity.
Qed.
End RetryFacts.

(** X17. The writer takes any batch size it is given.  With the size 0
    the loop over the sub-batches never ends: it cuts empty sub-batches
    for ever and calls nothing.  With a negative size it panics on its
    first slice. *)
Theorem WriteBatch_needs_positive_batchSize
    (rangeOrder : forall V, gmap string V -> list (string * V)) (tableName : string)
    (ops : list itemimage.Operation) (env : writer.Env) :
  ops <> [] ->
  (forall fuel,
     let r := writer.batchLoop rangeOrder tableName 0 fuel ops 0 env in
     r.2 = writer.Diverges /\
     batchCalls (writer.trace (writer.world r.1)) =
       batchCalls (writer.trace (writer.world env)) /\
     writer.batchReplies r.1 = writer.batchReplies env) /\
  (forall batchSize, batchSize < 0 ->
     writer.WriteBatch rangeOrder tableName batchSize ops env =
       (env, writer.Panics "slice bounds out of range")).
Proof.
  intros Hne.
  assert (Hl : (1 <= length ops)%nat) by (destruct ops; [done | cbn; lia]).
  split.
  - intros fuel. revert env. induction fuel as [|fuel IH]; intros env; [done|].
    cbn [writer.batchLoop].
    destruct (Z.ltb_spec 0 (Z.of_nat (length ops))) as [_|]; [|lia].
    destruct (Z.ltb_spec (Z.of_nat (length ops)) (0 + 0)) as [|_]; [lia|].
    unfold writer.slice.
    replace ((0 <=? 0) && (0 <=? 0 + 0) && (0 + 0 <=? Z.of_nat (length ops))) with true
      by (symmetry; rewrite !andb_true_iff, !Z.leb_le; lia).
    change (take (Z.to_nat (0 + 0 - 0)) (drop (Z.to_nat 0) ops))
      with (@nil itemimage.Operation).
    cbn [writer.convert]. change (0 + 0) with 0.
    rewrite bool_decide_eq_true_2 by done.
    match goal with |- context [writer.batchLoop _ _ _ fuel ops _ ?e] =>
      destruct (IH e) as (H1 & H2 & H3) end.
    cbv zeta. split; [exact H1|]. split; [|exact H3].
    rewrite H2. cbn. by rewrite batchCalls_app, app_nil_r.
  - intros batchSize HB. unfold writer.WriteBatch.
    rewrite bool_decide_eq_false_2 by done. cbn [writer.batchLoop].
    destruct (Z.ltb_spec 0 (Z.of_nat (length ops))) as [_|]; [|lia].
    destruct (Z.ltb_spec (Z.of_nat (length ops)) (0 + batchSize)) as [|_]; [lia|].
    unfold writer.slice.
    replace ((0 <=? 0) && (0 <=? 0 + batchSize)) with false
      by (symmetry; rewrite andb_false_iff, !Z.leb_gt; lia).
    reflexivity.
Qed.

Lemma takesAll_reply_ok : takesAll sample_service.reply_ok.
Proof. intros input. exists {| writer.UnprocessedItems := None |}. by split. Qed.

Lemma plain_put1 : Forall plain [sample_writer.put1].
Proof. constructor; [discriminate | constructor]. Qed.

Lemma retryable_throttled input n : forall attempt,
  retryable input attempt (replicate n sample_service.reply_throttled).
Proof.
  induction n as [|n IH]; intros attempt; [done|]. cbn [replicate retryable].
  split; [|apply IH]. eexists. split; [reflexivity | by left].
Qed.

(** X12, exercised: five operations in batches of two. *)
Lemma WriteBatch_delivers_every_operation_witness :
  let e := sample_service.env (replicate 5 sample_service.reply_ok) (replicate 5 None) [] in
  exists env' new,
    sample_service.run 2 sample_service.five_ops e = (env', writer.Returns None) /\
    writer.trace (writer.world env') = writer.trace (writer.world e) ++ new /\
    sentRequests "table" new = omap toRequest sample_service.five_ops /\
    updateCalls new = omap (toUpdate sample_writer.order "table") sample_service.five_ops /\
    backoffs new = [].
Proof.
  intros e.
  apply (WriteBatch_delivers_every_operation sample_writer.order "table" 2
           sample_service.five_ops e).
  - lia.
  - apply Forall_replicate, takesAll_reply_ok.
  - by apply Forall_replicate.
  - cbn. lia.
  - cbn. lia.
Defined.

(** X13, exercised: 37 throttled calls, then success. *)
Lemma WriteBatch_retries_until_success_witness :
  let e := sample_service.env
             (replicate 37 sample_service.reply_throttled ++ [sample_service.reply_ok]) []
             (replicate 37 sample_service.fires) in
  exists env' new,
    sample_service.run 25 [sample_writer.put1] e = (env', writer.Returns None) /\
    writer.batchReplies env' = [] /\ writer.waits (writer.world env') = [] /\
    writer.trace (writer.world env') = writer.trace (writer.world e) ++ new /\
    batchCalls new = replicate 38 (callFor "table" [sample_writer.put1]) /\
    backoffs new = seqZ 0 37.
Proof.
  intros e.
  refine (WriteBatch_retries_until_success sample_writer.order "table" 25
            [sample_writer.put1] e (replicate 37 sample_service.reply_throttled)
            sample_service.reply_ok [] (replicate 37 sample_service.fires) []
            _ plain_put1 _ eq_refl (retryable_throttled _ 37 0) _ takesAll_reply_ok _ eq_refl _).
  - discriminate.
  - cbn. lia.
  - cbn. lia.
  - reflexivity.
  - by apply Forall_replicate.
Defined.

(** X14, exercised: six failures that are not throttling. *)
Lemma WriteBatch_surfaces_other_error_witness :
  let e := sample_service.env (replicate 7 sample_service.reply_failed) []
             (replicate 7 sample_service.fires) in
  exists env' new,
    sample_service.run 25 [sample_writer.put1] e =
      (env', writer.Returns (Some (Errorf_w "failed to write batch after 5 retries"
         (OperationError "DynamoDB: BatchWriteItem" (errorString "InternalServerError"))))) /\
    writer.batchReplies env' = [sample_service.reply_failed] /\
    writer.waits (writer.world env') = replicate 2 sample_service.fires /\
    writer.trace (writer.world env') = writer.trace (writer.world e) ++ new /\
    batchCalls new = replicate 6 (callFor "table" [sample_writer.put1]) /\
    backoffs new = seqZ 0 5.
Proof.
  intros e.
  refine (WriteBatch_surfaces_other_error sample_writer.order "table" 25
            [sample_writer.put1] e (replicate 5 sample_service.reply_failed)
            sample_service.reply_failed [sample_service.reply_failed]
            (replicate 5 sample_service.fires) (replicate 2 sample_service.fires)
            (OperationError "DynamoDB: BatchWriteItem" (errorString "InternalServerError"))
            _ plain_put1 _ eq_refl _ _ eq_refl eq_refl eq_refl eq_refl _).
  - discriminate.
  - cbn. lia.
  - cbn. repeat split; eexists; (split; [reflexivity | right; unfold writer.maxRetries; lia]).
  - cbn. lia.
  - by apply Forall_replicate.
Defined.

(** X15, exercised: the context is done during the second wait. *)
Lemma WriteBatch_cancelled_during_wait_witness :
  let e := sample_service.env (replicate 3 sample_service.reply_throttled) []
             [sample_service.fires; sample_service.cancelled] in
  exists env' new,
    sample_service.run 25 [sample_writer.put1] e = (env', writer.Returns (Some Canceled)) /\
    writer.batchReplies env' = [sample_service.reply_throttled] /\
    writer.waits (writer.world env') = [] /\
    writer.trace (writer.world env') = writer.trace (writer.world e) ++ new /\
    batchCalls new = replicate 2 (callFor "table" [sample_writer.put1]).
Proof.
  intros e.
  refine (WriteBatch_cancelled_during_wait sample_writer.order "table" 25
            [sample_writer.put1] e [sample_service.reply_throttled]
            sample_service.reply_throttled [sample_service.reply_throttled]
            [sample_service.fires] sample_service.cancelled [] Canceled
            _ plain_put1 _ eq_refl (retryable_throttled _ 2 0) _ eq_refl eq_refl _ eq_refl).
  - discriminate.
  - cbn. lia.
  - cbn. lia.
  - by repeat constructor.
Defined.

(** X16, exercised: the first answer hands the one request back. *)
Lemma WriteBatch_resubmits_unprocessed_witness :
  let e := sample_service.env [sample_service.reply_unprocessed; sample_service.reply_ok] []
             [sample_service.fires] in
  exists env' new,
    sample_service.run 25 [sample_writer.put1] e = (env', writer.Returns None) /\
    writer.batchReplies env' = [] /\
    writer.trace (writer.world env') = writer.trace (writer.world e) ++ new /\
    batchCalls new =
      [callFor "table" [sample_writer.put1];
       {| writer.RequestItems :=
            writer.RequestItems (callFor "table" [sample_writer.put1]) |}] /\
    backoffs new = [0].
Proof.
  intros e.
  refine (WriteBatch_resubmits_unprocessed sample_writer.order "table" 25
            [sample_writer.put1] e sample_service.reply_unprocessed sample_service.reply_ok []
            (writer.RequestItems (callFor "table" [sample_writer.put1]))
            sample_service.fires []
            _ plain_put1 _ eq_refl eq_refl _ takesAll_reply_ok eq_refl eq_refl).
  - discriminate.
  - cbn. lia.
  - vm_compute. discriminate.
Defined.

(** X17, exercised on one PUT. *)
Lemma WriteBatch_needs_positive_batchSize_witness :
  let e := sample_service.env [sample_service.reply_ok] [] [] in
  (forall fuel,
     let r := writer.batchLoop sample_writer.order "table" 0 fuel [sample_writer.put1] 0 e in
     r.2 = writer.Diverges /\
     batchCalls (writer.trace (writer.world r.1)) = batchCalls (writer.trace (writer.world e)) /\
     writer.batchReplies r.1 = writer.batchReplies e) /\
  (forall batchSize, batchSize < 0 ->
     writer.WriteBatch sample_writer.order "table" batchSize [sample_writer.put1] e =
       (e, writer.Panics "slice bounds out of range")).
Proof.
  intros e.
  apply (WriteBatch_needs_positive_batchSize sample_writer.order "table"
           [sample_writer.put1] e).
  discriminate.
Defined.

(** ** The worker: buffers, counters and restarts *)
Section BufferFacts.
Import itemimage checkpoint manifest metrics coordinator.
Context {W : Type} `{!Collaborators W}.
Variable cfg : config.Config.

Lemma metrics_updateWorkerStatus id fn (c : Shared W) :
  metrics (updateWorkerStatus id fn c) = metrics c.
Proof. unfold updateWorkerStatus. by destruct (workerStatus c !! id). Qed.

Lemma int64_wrap_range z : - 2 ^ 63 <= int64_wrap z < 2 ^ 63.
Proof. unfold int64_wrap. pose proof (Z.mod_pos_bound (z + 2 ^ 63) (2 ^ 64)). lia. Qed.

Lemma int64_wrap_add z k : int64_wrap (int64_wrap z + k) = int64_wrap (z + k).
Proof.
  unfold int64_wrap. f_equal.
  replace ((z + 2 ^ 63) mod 2 ^ 64 - 2 ^ 63 + k + 2 ^ 63)
    with ((z + 2 ^ 63) mod 2 ^ 64 + k) by lia.
  rewrite Zplus_mod_idemp_l. f_equal. lia.
Qed.

(** What a successful [writeBatch] leaves: one call of the writer, then
    the checkpoint if one was due; the batch counter moved and no other. *)
Lemma writeBatch_None id ops file off sc c c' :
  writeBatch id ops file off sc c = (c', None) ->
  metrics c' = RecordBatchWritten (metrics c) /\
  exists saved, trace c' = trace c ++ EvWriteBatch ops :: (EvSave <$> saved).
Proof.
  unfold writeBatch.
  destruct (writer_WriteBatch ops (ext (emit (EvWriteBatch ops) c))) as [w [err|]];
    [discriminate|].
  destruct sc.
  - match goal with |- context [store_Save ?s ?e] =>
      destruct (store_Save s e) as [w' [err|]] end; [discriminate|].
    intros [= <-]. cbn. rewrite metrics_updateWorkerStatus, trace_updateWorkerStatus. cbn.
    split; [done|].
    exists [{| ExportID := Key file; LastFile := Key file; LastByteOffset := off |}].
    by rewrite <- app_assoc.
  - intros [= <-]. rewrite metrics_updateWorkerStatus, trace_updateWorkerStatus. cbn.
    split; [done|]. by exists [].
Qed.

Lemma writes_saves (saved : list State) : writes (EvSave <$> saved) = [].
Proof. unfold writes. induction saved as [|s saved IH]; [done | exact IH]. Qed.

Lemma streams_saves (saved : list State) : streams (EvSave <$> saved) = [].
Proof. unfold streams. induction saved as [|s saved IH]; [done | exact IH]. Qed.

Lemma writes_app t1 t2 : writes (t1 ++ t2) = writes t1 ++ writes t2.
Proof. unfold writes. apply omap_app. Qed.

Lemma streams_app t1 t2 : streams (t1 ++ t2) = streams t1 ++ streams t2.
Proof. unfold streams. apply omap_app. Qed.

(** The operations the lines decode to, in order. *)
Definition decoded (lines : list (string * Z)) : list Operation :=
  omap (fun p => match parser_Decode p.1 with Ok op => Some op | Err _ => None end) lines.

(** The lines that do not decode. *)
Definition undecoded (lines : list (string * Z)) : list (string * Z) :=
  omap (fun p => match parser_Decode p.1 with Ok _ => None | Err _ => Some p end) lines.

(** One line the callback accepts. *)
Lemma callback_None id file line off c l c' l' :
  callback cfg id file line off (c, l) = (c', l', None) ->
  (recordsProcessed (metrics c'), corruptCount (metrics c'), errors (metrics c')) =
    match parser_Decode line with
    | Ok _ => (int64_wrap (recordsProcessed (metrics c) + 1), corruptCount (metrics c),
               errors (metrics c))
    | Err _ => (recordsProcessed (metrics c), int64_wrap (corruptCount (metrics c) + 1),
                errors (metrics c))
    end /\
  (forall e, parser_Decode line = Err e -> e = ErrCorrupt) /\
  exists new,
    trace c' = trace c ++ new /\ streams new = [] /\
    concat (writes new) ++ batch l' = batch l ++ decoded [(line, off)] /\
    Forall (fun ops => config.BatchSize cfg <= Z.of_nat (length ops) /\
                       (length ops <= length (batch l) + 1)%nat) (writes new) /\
    (1 <= config.BatchSize cfg -> Z.of_nat (length (batch l)) < config.BatchSize cfg ->
     Z.of_nat (length (batch l')) < config.BatchSize cfg).
Proof.
  unfold callback, decoded. cbn [omap list_omap fst].
  destruct (parser_Decode line) as [op|err] eqn:Hd.
  - cbn [batch currentOffset batchesSinceCheckpoint].
    destruct (Z.leb_spec (config.BatchSize cfg) (Z.of_nat (length (batch l ++ [op]))))
      as [Hfull|Hroom].
    + match goal with |- context [writeBatch ?i ?b ?f ?o ?s ?x] =>
        destruct (writeBatch i b f o s x) as [c1 [e|]] eqn:Hw end; [discriminate|].
      intros [= <- <-]. apply writeBatch_None in Hw as [Hm (saved & Ht)].
      rewrite Hm. cbn. split; [done|]. split; [discriminate|].
      exists (EvWriteBatch (batch l ++ [op]) :: (EvSave <$> saved)).
      split; [done|].
      change (EvWriteBatch (batch l ++ [op]) :: (EvSave <$> saved))
        with ([EvWriteBatch (batch l ++ [op])] ++ (EvSave <$> saved)).
      rewrite streams_app, writes_app, streams_saves, writes_saves. cbn.
      rewrite !app_nil_r. split_and!; [done | done | | lia].
      constructor; [|constructor]. split; [done|]. rewrite length_app. cbn. lia.
    + intros [= <- <-]. cbn. split; [done|]. split; [discriminate|].
      exists []. rewrite app_nil_r. cbn. split_and!; [done | done | done | constructor | done].
  - case_bool_decide as He; [|discriminate]. intros [= <- <-]. cbn.
    split; [done|]. split; [by intros e [= <-]|].
    exists []. rewrite !app_nil_r. cbn. split_and!; [done | done | done | constructor | done].
Qed.

Lemma decoded_cons p rest : decoded (p :: rest) = decoded [p] ++ decoded rest.
Proof. unfold decoded. by rewrite <- omap_app. Qed.


(** X19. While the callback accepts the lines of a stream, the
    counters follow the lines: the processed counter grows by the
    number of lines that decode, the corrupt counter by the number of
    the others, for each of which the decoder returned the sentinel
    itself, and the error counter stands still. *)
Theorem deliver_counts_lines (id : Z) (file : FileMeta) (lines : list (string * Z))
    (c c' : Shared W) (l l' : Locals) :
  - 2 ^ 63 <= recordsProcessed (metrics c) < 2 ^ 63 ->
  - 2 ^ 63 <= corruptCount (metrics c) < 2 ^ 63 ->
  deliver cfg id file lines (c, l) = (c', l', None) ->
  recordsProcessed (metrics c') =
    int64_wrap (recordsProcessed (metrics c) + Z.of_nat (length (decoded lines))) /\
  corruptCount (metrics c') =
    int64_wrap (corruptCount (metrics c) + Z.of_nat (length (undecoded lines))) /\
  errors (metrics c') = errors (metrics c) /\
  Forall (fun p => parser_Decode p.1 = Err ErrCorrupt) (undecoded lines) /\
  (length (decoded lines) + length (undecoded lines) = length lines)%nat.
Proof.
  revert c l.
  induction lines as [|[line off] rest IH]; intros c l Hp Hk; cbn [deliver].
  - intros [= <- <-]. cbn. rewrite !Z.add_0_r, !int64_wrap_small by done. by split_and!.
  - destruct (callback cfg id file line off (c, l)) as [[c1 l1] [err|]] eqn:Hc; [discriminate|].
    intros Hd. apply callback_None in Hc as (Hm & Hsent & _).
    unfold decoded, undecoded. cbn [omap list_omap fst].
    fold (decoded rest). fold (undecoded rest).
    destruct (parser_Decode line) as [op|err] eqn:Hdec; injection Hm as Hm1 Hm2 Hm3.
    + destruct (IH c1 l1) as (H1 & H2 & H3 & H4 & H5); [rewrite Hm1; apply int64_wrap_range
                                                        | by rewrite Hm2 | done |].
      rewrite H1, H2, H3, Hm1, Hm2, Hm3, int64_wrap_add. cbn [length].
      split_and!; [f_equal; lia | done | done | done | lia].
    + destruct (IH c1 l1) as (H1 & H2 & H3 & H4 & H5); [by rewrite Hm1
                                                        | rewrite Hm2; apply int64_wrap_range
                                                        | done |].
      rewrite H1, H2, H3, Hm1, Hm2, Hm3, int64_wrap_add. cbn [length].
      split_and!; [done | f_equal; lia | done | | lia].
      constructor; [cbn; by rewrite Hdec, (Hsent err) | done].
Qed.
End BufferFacts.

(** ** The worker: restarts and stream attempts *)
Section RestartFacts.
Import itemimage checkpoint manifest metrics coordinator.
Context {W : Type} `{!Collaborators W}.
Variable cfg : config.Config.

Ltac traces :=
  cbn [fst snd];
  repeat first [ rewrite trace_recordError | rewrite trace_withExt
               | rewrite trace_withMetrics | rewrite trace_updateWorkerStatus
               | rewrite trace_emit ].

(** X20. A file the worker has completed is skipped when the worker
    meets it again, over any store that loads what was last saved (and
    loads the same state twice in a row): the second pass makes no call
    and completes at once.  A pass that completes a file leaves nothing
    in the buffer that was not there before. *)
Theorem processFile_completed_is_skipped (id : Z) (file : FileMeta) (c c' : Shared W)
    (l l' : Locals) :
  (forall s w w', store_Save s w = (w', None) -> exists w'', store_Load w' = (w'', Ok s)) ->
  (forall s w w', store_Load w = (w', Ok s) -> exists w'', store_Load w' = (w'', Ok s)) ->
  processFile cfg id file (c, l) = (c', l', Next) ->
  (batch l = [] -> batch l' = []) /\
  exists c'', processFile cfg id file (c', l') = (c'', l', Next) /\ trace c'' = trace c'.
Proof.
  intros Hsave Hload.
  assert (Hskip : forall c0 l0 w0 state,
            store_Load (ext c0) = (w0, Ok state) ->
            bool_decide (Key file = LastFile state)
            && bool_decide (LastByteOffset state = completedFileOffset) = true ->
            exists c'', processFile cfg id file (c0, l0) = (c'', l0, Next) /\
                        trace c'' = trace c0).
  { intros c0 l0 w0 state HL Hc. unfold processFile.
    rewrite ext_updateWorkerStatus, HL, Hc. eexists. split; [reflexivity|]. by traces. }
  unfold processFile at 1. rewrite ext_updateWorkerStatus.
  destruct (store_Load (ext c)) as [w [state|err]] eqn:HL; [|discriminate].
  destruct (bool_decide (Key file = LastFile state)
            && bool_decide (LastByteOffset state = completedFileOffset)) eqn:Hc.
  { intros [= <- <-]. split; [done|].
    destruct (Hload _ _ _ HL) as (w'' & HL2).
    eapply Hskip; [cbn [ext withExt]; exact HL2 | done]. }
  match goal with |- context [streamLoop cfg ?n ?r id file ?b ?o ?e (?x, ?y)] =>
    destruct (streamLoop cfg n r id file b o e (x, y)) as [[c1 l1] [err|[err|]]]
  end; [discriminate | discriminate |].
  assert (Hdone : forall c2 l2,
            (let state := {| ExportID := Key file; LastFile := Key file;
                             LastByteOffset := completedFileOffset |} in
             let c := emit (EvSave state) c2 in
             let '(w, r) := store_Save state (ext c) in
             let c := withExt w c in
             match r with
             | Some err =>
                 (recordError id err c, l2,
                  Return (Errorf_w ("failed to save completion checkpoint for file "
                                     +:+ Key file) err))
             | None => (c, l2, Next)
             end) = (c', l', Next) ->
            l' = l2 /\
            exists c'', processFile cfg id file (c', l') = (c'', l', Next) /\
                        trace c'' = trace c').
  { intros c2 l2. cbv zeta.
    match goal with |- context [store_Save ?s ?e] =>
      destruct (store_Save s e) as [w' [err|]] eqn:HS end; [discriminate|].
    intros [= <- <-]. split; [done|].
    destruct (Hsave _ _ _ HS) as (w'' & HL2).
    eapply Hskip; [cbn [ext withExt]; exact HL2 | cbn; by rewrite !bool_decide_eq_true_2]. }
  destruct (bool_decide_reflect (batch l1 ≠ [])) as [Hb|Hb].
  - destruct (writeBatch id (batch l1) file (currentOffset l1) true c1) as [c2 [err|]];
      [discriminate|].
    intros Hr. apply Hdone in Hr as [-> Hr]. split; [done | exact Hr].
  - intros Hr. apply Hdone in Hr as [-> Hr]. split; [|exact Hr].
    intros _. by apply dec_stable in Hb.
Qed.

(** The events of the writer and of the store. *)
Definition quiet (ev : Event) : Prop :=
  match ev with
  | EvWriteBatch _ | EvSave _ => True
  | _ => False
  end.

(** The waits of a trace. *)
Definition waitsOf (t : list Event) : list Z :=
  omap (fun ev => match ev with EvWait d => Some d | _ => None end) t.

Lemma waitsOf_app t1 t2 : waitsOf (t1 ++ t2) = waitsOf t1 ++ waitsOf t2.
Proof. unfold waitsOf. apply omap_app. Qed.

Lemma streams_quiet new : Forall quiet new -> streams new = [].
Proof.
  induction 1 as [|ev new Hev _ IH]; [done|]. unfold streams in *. by destruct ev.
Qed.

Lemma waitsOf_quiet new : Forall quiet new -> waitsOf new = [].
Proof.
  induction 1 as [|ev new Hev _ IH]; [done|]. unfold waitsOf in *. by destruct ev.
Qed.

Lemma writeBatch_quiet id ops file off sc c :
  extends quiet c (writeBatch id ops file off sc c).1.
Proof.
  unfold writeBatch.
  destruct (writer_WriteBatch ops (ext (emit (EvWriteBatch ops) c))) as [w [err|]]; cbn.
  - exists [EvWriteBatch ops]. rewrite trace_recordError. split; [done | by repeat constructor].
  - destruct sc.
    + match goal with |- context [store_Save ?s ?e] => destruct (store_Save s e) as [w' [err|]] end;
        cbn;
        exists [EvWriteBatch ops;
                EvSave {| ExportID := Key file; LastFile := Key file; LastByteOffset := off |}];
        rewrite ?trace_recordError; cbn; rewrite trace_updateWorkerStatus; cbn;
        rewrite <- app_assoc; (split; [done | by repeat constructor]).
    + cbn. exists [EvWriteBatch ops]. rewrite trace_updateWorkerStatus.
      split; [done | by repeat constructor].
Qed.

Lemma callback_quiet id file line byteOffset c l :
  extends quiet c (callback cfg id file line byteOffset (c, l)).1.1.
Proof.
  unfold callback.
  destruct (parser_Decode line) as [op|err].
  - case_match.
    + match goal with |- context [writeBatch ?i ?b ?f ?o ?s ?x] =>
        pose proof (writeBatch_quiet i b f o s x) as Hx;
        destruct (writeBatch i b f o s x) as [c' [e|]] end;
        cbn in *; (eapply extends_trans; [|exact Hx]); apply extends_same; reflexivity.
    + apply extends_same; reflexivity.
  - case_match; apply extends_same; reflexivity.
Qed.





End RestartFacts.

(** ** The worker and the configuration *)
Section SettingsFacts.
Import itemimage checkpoint manifest metrics coordinator.
Context {W : Type} `{!Collaborators W}.
Variable cfg : config.Config.
Variable cfg' : config.Config.
Hypothesis same_batchSize : config.BatchSize cfg = config.BatchSize cfg'.
Hypothesis same_bucket : config.exportBucketName cfg = config.exportBucketName cfg'.

Lemma callback_settings id file line off s :
  callback cfg id file line off s = callback cfg' id file line off s.
Proof. unfold callback. by rewrite same_batchSize. Qed.

Lemma deliver_settings id file lines : forall s,
  deliver cfg id file lines s = deliver cfg' id file lines s.
Proof.
  induction lines as [|[line off] rest IH]; intros s; cbn [deliver]; [done|].
  rewrite callback_settings.
  destruct (callback cfg' id file line off s) as [[c l] [e|]]; [done | apply IH].
Qed.

Lemma Stream_settings id file bucket offset s :
  Stream cfg id file bucket offset s = Stream cfg' id file bucket offset s.
Proof.
  unfold Stream. destruct s as [c l].
  destruct (streamer_Stream bucket (Key file) offset _) as [lines tailErr].
  by rewrite deliver_settings.
Qed.

Lemma streamLoop_settings remaining : forall retry id file bucket offset streamErr s,
  streamLoop cfg remaining retry id file bucket offset streamErr s
  = streamLoop cfg' remaining retry id file bucket offset streamErr s.
Proof.
  induction remaining as [|remaining IH]; intros retry id file bucket offset streamErr [c l];
    cbn [streamLoop]; [done|].
  destruct (if 0 <? retry then _ else _) as [c0 [ctxerr|]]; [done|].
  rewrite Stream_settings.
  destruct (Stream cfg' id file bucket offset (c0, l)) as [[c1 l1] [e|]]; [apply IH | done].
Qed.

Lemma processFile_settings id file s :
  processFile cfg id file s = processFile cfg' id file s.
Proof.
  unfold processFile. destruct s as [c l]. rewrite same_bucket.
  destruct (store_Load _) as [w [state|err]]; [|done].
  case_match; [done|]. by rewrite streamLoop_settings.
Qed.

(** X22. What a worker does depends on two settings only, the batch
    size and the export bucket: with these the same, it makes the same
    calls and returns the same, whatever the other settings are.  The
    dry-run flag is one of the others: a dry run streams, writes and
    saves as a restore does. *)
Theorem worker_reads_two_settings (id : Z) (tasks : list FileMeta) (c : Shared W) :
  worker cfg id tasks c = worker cfg' id tasks c.
Proof.
  unfold worker. generalize {| batch := []; currentOffset := 0; batchesSinceCheckpoint := 0 |}.
  revert c. induction tasks as [|file rest IH]; intros c l; cbn [workerLoop]; [done|].
  rewrite processFile_settings.
  destruct (processFile cfg' id file (c, l)) as [[c1 l1] [|err]]; [apply IH | done].
Qed.
End SettingsFacts.

(** X22, exercised: the sample restore as a dry run writes the batch. *)
Lemma worker_reads_two_settings_witness :
  @coordinator.worker _ sample_restore.clean sample_small.dryRun 0 [sample_restore.file1]
    (sample_restore.start checkpoint.zeroState)
  = @coordinator.worker _ sample_restore.clean sample_restore.cfg 0 [sample_restore.file1]
      (sample_restore.start checkpoint.zeroState).
Proof.
  exact (@worker_reads_two_settings _ sample_restore.clean sample_small.dryRun
           sample_restore.cfg eq_refl eq_refl 0 [sample_restore.file1]
           (sample_restore.start checkpoint.zeroState)).
Defined.

(** The dry run of the sample restore hands the table its two
    operations. *)
Example dry_run_writes :
  sample_restore.written
    (coordinator.ext
       (@coordinator.worker _ sample_restore.clean sample_small.dryRun 0 [sample_restore.file1]
          (sample_restore.start checkpoint.zeroState)).1)
  = [@decoded _ sample_restore.clean sample_restore.lines_clean].
Proof. vm_compute. reflexivity. Qed.

(** ** The tasks [Run] sends *)
Section TaskFacts.
Import checkpoint manifest coordinator.



End TaskFacts.


(** X19, exercised on the same lines. *)
Lemma deliver_counts_lines_witness :
  let c := sample_restore.start checkpoint.zeroState in
  let r := @coordinator.deliver _ sample_restore.clean sample_restore.cfg 0 sample_restore.file1
             sample_restore.lines_clean (c, sample_restore.noLocals) in
  r.2 = None /\
  metrics.recordsProcessed (coordinator.metrics r.1.1) =
    int64_wrap (0 + Z.of_nat (length (@decoded _ sample_restore.clean
                                        sample_restore.lines_clean))) /\
  metrics.corruptCount (coordinator.metrics r.1.1) =
    int64_wrap (0 + Z.of_nat (length (@undecoded _ sample_restore.clean
                                        sample_restore.lines_clean))) /\
  metrics.errors (coordinator.metrics r.1.1) = 0 /\
  Forall (fun p => samples.Decode p.1 = Err ErrCorrupt)
    (@undecoded _ sample_restore.clean sample_restore.lines_clean) /\
  (length (@decoded _ sample_restore.clean sample_restore.lines_clean)
   + length (@undecoded _ sample_restore.clean sample_restore.lines_clean)
   = length sample_restore.lines_clean)%nat.
Proof.
  intros c r. split; [vm_compute; reflexivity|].
  refine (@deliver_counts_lines _ sample_restore.clean sample_restore.cfg 0
            sample_restore.file1 sample_restore.lines_clean c r.1.1
            sample_restore.noLocals r.1.2 _ _ _).
  - done.
  - done.
  - vm_compute. reflexivity.
Defined.

(** X20, exercised: the sample file, restored and met again. *)
Lemma processFile_completed_is_skipped_witness :
  let c := sample_restore.start checkpoint.zeroState in
  let r := @coordinator.processFile _ sample_restore.clean sample_restore.cfg 0
             sample_restore.file1 (c, sample_restore.noLocals) in
  r.2 = coordinator.Next /\
  (coordinator.batch sample_restore.noLocals = [] -> coordinator.batch r.1.2 = []) /\
  exists c'',
    @coordinator.processFile _ sample_restore.clean sample_restore.cfg 0
      sample_restore.file1 (r.1.1, r.1.2) = (c'', r.1.2, coordinator.Next) /\
    coordinator.trace c'' = coordinator.trace r.1.1.
Proof.
  intros c r. split; [vm_compute; reflexivity|].
  refine (@processFile_completed_is_skipped _ sample_restore.clean sample_restore.cfg 0
            sample_restore.file1 c r.1.1 sample_restore.noLocals r.1.2 _ _ _).
  - intros s w w' [= <-]. by eexists.
  - intros s w w' [= <- <-]. by eexists.
  - vm_compute. reflexivity.
Defined.

(** ** The worker: checkpoints and whole files *)
Section FileFacts.
Import itemimage checkpoint manifest metrics coordinator.
Context {W : Type} `{!Collaborators W}.
Variable cfg : config.Config.

Ltac traces :=
  cbn [fst snd];
  repeat first [ rewrite trace_recordError | rewrite trace_withExt
               | rewrite trace_withMetrics | rewrite trace_updateWorkerStatus
               | rewrite trace_emit ].

Lemma saves_app t1 t2 : saves (t1 ++ t2) = saves t1 ++ saves t2.
Proof. unfold saves. apply omap_app. Qed.

(** One line the callback accepts, and the checkpoint counter. *)
Lemma callback_None_counter id file line off c l c' l' :
  callback cfg id file line off (c, l) = (c', l', None) ->
  0 <= batchesSinceCheckpoint l < checkpointInterval ->
  exists new,
    trace c' = trace c ++ new /\
    0 <= batchesSinceCheckpoint l' < checkpointInterval /\
    Z.of_nat (length (writes new)) + batchesSinceCheckpoint l =
      checkpointInterval * Z.of_nat (length (saves new)) + batchesSinceCheckpoint l' /\
    Forall (fun s => s = {| ExportID := Key file; LastFile := Key file;
                            LastByteOffset := off |}) (saves new).
Proof.
  unfold callback, checkpointInterval. intros Hc Hn.
  destruct (parser_Decode line) as [op|err] eqn:Hd.
  - cbn [batch currentOffset batchesSinceCheckpoint] in Hc.
    destruct (config.BatchSize cfg <=? Z.of_nat (length (batch l ++ [op]))).
    + rewrite (int64_wrap_small (batchesSinceCheckpoint l + 1)) in Hc by lia.
      destruct (Z.leb_spec 100 (batchesSinceCheckpoint l + 1)) as [Hdue|Hnot].
      * match type of Hc with context [writeBatch ?i ?b ?f ?o ?s ?x] =>
          destruct (writeBatch i b f o s x) as [c1 [e|]] eqn:Hw end; [discriminate|].
        injection Hc as <- <-. unfold writeBatch in Hw.
        destruct (writer_WriteBatch _ _) as [w [err|]]; [discriminate|].
        match type of Hw with context [store_Save ?s ?e] =>
          destruct (store_Save s e) as [w' [err|]] end; [discriminate|].
        injection Hw as <-.
        exists [EvWriteBatch (batch l ++ [op]);
                EvSave {| ExportID := Key file; LastFile := Key file; LastByteOffset := off |}].
        cbn. rewrite trace_updateWorkerStatus. cbn. rewrite <- app_assoc.
        split_and!; [done | lia | lia | lia | by repeat constructor].
      * match type of Hc with context [writeBatch ?i ?b ?f ?o ?s ?x] =>
          destruct (writeBatch i b f o s x) as [c1 [e|]] eqn:Hw end; [discriminate|].
        injection Hc as <- <-. unfold writeBatch in Hw.
        destruct (writer_WriteBatch _ _) as [w [err|]]; [discriminate|].
        injection Hw as <-.
        exists [EvWriteBatch (batch l ++ [op])].
        cbn. rewrite trace_updateWorkerStatus. cbn.
        split_and!; [done | lia | lia | lia | constructor].
    + injection Hc as <- <-. exists []. rewrite app_nil_r. cbn.
      split_and!; [done | lia | lia | lia | constructor].
  - case_bool_decide as He; [|discriminate]. injection Hc as <- <-.
    exists []. rewrite app_nil_r. cbn. split_and!; [done | lia | lia | lia | constructor].
Qed.

(** X24. Progress checkpoints come every [checkpointInterval] = 100
    batches: while the callback accepts the lines of a stream, the number
    of batches written plus the counter at the start is 100 times the
    number of checkpoints saved plus the counter at the end, which stays
    below 100.  Each such checkpoint names the file and carries the byte
    offset of one of the lines. *)
Theorem deliver_checkpoints_every_100_batches (id : Z) (file : FileMeta)
    (lines : list (string * Z)) (c c' : Shared W) (l l' : Locals) :
  0 <= batchesSinceCheckpoint l < 100 ->
  deliver cfg id file lines (c, l) = (c', l', None) ->
  exists new,
    trace c' = trace c ++ new /\
    0 <= batchesSinceCheckpoint l' < 100 /\
    Z.of_nat (length (writes new)) + batchesSinceCheckpoint l =
      100 * Z.of_nat (length (saves new)) + batchesSinceCheckpoint l' /\
    Forall (fun s => ExportID s = Key file /\ LastFile s = Key file /\
                     exists line, (line, LastByteOffset s) ∈ lines) (saves new).
Proof.
  revert c l. induction lines as [|[line off] rest IH]; intros c l Hn; cbn [deliver].
  - intros [= <- <-]. exists []. rewrite app_nil_r. cbn. split_and!; try done; lia.
  - destruct (callback cfg id file line off (c, l)) as [[c1 l1] [err|]] eqn:Hc; [discriminate|].
    intros Hd. apply callback_None_counter in Hc as (new1 & Ht1 & Hn1 & Hk1 & Hs1); [|done].
    unfold checkpointInterval in *.
    destruct (IH c1 l1 Hn1 Hd) as (new2 & Ht2 & Hn2 & Hk2 & Hs2).
    exists (new1 ++ new2). rewrite writes_app, saves_app, !length_app.
    split_and!; [by rewrite Ht2, Ht1, app_assoc | lia | lia | lia |].
    apply Forall_app. split.
    + eapply Forall_impl; [exact Hs1|]. cbn. intros s ->. cbn.
      split_and!; [done | done |]. exists line. by left.
    + eapply Forall_impl; [exact Hs2|]. cbn. intros s (H1 & H2 & line' & Hin).
      split_and!; [done | done |]. exists line'. by right.
Qed.

(** Collaborators that do not fail: the writer writes and the store
    saves. *)
Definition healthy : Prop :=
  (forall ops w, (writer_WriteBatch ops w).2 = None) /\
  (forall s w, (store_Save s w).2 = None).

(** Lines the decoder takes, or refuses with the sentinel itself. *)
Definition decodable (lines : list (string * Z)) : Prop :=
  Forall (fun p => forall e, parser_Decode p.1 = Err e -> e = ErrCorrupt) lines.

Lemma writeBatch_healthy id ops file off sc c :
  healthy -> (writeBatch id ops file off sc c).2 = None.
Proof.
  intros [Hw Hs]. unfold writeBatch.
  pose proof (Hw ops (ext (emit (EvWriteBatch ops) c))) as Hw1.
  destruct (writer_WriteBatch ops (ext (emit (EvWriteBatch ops) c))) as [w [err|]];
    [discriminate|].
  destruct sc; [|done].
  match goal with |- context [store_Save ?s ?e] =>
    pose proof (Hs s e) as Hs1; destruct (store_Save s e) as [w' [err|]] end;
    [discriminate | done].
Qed.

Lemma callback_healthy id file line off c l :
  healthy -> (forall e, parser_Decode line = Err e -> e = ErrCorrupt) ->
  (callback cfg id file line off (c, l)).2 = None.
Proof.
  intros Hh Hd. unfold callback. destruct (parser_Decode line) as [op|err].
  - case_match; [|done].
    match goal with |- context [writeBatch ?i ?b ?f ?o ?s ?x] =>
      pose proof (writeBatch_healthy i b f o s x Hh) as Hw;
      destruct (writeBatch i b f o s x) as [c1 [e|]] end; [discriminate | done].
  - by rewrite (Hd err eq_refl), bool_decide_eq_true_2.
Qed.

(** What the callback does to a run of lines it accepts. *)
Lemma deliver_accepts id file lines : forall c l c' l',
  1 <= config.BatchSize cfg ->
  Z.of_nat (length (batch l)) < config.BatchSize cfg ->
  deliver cfg id file lines (c, l) = (c', l', None) ->
  exists new,
    trace c' = trace c ++ new /\
    concat (writes new) ++ batch l' = batch l ++ decoded lines /\
    Forall (fun ops => Z.of_nat (length ops) = config.BatchSize cfg) (writes new) /\
    Z.of_nat (length (batch l')) < config.BatchSize cfg /\
    Forall quiet new.
Proof.
  induction lines as [|[line off] rest IH]; intros c l c' l' HB Hl; cbn [deliver].
  - intros [= <- <-]. exists []. rewrite !app_nil_r. by split_and!.
  - pose proof (callback_quiet cfg id file line off c l) as Hq.
    destruct (callback cfg id file line off (c, l)) as [[c1 l1] [err|]] eqn:Hc; [discriminate|].
    intros Hd. apply callback_None in Hc as (_ & _ & new1 & Ht1 & Hs1 & Hw1 & Hf1 & Hl1).
    destruct Hq as (new1' & Ht1' & Hq1). cbn [fst] in Ht1'.
    rewrite Ht1 in Ht1'. apply app_inv_head in Ht1'. subst new1'.
    destruct (IH c1 l1 c' l' HB (Hl1 HB Hl) Hd) as (new2 & Ht2 & Hw2 & Hf2 & Hl2 & Hq2).
    exists (new1 ++ new2). rewrite writes_app, concat_app.
    split_and!.
    + by rewrite Ht2, Ht1, app_assoc.
    + rewrite (decoded_cons (line, off) rest), <- app_assoc, Hw2, !app_assoc, Hw1. done.
    + apply Forall_app. split; [|done].
      eapply Forall_impl; [exact Hf1|]. cbn. intros ops [H1 H2]. lia.
    + done.
    + by apply Forall_app.
Qed.

Lemma deliver_healthy id file lines : forall c l,
  healthy -> decodable lines -> (deliver cfg id file lines (c, l)).2 = None.
Proof.
  induction lines as [|[line off] rest IH]; intros c l Hh Hd; cbn [deliver]; [done|].
  apply Forall_cons in Hd as [Hline Hrest].
  pose proof (callback_healthy id file line off c l Hh Hline) as Hc.
  destruct (callback cfg id file line off (c, l)) as [[c1 l1] [err|]]; [discriminate|].
  by apply IH.
Qed.

(** The last checkpoint of a completed file. *)
Definition sentinel (file : FileMeta) : State :=
  {| ExportID := Key file; LastFile := Key file; LastByteOffset := completedFileOffset |}.

(** X25. With a writer and a store that do not fail, a file whose
    stream ends without error and whose lines the decoder takes (or
    refuses with the sentinel itself) is restored in one attempt: the
    worker calls [Stream] once, at the resume offset, and never waits;
    the batches it hands to the writer, put end to end, are the buffer
    as it was and then the operations the lines decode to, each batch
    with at least one and at most [BatchSize] operations; the buffer is
    empty afterwards, and the last state saved is the completion
    sentinel of the file. *)
Theorem processFile_restores_file (id : Z) (file : FileMeta) (c : Shared W) (l : Locals)
    (w : W) (state : State) (lines : list (string * Z)) :
  healthy -> 1 <= config.BatchSize cfg ->
  Z.of_nat (length (batch l)) < config.BatchSize cfg ->
  store_Load (ext c) = (w, Ok state) ->
  completed file state = false ->
  streamer_Stream (config.exportBucketName cfg) (Key file) (resumeAt file state) w
    = (lines, None) ->
  decodable lines ->
  exists c' l' new,
    processFile cfg id file (c, l) = (c', l', Next) /\
    trace c' = trace c ++ new /\
    streams new = [(config.exportBucketName cfg, Key file, resumeAt file state)] /\
    waitsOf new = [] /\
    concat (writes new) = batch l ++ decoded lines /\
    Forall (fun ops => 1 <= Z.of_nat (length ops) <= config.BatchSize cfg) (writes new) /\
    batch l' = [] /\
    last (saves new) = Some (sentinel file).
Proof.
  intros Hh HB Hl HL Hc Hstream Hdec.
  unfold processFile. rewrite ext_updateWorkerStatus, HL.
  fold (completed file state). rewrite Hc. fold (resumeAt file state).
  unfold maxRetries. cbn [streamLoop]. change (0 <? 0) with false. cbv beta iota zeta.
  unfold Stream. cbn [ext emit withExt]. rewrite Hstream.
  set (bucket := config.exportBucketName cfg).
  set (offset := resumeAt file state).
  match goal with |- context [deliver cfg id file lines (?x, ?y)] =>
    set (c0 := x); set (l0 := y) end.
  pose proof (deliver_healthy id file lines c0 l0 Hh Hdec) as Hnone.
  destruct (deliver cfg id file lines (c0, l0)) as [[c1 l1] r] eqn:Hd.
  cbn [snd] in Hnone. subst r.
  apply deliver_accepts in Hd as (new1 & Ht1 & Hw1 & Hf1 & Hl1 & Hq1); [|done|done].
  assert (Ht0 : trace c0 = trace c ++ [EvStream bucket (Key file) offset]).
  { unfold c0. by traces. }
  cbn [batch] in Hw1.
  assert (Hfull : Forall (fun ops => 1 <= Z.of_nat (length ops) <= config.BatchSize cfg)
                    (writes new1)).
  { eapply Forall_impl; [exact Hf1|]. cbn. intros ops Hops. lia. }
  pose proof (proj2 Hh (sentinel file)) as Hsave. unfold sentinel in Hsave.
  destruct (bool_decide_reflect (batch l1 ≠ [])) as [Hb|Hb].
  - pose proof (writeBatch_healthy id (batch l1) file (currentOffset l1) true c1 Hh) as Hwn.
    destruct (writeBatch id (batch l1) file (currentOffset l1) true c1) as [c2 r] eqn:Hwb.
    cbn [snd] in Hwn. subst r.
    apply writeBatch_None in Hwb as [_ (saved & Ht2)].
    match goal with |- context [store_Save ?s ?e] =>
      pose proof (Hsave e) as Hs1; destruct (store_Save s e) as [w' r] end.
    cbn [snd] in Hs1. subst r.
    eexists _, _, ([EvStream bucket (Key file) offset] ++ new1
                   ++ [EvWriteBatch (batch l1)] ++ (EvSave <$> saved) ++ [EvSave (sentinel file)]).
    split; [reflexivity|]. split_and!.
    + traces. rewrite Ht2, Ht1, Ht0. by rewrite <- !app_assoc.
    + rewrite !streams_app, (streams_quiet _ Hq1), streams_saves. reflexivity.
    + rewrite !waitsOf_app, (waitsOf_quiet _ Hq1).
      replace (waitsOf (EvSave <$> saved)) with (@nil Z); [done|].
      clear. induction saved as [|s saved IH]; [done | exact IH].
    + rewrite !writes_app, writes_saves, !concat_app. cbn. rewrite !app_nil_r. exact Hw1.
    + rewrite !writes_app, writes_saves. cbn. apply Forall_app. split; [done|].
      constructor; [|constructor]. destruct (batch l1); [done | cbn in *; lia].
    + reflexivity.
    + rewrite !saves_app. cbn. rewrite ?app_assoc. apply last_snoc.
  - apply dec_stable in Hb. rewrite Hb, app_nil_r in Hw1.
    match goal with |- context [store_Save ?s ?e] =>
      pose proof (Hsave e) as Hs1; destruct (store_Save s e) as [w' r] end.
    cbn [snd] in Hs1. subst r.
    eexists _, _, ([EvStream bucket (Key file) offset] ++ new1 ++ [EvSave (sentinel file)]).
    split; [reflexivity|]. split_and!.
    + traces. rewrite Ht1, Ht0. by rewrite <- !app_assoc.
    + rewrite !streams_app, (streams_quiet _ Hq1). reflexivity.
    + rewrite !waitsOf_app, (waitsOf_quiet _ Hq1). reflexivity.
    + rewrite !writes_app. cbn. rewrite !app_nil_r. exact Hw1.
    + rewrite !writes_app. cbn. by rewrite app_nil_r.
    + exact Hb.
    + rewrite !saves_app. cbn. rewrite ?app_assoc. apply last_snoc.
Qed.

(** Lines that fit in the buffer: the callback takes them without a
    call. *)
Lemma deliver_buffers id file lines : forall c l,
  decodable lines ->
  Z.of_nat (length (batch l) + length lines) < config.BatchSize cfg ->
  exists c' l',
    deliver cfg id file lines (c, l) = (c', l', None) /\
    trace c' = trace c /\ ext c' = ext c /\
    batch l' = batch l ++ decoded lines.
Proof.
  induction lines as [|[line off] rest IH]; intros c l Hd Hn; cbn [deliver].
  - exists c, l. by rewrite app_nil_r.
  - apply Forall_cons in Hd as [Hline Hrest]. cbn [length] in Hn.
    rewrite (decoded_cons (line, off) rest). unfold decoded at 1. cbn [omap list_omap fst].
    unfold callback. destruct (parser_Decode line) as [op|err] eqn:Hdec.
    + cbn [batch currentOffset batchesSinceCheckpoint].
      destruct (Z.leb_spec (config.BatchSize cfg) (Z.of_nat (length (batch l ++ [op]))))
        as [Hfull|_]; [rewrite length_app in Hfull; cbn in Hfull; lia|].
      match goal with |- context [deliver cfg id file rest (?x, ?y)] =>
        destruct (IH x y Hrest) as (c' & l' & E & Ht & He & Hb) end.
      { cbn [batch]. rewrite length_app. cbn. lia. }
      exists c', l'. rewrite E, Hb. cbn. by rewrite <- app_assoc.
    + rewrite (Hline err Hdec), bool_decide_eq_true_2 by done.
      match goal with |- context [deliver cfg id file rest (?x, ?y)] =>
        destruct (IH x y Hrest) as (c' & l' & E & Ht & He & Hb) end.
      { cbn [batch]. lia. }
      exists c', l'. rewrite E, Hb. done.
Qed.

Lemma ext_recordError id err (c : Shared W) : ext (recordError id err c) = ext c.
Proof. unfold recordError. by rewrite ext_updateWorkerStatus. Qed.

(** X26. A stream attempt that fails leaves in the buffer the
    operations it had decoded, and the next attempt starts at the same
    offset and decodes its lines on top of them.  Here the first stream
    hands over some lines and then fails, the second one succeeds after
    the wait of 2 s, and all the lines fit in one batch: the batch the
    worker writes holds the operations of the first attempt and then
    those of the second.  When the second stream delivers the lines of
    the first again, each of their operations is written twice. *)
Theorem processFile_retry_repeats_buffer (id : Z) (file : FileMeta) (c : Shared W)
    (l : Locals) (w w1 : W) (state : State) (lines1 lines2 : list (string * Z))
    (e : error) :
  healthy ->
  store_Load (ext c) = (w, Ok state) ->
  completed file state = false ->
  streamer_Stream (config.exportBucketName cfg) (Key file) (resumeAt file state) w
    = (lines1, Some e) ->
  ctx_wait 2000000000 w = (w1, None) ->
  streamer_Stream (config.exportBucketName cfg) (Key file) (resumeAt file state) w1
    = (lines2, None) ->
  decodable lines1 -> decodable lines2 ->
  Z.of_nat (length (batch l) + length lines1 + length lines2) < config.BatchSize cfg ->
  exists c' l' new,
    processFile cfg id file (c, l) = (c', l', Next) /\
    trace c' = trace c ++ new /\
    streams new = replicate 2 (config.exportBucketName cfg, Key file, resumeAt file state) /\
    waitsOf new = [2000000000] /\
    concat (writes new) = batch l ++ decoded lines1 ++ decoded lines2 /\
    (length (writes new) <= 1)%nat.
Proof.
  intros Hh HL Hc Hs1 Hwait Hs2 Hd1 Hd2 Hn.
  unfold processFile. rewrite ext_updateWorkerStatus, HL.
  fold (completed file state). rewrite Hc. fold (resumeAt file state).
  set (bucket := config.exportBucketName cfg) in *.
  set (offset := resumeAt file state) in *.
  unfold maxRetries. cbn [streamLoop]. change (0 <? 0) with false.
  change (0 <? 0 + 1) with true.
  change (int64_wrap (int64_shl 1 (0 + 1) * 1000000000)) with 2000000000.
  cbv beta iota zeta.
  unfold Stream at 1. cbn [ext emit withExt]. rewrite Hs1.
  match goal with |- context [deliver cfg id file lines1 (?x, ?y)] =>
    destruct (deliver_buffers id file lines1 x y Hd1) as (c1 & l1 & E1 & Ht1 & He1 & Hb1)
  end.
  { cbn [batch]. lia. }
  rewrite E1. rewrite ext_recordError, He1. cbn [ext emit withExt].
  rewrite Hwait. unfold Stream at 1. cbn [ext emit withExt]. rewrite Hs2.
  match goal with |- context [deliver cfg id file lines2 (?x, ?y)] =>
    destruct (deliver_buffers id file lines2 x y Hd2) as (c2 & l2 & E2 & Ht2 & He2 & Hb2)
  end.
  { rewrite Hb1, length_app. cbn [batch].
    assert (length (decoded lines1) <= length lines1)%nat.
    { clear. induction lines1 as [|p rest IH]; [done|]. rewrite (decoded_cons p rest).
      rewrite length_app. unfold decoded at 1. cbn. destruct (parser_Decode p.1); cbn; lia. }
    lia. }
  rewrite E2. cbn [batch] in Hb1. rewrite Hb1 in Hb2.
  revert Ht1 Ht2. traces. intros Ht1 Ht2.
  pose proof (proj2 Hh (sentinel file)) as Hsave. unfold sentinel in Hsave.
  set (calls := [EvStream bucket (Key file) offset; EvWait 2000000000;
                 EvStream bucket (Key file) offset]).
  assert (Ht : trace c2 = trace c ++ calls).
  { rewrite Ht2, Ht1. unfold calls. by rewrite <- !app_assoc. }
  destruct (bool_decide_reflect (batch l2 ≠ [])) as [Hb|Hb].
  - pose proof (writeBatch_healthy id (batch l2) file (currentOffset l2) true c2 Hh) as Hwn.
    destruct (writeBatch id (batch l2) file (currentOffset l2) true c2) as [c3 r] eqn:Hwb.
    cbn [snd] in Hwn. subst r.
    apply writeBatch_None in Hwb as [_ (saved & Ht3)].
    match goal with |- context [store_Save ?s ?x] =>
      pose proof (Hsave x) as Hsv; destruct (store_Save s x) as [w' r] end.
    cbn [snd] in Hsv. subst r.
    eexists _, _, (calls ++ [EvWriteBatch (batch l2)] ++ (EvSave <$> saved)
                   ++ [EvSave (sentinel file)]).
    split; [reflexivity|]. split_and!.
    + traces. rewrite Ht3, Ht. by rewrite <- !app_assoc.
    + rewrite !streams_app, streams_saves. reflexivity.
    + rewrite !waitsOf_app.
      replace (waitsOf (EvSave <$> saved)) with (@nil Z); [done|].
      clear. induction saved as [|s saved IH]; [done | exact IH].
    + rewrite !writes_app, writes_saves. cbn. rewrite app_nil_r, Hb2. by rewrite <- app_assoc.
    + rewrite !writes_app, writes_saves. cbn. lia.
  - apply dec_stable in Hb.
    match goal with |- context [store_Save ?s ?x] =>
      pose proof (Hsave x) as Hsv; destruct (store_Save s x) as [w' r] end.
    cbn [snd] in Hsv. subst r.
    eexists _, _, (calls ++ [EvSave (sentinel file)]).
    split; [reflexivity|]. split_and!.
    + traces. rewrite Ht. by rewrite <- !app_assoc.
    + reflexivity.
    + reflexivity.
    + cbn. rewrite app_assoc, <- Hb2, Hb. done.
    + cbn. lia.
Qed.
End FileFacts.

(** The lines of the sample file decode. *)
Lemma decodable_lines_clean :
  @decodable _ sample_restore.clean sample_restore.lines_clean.
Proof.
  assert (H1 : exists op, samples.Decode samples.line_full = Ok op)
    by (eexists; vm_compute; reflexivity).
  assert (H2 : exists op, samples.Decode samples.line_update = Ok op)
    by (eexists; vm_compute; reflexivity).
  destruct H1 as [op1 H1], H2 as [op2 H2].
  repeat constructor; intros e H; cbn [fst] in H;
    [change (samples.Decode samples.line_full = Err e) in H; rewrite H1 in H
    |change (samples.Decode samples.line_update = Err e) in H; rewrite H2 in H];
    discriminate.
Qed.

(** X24, exercised: batches of one operation, the counter at 99. *)
Lemma deliver_checkpoints_every_100_batches_witness :
  let c := sample_restore.start checkpoint.zeroState in
  let l := {| coordinator.batch := []; coordinator.currentOffset := 0;
              coordinator.batchesSinceCheckpoint := 99 |} in
  let r := @coordinator.deliver _ sample_restore.clean sample_small.cfg 0 sample_restore.file1
             sample_restore.lines_clean (c, l) in
  r.2 = None /\
  exists new,
    coordinator.trace r.1.1 = coordinator.trace c ++ new /\
    0 <= coordinator.batchesSinceCheckpoint r.1.2 < 100 /\
    Z.of_nat (length (coordinator.writes new)) + 99 =
      100 * Z.of_nat (length (coordinator.saves new))
      + coordinator.batchesSinceCheckpoint r.1.2 /\
    Forall (fun s => checkpoint.ExportID s = manifest.Key sample_restore.file1 /\
                     checkpoint.LastFile s = manifest.Key sample_restore.file1 /\
                     exists line, (line, checkpoint.LastByteOffset s)
                                    ∈ sample_restore.lines_clean)
      (coordinator.saves new).
Proof.
  intros c l r. split; [vm_compute; reflexivity|].
  refine (@deliver_checkpoints_every_100_batches _ sample_restore.clean sample_small.cfg 0
            sample_restore.file1 sample_restore.lines_clean c r.1.1 l r.1.2 _ _).
  - done.
  - vm_compute. reflexivity.
Defined.

(** X25, exercised: the sample file, restored from its start. *)
Lemma processFile_restores_file_witness :
  let c := sample_restore.start checkpoint.zeroState in
  exists c' l' new,
    @coordinator.processFile _ sample_restore.clean sample_restore.cfg 0
      sample_restore.file1 (c, sample_restore.noLocals) = (c', l', coordinator.Next) /\
    coordinator.trace c' = coordinator.trace c ++ new /\
    coordinator.streams new = [("bucket", manifest.Key sample_restore.file1, 0)] /\
    waitsOf new = [] /\
    concat (coordinator.writes new) =
      [] ++ @decoded _ sample_restore.clean sample_restore.lines_clean /\
    Forall (fun ops => 1 <= Z.of_nat (length ops) <= 25) (coordinator.writes new) /\
    coordinator.batch l' = [] /\
    last (coordinator.saves new) = Some (sentinel sample_restore.file1).
Proof.
  intros c.
  refine (@processFile_restores_file _ sample_restore.clean sample_restore.cfg 0
            sample_restore.file1 c sample_restore.noLocals (coordinator.ext c)
            checkpoint.zeroState sample_restore.lines_clean _ _ _ eq_refl eq_refl eq_refl
            decodable_lines_clean).
  - by split.
  - done.
  - done.
Defined.

(** X26, exercised: the connection breaks once. *)
Lemma processFile_retry_repeats_buffer_witness :
  exists c' l' new,
    @coordinator.processFile _ sample_flaky.collaborators sample_restore.cfg 0
      sample_restore.file1 (sample_flaky.start, sample_restore.noLocals)
      = (c', l', coordinator.Next) /\
    coordinator.trace c' = coordinator.trace sample_flaky.start ++ new /\
    coordinator.streams new = replicate 2 ("bucket", manifest.Key sample_restore.file1, 0) /\
    waitsOf new = [2000000000] /\
    concat (coordinator.writes new) =
      [] ++ @decoded _ sample_flaky.collaborators sample_restore.lines_clean
         ++ @decoded _ sample_flaky.collaborators sample_restore.lines_clean /\
    (length (coordinator.writes new) <= 1)%nat.
Proof.
  refine (@processFile_retry_repeats_buffer _ sample_flaky.collaborators sample_restore.cfg 0
            sample_restore.file1 sample_flaky.start sample_restore.noLocals
            (coordinator.ext sample_flaky.start)
            {| sample_flaky.written := []; sample_flaky.saved := checkpoint.zeroState;
               sample_flaky.waited := true |}
            checkpoint.zeroState sample_restore.lines_clean sample_restore.lines_clean
            (errorString "connection reset by peer")
            _ eq_refl eq_refl eq_refl eq_refl eq_refl
            decodable_lines_clean decodable_lines_clean _).
  - by split.
  - done.
Defined.

(** The batch of that run: each operation of the file twice. *)
Example retry_writes_operations_twice :
  sample_flaky.written
    (coordinator.ext
       (@coordinator.processFile _ sample_flaky.collaborators sample_restore.cfg 0
          sample_restore.file1 (sample_flaky.start, sample_restore.noLocals)).1.1)
  = [@decoded _ sample_flaky.collaborators sample_restore.lines_clean
     ++ @decoded _ sample_flaky.collaborators sample_restore.lines_clean].
Proof. vm_compute. reflexivity. Qed.
